(** * illuTag: index store, tag dictionary, scan engine and retrieval filter

    A shallow embedding of the Python sources

      - [database_manager.py]   (class [DatabaseManager])
      - [dictionary_manager.py] (class [DictionaryManager])
      - [scanner_engine.py]     (class [ScanEngine])
      - [tag_processor.py]      (class [TagProcessor])
      - [app.py]                (the configuration, [search_images_wrapper]
                                 and the handlers of the gallery)

    followed by the properties of the specification that concern them.

    Conventions of the embedding.
      - A Python [str] is a [string] holding the bytes of its UTF-8
        encoding. Equality, [in], [startswith], [endswith] and the splitting
        at an ASCII separator are the same on the bytes as on the
        characters; [str.strip] and [str.split] go by characters and take
        the white space of Unicode; [str.lower] is an interface
        ([CaseMapping]), since it follows the Unicode character database.
      - A Python [float] is a binary64 primitive float.
      - A Python [set] of strings is a [gset string]; a Python [dict], whose
        iteration order is its insertion order, is an association list
        without repeated keys ([PyDict]).
      - SQLite is a pair of tables with the two [AUTOINCREMENT] counters; a
        connection carries the committed and the pending database, and any
        statement can raise [sqlite3.Error] (fault injection by the number of
        the call on the connection).
      - The file system, [os.path] and the tagging model are interfaces
        ([OsPath], [TagProcessor]); the clock and the faults of a scan come
        from an oracle.
      - What a function prints and the summaries it returns are values of an
        inductive type, one constructor for each format string. *)

From Stdlib Require Import ZArith String Ascii List Bool Lia Sorted Permutation.
From Stdlib Require Import Uint63 Floats.PrimFloat Floats.FloatOps Floats.SpecFloat.
From stdpp Require Import gmap strings list.

Local Open Scope string_scope.
Local Open Scope Z_scope.
Local Open Scope list_scope.

(** ** Python strings *)

Module PyStr.

(** [bool(s)] of a string: non-empty. *)
Definition truthy (s : string) : bool :=
  match s with
  | EmptyString => false
  | String _ _ => true
  end.

(** [s.lower()] on the letters A to Z. The scan tests file extensions with
    it; on whether a text ends with [.jpg], [.jpeg], [.png] or [.gif] it
    agrees with [str.lower]. *)
Definition lower_char (c : ascii) : ascii :=
  let n := N_of_ascii c in
  if ((65 <=? n) && (n <=? 90))%N then ascii_of_N (n + 32) else c.

Fixpoint lower (s : string) : string :=
  match s with
  | EmptyString => EmptyString
  | String c s' => String (lower_char c) (lower s')
  end.

(** A continuation byte of UTF-8: [10xxxxxx]. *)
Definition continuation (c : ascii) : bool :=
  let n := N_of_ascii c in ((128 <=? n) && (n <? 192))%N.

(** The text goes on with a continuation byte. *)
Definition continues (s : string) : bool :=
  match s with
  | EmptyString => false
  | String d _ => continuation d
  end.

(** The characters of a text: every byte that is no continuation byte, with
    the continuation bytes that follow it. *)
Fixpoint chars (s : string) : list string :=
  match s with
  | EmptyString => []
  | String c s' =>
      match chars s' with
      | ch :: rest =>
          if continues s' then String c ch :: rest
          else String c EmptyString :: ch :: rest
      | [] => [String c EmptyString]
      end
  end.

(** [''.join(l)] *)
Fixpoint join (l : list string) : string :=
  match l with
  | [] => EmptyString
  | ch :: l' => ch +:+ join l'
  end.

(** The UTF-8 encoding of a code point below U+10000. *)
Definition utf8 (cp : N) : string :=
  if (cp <? 128)%N then String (ascii_of_N cp) EmptyString
  else if (cp <? 2048)%N
  then String (ascii_of_N (192 + cp / 64))
         (String (ascii_of_N (128 + cp mod 64)) EmptyString)
  else String (ascii_of_N (224 + cp / 4096))
         (String (ascii_of_N (128 + (cp / 64) mod 64))
            (String (ascii_of_N (128 + cp mod 64)) EmptyString)).

(** The code points of white space, as [str.isspace], [str.strip] and
    [str.split] take it: U+0009 to U+000D, U+001C to U+0020, U+0085, U+00A0,
    U+1680, U+2000 to U+200A, U+2028, U+2029, U+202F, U+205F and U+3000. *)
Definition whitespace : list N :=
  [9; 10; 11; 12; 13; 28; 29; 30; 31; 32; 133; 160; 5760;
   8192; 8193; 8194; 8195; 8196; 8197; 8198; 8199; 8200; 8201; 8202;
   8232; 8233; 8239; 8287; 12288]%N.

(** [ch.isspace()] of a character. *)
Definition is_space (ch : string) : bool :=
  existsb (String.eqb ch) (map utf8 whitespace).

Fixpoint lstrip_chars (l : list string) : list string :=
  match l with
  | [] => []
  | ch :: l' => if is_space ch then lstrip_chars l' else l
  end.

Fixpoint rstrip_chars (l : list string) : list string :=
  match l with
  | [] => []
  | ch :: l' => if forallb is_space l then [] else ch :: rstrip_chars l'
  end.

Definition lstrip (s : string) : string := join (lstrip_chars (chars s)).

Definition rstrip (s : string) : string := join (rstrip_chars (chars s)).

(** [s.strip()] *)
Definition strip (s : string) : string :=
  join (rstrip_chars (lstrip_chars (chars s))).

Fixpoint rev_onto (s acc : string) : string :=
  match s with
  | EmptyString => acc
  | String c s' => rev_onto s' (String c acc)
  end.

Definition rev (s : string) : string := rev_onto s EmptyString.

(** [s.startswith(p)] *)
Fixpoint startswith (s p : string) : bool :=
  match p, s with
  | EmptyString, _ => true
  | String _ _, EmptyString => false
  | String a p', String b s' => if Ascii.eqb a b then startswith s' p' else false
  end.

(** [s.endswith(p)] *)
Definition endswith (s p : string) : bool := startswith (rev s) (rev p).

(** [s.endswith(t)] for a tuple [t] of suffixes. *)
Definition endswith_any (s : string) (t : list string) : bool :=
  existsb (endswith s) t.

(** [needle in hay] *)
Fixpoint contains (hay needle : string) : bool :=
  startswith hay needle ||
  match hay with
  | EmptyString => false
  | String _ hay' => contains hay' needle
  end.

(** [s.replace(",", " ")] *)
Fixpoint replace_comma (s : string) : string :=
  match s with
  | EmptyString => EmptyString
  | String c s' =>
      String (if Ascii.eqb c "," then " "%char else c) (replace_comma s')
  end.

(** [s.split()] on the characters of a text: the maximal runs of characters
    that are no white space. [cur] is the run being read, reversed. *)
Fixpoint split_from (cur : list string) (l : list string) : list string :=
  match l with
  | [] =>
      match cur with
      | [] => []
      | _ :: _ => [join (List.rev cur)]
      end
  | ch :: l' =>
      if is_space ch
      then match cur with
           | [] => split_from [] l'
           | _ :: _ => join (List.rev cur) :: split_from [] l'
           end
      else split_from (ch :: cur) l'
  end.

(** [s.split()] *)
Definition split (s : string) : list string := split_from [] (chars s).

(** The shape of a character: a byte that is no continuation byte comes
    first ([led]); it is not empty and every byte after the first is a
    continuation byte ([continued]). *)
Definition led (ch : string) : bool :=
  match ch with
  | EmptyString => false
  | String c _ => negb (continuation c)
  end.

Definition continued (ch : string) : bool :=
  match ch with
  | EmptyString => false
  | String _ t => forallb continuation (list_ascii_of_string t)
  end.

End PyStr.

(** ** Python floats *)

Module PyFloat.

(** [lo <= x <= hi] *)
Definition between (lo x hi : float) : bool :=
  PrimFloat.leb lo x && PrimFloat.leb x hi.

(** [int(x)]: truncation toward zero of a finite float. *)
Definition to_int (x : float) : Z :=
  match Prim2SF x with
  | S754_finite s m e =>
      let v := if 0 <=? e then Z.pos m * 2 ^ e else Z.pos m / 2 ^ (- e) in
      if s then - v else v
  | _ => 0
  end.

(** [float(n)] for the counters of a scan (exact below 2^53). *)
Definition of_nat (n : nat) : float :=
  PrimFloat.of_uint63 (Uint63.of_Z (Z.of_nat n)).

(** [int((a / b) * 100)] *)
Definition percent (a b : nat) : Z :=
  to_int (PrimFloat.mul (PrimFloat.div (of_nat a) (of_nat b)) 100%float).

End PyFloat.

(** ** Python dictionaries (insertion ordered) *)

Module PyDict.

Section Dict.
Context {K V : Type} `{EqDecision K}.

(** [k in d] *)
Fixpoint mem (k : K) (d : list (K * V)) : bool :=
  match d with
  | [] => false
  | (k', _) :: d' => if decide (k = k') then true else mem k d'
  end.

(** [d.get(k)] *)
Fixpoint get (k : K) (d : list (K * V)) : option V :=
  match d with
  | [] => None
  | (k', v) :: d' => if decide (k = k') then Some v else get k d'
  end.

(** [d[k] = v]: an existing key keeps its place, a new one goes last. *)
Fixpoint set (k : K) (v : V) (d : list (K * V)) : list (K * V) :=
  match d with
  | [] => [(k, v)]
  | (k', v') :: d' =>
      if decide (k = k') then (k', v) :: d' else (k', v') :: set k v d'
  end.

(** [d[k] = f(d[k])] on an existing key (in-place update of the value). *)
Fixpoint update (k : K) (f : V -> V) (d : list (K * V)) : list (K * V) :=
  match d with
  | [] => []
  | (k', v') :: d' =>
      if decide (k = k') then (k', f v') :: d' else (k', v') :: update k f d'
  end.

(** [list(d.keys())], [list(d.values())] *)
Definition keys (d : list (K * V)) : list K := map fst d.
Definition values (d : list (K * V)) : list V := map snd d.

End Dict.

End PyDict.

(** ** Python calls *)

(** What a Python call gives back: a value, or an exception the callee does
    not catch. *)
Inductive returned (A : Type) : Type :=
| Return (a : A)
| Raise.
Arguments Return {A} a.
Arguments Raise {A}.

(** [bool(l)] of a list: non-empty. *)
Definition nonempty {A} (l : list A) : bool :=
  match l with
  | [] => false
  | _ :: _ => true
  end.

(** ** The operating system and the tagging model *)

(** [os.path] and [os.walk] as the scan engine, the store and the retrieval
    code use them. [walk folder] lists the [(root, files)] pairs [os.walk]
    yields, in its order. *)
Class OsPath := {
  isdir : string -> bool;
  walk : string -> list (string * list string);
  path_join : string -> string -> string;
  normpath : string -> string;
  basename : string -> string
}.

(** [str.lower()], which follows the Unicode character database. *)
Class CaseMapping := {
  str_lower : string -> string
}.

(** ** database_manager.py *)

Module DatabaseManager.

(** Table [images]. *)
Module IMAGES.
Record row := {
  image_id : Z;
  file_path : string;
  date_scanned : string;
  is_favorite : Z
}.
End IMAGES.

(** Table [tags]. *)
Module TAGS.
Record row := {
  tag_id : Z;
  image_id : Z;
  tag_name : string;
  score : float
}.
End TAGS.

(** The database file: both tables and the [sqlite_sequence] entries of their
    [AUTOINCREMENT] keys. *)
Record database := {
  images : list IMAGES.row;
  tags : list TAGS.row;
  images_seq : Z;
  tags_seq : Z
}.

(** The database [_initialize_db_structure] creates. *)
Definition empty_database : database :=
  {| images := []; tags := []; images_seq := 0; tags_seq := 0 |}.

(** A tag as Python passes it around: [{"tag_name": ..., "score": ...}]. *)
Record tag := { tag_name : string; score : float }.

(** An image as [get_all_indexed_images] returns it. *)
Record image := {
  image_id : Z;
  file_path : string;
  is_favorite : bool;
  tags_of : list tag
}.

(** *** Connections and transactions *)

(** A connection: the database as committed, the database as the open
    transaction sees it, the number of calls made on the connection so far
    (opening it is call 0), and the call that raises [sqlite3.Error], if any. *)
Record connection := {
  committed : database;
  pending : database;
  calls : nat;
  fault : option nat
}.

Inductive outcome (A : Type) : Type :=
| Done (a : A) (c : connection)
| SqliteError (c : connection)
| OtherError (c : connection).
Arguments Done {A} a c.
Arguments SqliteError {A} c.
Arguments OtherError {A} c.

Definition action (A : Type) : Type := connection -> outcome A.

Definition ret {A} (a : A) : action A := fun c => Done a c.

Definition bind {A B} (m : action A) (k : A -> action B) : action B :=
  fun c =>
    match m c with
    | Done a c' => k a c'
    | SqliteError c' => SqliteError c'
    | OtherError c' => OtherError c'
    end.

Notation "x <- m ;; k" := (bind m (fun x => k))
  (at level 100, m at next level, right associativity).
Notation "m ;;; k" := (bind m (fun _ => k))
  (at level 100, right associativity).

Definition tick (c : connection) : connection :=
  {| committed := committed c; pending := pending c;
     calls := S (calls c); fault := fault c |}.

Definition faulty (c : connection) : bool :=
  bool_decide (fault c = Some (calls c)).

(** [cursor.execute(stmt)]: the statement runs on the pending database, or
    raises and leaves it as it was. *)
Definition execute {A} (stmt : database -> A * database) : action A :=
  fun c =>
    if faulty c then SqliteError (tick c)
    else
      let '(a, db) := stmt (pending c) in
      Done a {| committed := committed c; pending := db;
                calls := S (calls c); fault := fault c |}.

(** [cursor.executemany(stmt, rows)]: one row after the other; a row that
    raises leaves the rows before it in the pending database. *)
Fixpoint executemany {X} (stmt : X -> database -> unit * database)
    (rows : list X) : action unit :=
  match rows with
  | [] => ret tt
  | x :: rows' => execute (stmt x) ;;; executemany stmt rows'
  end.

(** [conn.commit()] *)
Definition commit : action unit :=
  fun c =>
    if faulty c then SqliteError (tick c)
    else Done tt {| committed := pending c; pending := pending c;
                    calls := S (calls c); fault := fault c |}.

(** [conn.rollback()] *)
Definition rollback (c : connection) : connection :=
  {| committed := committed c; pending := committed c;
     calls := calls c; fault := fault c |}.

(** [conn.close()]: what is not committed is lost. *)
Definition close (c : connection) : database := committed c.

(** [_get_connection]: [None] when [sqlite3.connect] raises. *)
Definition _get_connection (flt : option nat) (db : database)
    : option connection :=
  if bool_decide (flt = Some 0%nat) then None
  else Some {| committed := db; pending := db; calls := 1; fault := flt |}.

(** *** SQL statements *)

(** The next [AUTOINCREMENT] key: one more than the largest key the table
    ever held. *)
Definition next_rowid (seq : Z) (ids : list Z) : Z :=
  foldr Z.max seq ids + 1.

Definition has_path (p : string) (r : IMAGES.row) : bool :=
  bool_decide (IMAGES.file_path r = p).

(** [DO UPDATE SET date_scanned=excluded.date_scanned] on the rows in
    conflict. *)
Definition touched (p now : string) (r : IMAGES.row) : IMAGES.row :=
  if has_path p r
  then {| IMAGES.image_id := IMAGES.image_id r;
          IMAGES.file_path := IMAGES.file_path r;
          IMAGES.date_scanned := now;
          IMAGES.is_favorite := IMAGES.is_favorite r |}
  else r.

(** [INSERT INTO images (file_path, date_scanned) VALUES (?, ?)
     ON CONFLICT(file_path) DO UPDATE SET date_scanned=excluded.date_scanned] *)
Definition upsert_image (p now : string) (db : database) : unit * database :=
  if existsb (has_path p) (images db)
  then
    (tt, {| images := map (touched p now) (images db);
            tags := tags db;
            images_seq := images_seq db;
            tags_seq := tags_seq db |})
  else
    let id := next_rowid (images_seq db) (map IMAGES.image_id (images db)) in
    (tt, {| images :=
              images db ++
              [{| IMAGES.image_id := id; IMAGES.file_path := p;
                  IMAGES.date_scanned := now; IMAGES.is_favorite := 0 |}];
            tags := tags db;
            images_seq := id;
            tags_seq := tags_seq db |}).

(** [SELECT image_id FROM images WHERE file_path = ?] and [fetchone()] *)
Definition select_image_id (p : string) (db : database)
    : option Z * database :=
  (head (map IMAGES.image_id (List.filter (has_path p) (images db))), db).

Definition tagged_with (id : Z) (t : TAGS.row) : bool :=
  bool_decide (TAGS.image_id t = id).

(** [DELETE FROM tags WHERE image_id = ?] *)
Definition delete_tags (id : Z) (db : database) : unit * database :=
  (tt, {| images := images db;
          tags := List.filter (fun t => negb (tagged_with id t)) (tags db);
          images_seq := images_seq db;
          tags_seq := tags_seq db |}).

(** [INSERT INTO tags (image_id, tag_name, score) VALUES (?, ?, ?)] *)
Definition insert_tag (row : Z * string * float) (db : database)
    : unit * database :=
  let '(id, name, sc) := row in
  let tid := next_rowid (tags_seq db) (map TAGS.tag_id (tags db)) in
  (tt, {| images := images db;
          tags := tags db ++
                  [{| TAGS.tag_id := tid; TAGS.image_id := id;
                      TAGS.tag_name := name; TAGS.score := sc |}];
          images_seq := images_seq db;
          tags_seq := tid |}).

Definition has_id (id : Z) (r : IMAGES.row) : bool :=
  bool_decide (IMAGES.image_id r = id).

(** [SET is_favorite = 1 - is_favorite WHERE image_id = ?] on a row. *)
Definition flipped (id : Z) (r : IMAGES.row) : IMAGES.row :=
  if has_id id r
  then {| IMAGES.image_id := IMAGES.image_id r;
          IMAGES.file_path := IMAGES.file_path r;
          IMAGES.date_scanned := IMAGES.date_scanned r;
          IMAGES.is_favorite := 1 - IMAGES.is_favorite r |}
  else r.

(** [UPDATE images SET is_favorite = 1 - is_favorite WHERE image_id = ?] *)
Definition update_favorite (id : Z) (db : database) : unit * database :=
  (tt, {| images := map (flipped id) (images db);
          tags := tags db;
          images_seq := images_seq db;
          tags_seq := tags_seq db |}).

(** [SELECT is_favorite FROM images WHERE image_id = ?] and [fetchone()] *)
Definition select_is_favorite (id : Z) (db : database)
    : option Z * database :=
  (head (map IMAGES.is_favorite (List.filter (has_id id) (images db))), db).

(** [SELECT file_path FROM images] and [fetchall()] *)
Definition select_file_paths (db : database) : list string * database :=
  (map IMAGES.file_path (images db), db).

(** [SELECT DISTINCT tag_name FROM tags] and [fetchall()] *)
Definition select_tag_names (db : database) : list string * database :=
  (remove_dups (map TAGS.tag_name (tags db)), db).

(** A row of the join of [tags] (T1) with [images] (T2). *)
Record joined := {
  j_image_id : Z;
  j_file_path : string;
  j_is_favorite : Z;
  j_tag_name : string;
  j_score : float
}.

(** [FROM tags AS T1 INNER JOIN images AS T2 ON T1.image_id = T2.image_id] *)
Definition inner_join (db : database) : list joined :=
  flat_map
    (fun t =>
       map (fun r =>
              {| j_image_id := TAGS.image_id t;
                 j_file_path := IMAGES.file_path r;
                 j_is_favorite := IMAGES.is_favorite r;
                 j_tag_name := TAGS.tag_name t;
                 j_score := TAGS.score t |})
           (List.filter (has_id (TAGS.image_id t)) (images db)))
    (tags db).

(** [ORDER BY T2.image_id, T1.score DESC]: [a] may come before [b]. *)
Definition before (a b : joined) : bool :=
  (j_image_id a <? j_image_id b) ||
  ((j_image_id a =? j_image_id b) && PrimFloat.leb (j_score b) (j_score a)).

Fixpoint insert_sorted (a : joined) (l : list joined) : list joined :=
  match l with
  | [] => [a]
  | b :: l' => if before a b then a :: l else b :: insert_sorted a l'
  end.

Definition order_by (l : list joined) : list joined :=
  foldr insert_sorted [] l.

Definition select_images_with_tags (db : database)
    : list joined * database :=
  (order_by (inner_join db), db).

(** *** The methods of [DatabaseManager] *)

Section Methods.
Context `{OsPath}.

(** [get_all_indexed_file_paths]: the normalized paths of all image rows; the
    empty set on [sqlite3.Error]. *)
Definition get_all_indexed_file_paths (flt : option nat) (db : database)
    : gset string :=
  match _get_connection flt db with
  | None => ∅
  | Some conn =>
      match execute select_file_paths conn with
      | Done results _ => list_to_set (map normpath results)
      | _ => ∅
      end
  end.

(** The transaction of [save_tags_to_db], from [BEGIN TRANSACTION] to
    [commit]. [fetchone()[0]] on no row is a [TypeError]. *)
Definition save_tags_transaction (file_path now : string) (tags : list tag)
    : action bool :=
  execute (fun db => (tt, db)) ;;;
  let normalized_path := normpath file_path in
  execute (upsert_image normalized_path now) ;;;
  found <- execute (select_image_id normalized_path) ;;
  match found with
  | None => fun c => OtherError c
  | Some image_id =>
      execute (delete_tags image_id) ;;;
      let tag_data := map (fun t => (image_id, tag_name t, score t)) tags in
      executemany insert_tag tag_data ;;;
      commit ;;;
      ret true
  end.

(** [save_tags_to_db(file_path, tags)], at time [now]. *)
Definition save_tags_to_db (flt : option nat) (now file_path : string)
    (tags : list tag) (db : database) : returned bool * database :=
  match _get_connection flt db with
  | None => (Return false, db)
  | Some conn =>
      match save_tags_transaction file_path now tags conn with
      | Done b c => (Return b, close c)
      | SqliteError c => (Return false, close (rollback c))
      | OtherError c => (Raise, close c)
      end
  end.

(** [get_all_indexed_tags]: the distinct tag names; the empty set on
    [sqlite3.Error]. *)
Definition get_all_indexed_tags (flt : option nat) (db : database)
    : gset string :=
  match _get_connection flt db with
  | None => ∅
  | Some conn =>
      match execute select_tag_names conn with
      | Done results _ => list_to_set results
      | _ => ∅
      end
  end.

(** One step of the loop that regroups the joined rows by image: a first row
    of an image creates its entry, every row appends its tag. *)
Definition add_row (image_results : list (Z * image)) (row : joined)
    : list (Z * image) :=
  let image_id := j_image_id row in
  let image_results :=
    if PyDict.mem image_id image_results then image_results
    else PyDict.set image_id
           {| image_id := image_id;
              file_path := j_file_path row;
              is_favorite := negb (j_is_favorite row =? 0);
              tags_of := [] |} image_results in
  PyDict.update image_id
    (fun item =>
       {| image_id := DatabaseManager.image_id item;
          file_path := DatabaseManager.file_path item;
          is_favorite := DatabaseManager.is_favorite item;
          tags_of := tags_of item ++
                     [{| tag_name := j_tag_name row; score := j_score row |}] |})
    image_results.

(** [get_all_indexed_images]: every image that has tags, with its tags by
    descending score; the empty list on [sqlite3.Error]. *)
Definition get_all_indexed_images (flt : option nat) (db : database)
    : list image :=
  match _get_connection flt db with
  | None => []
  | Some conn =>
      match execute select_images_with_tags conn with
      | Done results _ => PyDict.values (fold_left add_row results [])
      | _ => []
      end
  end.

(** The transaction of [toggle_favorite_status]. *)
Definition toggle_favorite_transaction (image_id : Z) : action bool :=
  execute (update_favorite image_id) ;;;
  new_status <- execute (select_is_favorite image_id) ;;
  commit ;;;
  match new_status with
  | Some is_favorite => ret (negb (is_favorite =? 0))
  | None => ret false
  end.

(** [toggle_favorite_status(image_id)]. No statement of its transaction
    raises anything but [sqlite3.Error], so the last case never happens. *)
Definition toggle_favorite_status (flt : option nat) (image_id : Z)
    (db : database) : bool * database :=
  match _get_connection flt db with
  | None => (false, db)
  | Some conn =>
      match toggle_favorite_transaction image_id conn with
      | Done b c => (b, close c)
      | SqliteError c => (false, close (rollback c))
      | OtherError c => (false, close c)
      end
  end.

End Methods.

End DatabaseManager.

(** The tagging model behind [TagProcessor.process_image]: the path and the
    tags above the threshold, or an exception. *)
Class TagProcessor := {
  process_image : string -> returned (string * list DatabaseManager.tag)
}.

(** ** dictionary_manager.py *)

Module DictionaryManager.

Record dictionary := {
  _cn_to_en_tag : list (string * string);
  _en_to_cn_tag : list (string * string);
  _all_cn_tags : list string
}.

(** The dictionary of [__init__], before anything is loaded. *)
Definition empty_dictionary : dictionary :=
  {| _cn_to_en_tag := []; _en_to_cn_tag := []; _all_cn_tags := [] |}.

(** The data frame after [dropna] and the clean-up of both columns, as the
    pairs [(cn_tag, en_tag)] that [zip] yields. A row is the pair of its cells
    in the columns [tag] and [right_tag_cn]; [None] is a missing cell. *)
Definition cleaned `{CaseMapping} (df : list (option string * option string))
    : list (string * string) :=
  omap (fun row =>
          match row with
          | (Some tag, Some right_tag_cn) =>
              Some (PyStr.strip right_tag_cn, str_lower (PyStr.strip tag))
          | _ => None
          end) df.

(** One turn of the loop of [_load_dictionary]: both maps take the entry. *)
Definition load_entry (maps : list (string * string) * list (string * string))
    (entry : string * string)
    : list (string * string) * list (string * string) :=
  let '(cn_tag, en_tag) := entry in
  (PyDict.set cn_tag en_tag (fst maps), PyDict.set en_tag cn_tag (snd maps)).

(** The loop of [_load_dictionary] over the entries. *)
Definition load_entries (entries : list (string * string))
    : list (string * string) * list (string * string) :=
  fold_left load_entry entries ([], []).

(** [_load_dictionary]: [None] is a file that is missing or cannot be read. *)
Definition _load_dictionary `{CaseMapping}
    (source : option (list (option string * option string))) : dictionary :=
  match source with
  | None => empty_dictionary
  | Some df =>
      let maps := load_entries (cleaned df) in
      {| _cn_to_en_tag := fst maps;
         _en_to_cn_tag := snd maps;
         _all_cn_tags := PyDict.keys (fst maps) |}
  end.

(** [fuzzy_lookup_suggestions(partial_cn_term, allowed_en_tags)] *)
Definition fuzzy_lookup_suggestions (self : dictionary)
    (partial_cn_term : string) (allowed_en_tags : option (gset string))
    : list string :=
  let partial_cn_term := PyStr.strip partial_cn_term in
  if negb (PyStr.truthy partial_cn_term) then []
  else
    let raw_suggestions :=
      List.filter (fun cn_tag => PyStr.contains cn_tag partial_cn_term)
                  (_all_cn_tags self) in
    match allowed_en_tags with
    | None => take 200 raw_suggestions
    | Some allowed =>
        take 200
          (List.filter
             (fun cn_tag =>
                match PyDict.get cn_tag (_cn_to_en_tag self) with
                | Some en_tag =>
                    PyStr.truthy en_tag && bool_decide (en_tag ∈ allowed)
                | None => false
                end) raw_suggestions)
    end.

(** The set [final_en_tags] of [get_search_tags_from_cn_list]. *)
Definition final_en_tags (self : dictionary) (cn_terms : list string)
    : gset string :=
  fold_left
    (fun acc cn_term =>
       match PyDict.get cn_term (_cn_to_en_tag self) with
       | Some en_tag => if PyStr.truthy en_tag then acc ∪ {[en_tag]} else acc
       | None => acc
       end) cn_terms ∅.

(** [get_search_tags_from_cn_list(cn_terms)] *)
Definition get_search_tags_from_cn_list (self : dictionary)
    (cn_terms : list string) : list string :=
  elements (final_en_tags self cn_terms).

(** [lookup_en_to_cn(en_tag)] *)
Definition lookup_en_to_cn (self : dictionary) (en_tag : string)
    : option string :=
  PyDict.get en_tag (_en_to_cn_tag self).

(** [is_cn_tag(cn_tag)] *)
Definition is_cn_tag (self : dictionary) (cn_tag : string) : bool :=
  PyDict.mem cn_tag (_cn_to_en_tag self).

End DictionaryManager.

(** ** scanner_engine.py *)

Module ScanEngine.

(** [SUPPORTED_EXTENSIONS] *)
Definition SUPPORTED_EXTENSIONS : list string :=
  [".jpg"; ".jpeg"; ".png"; ".gif"].

(** [self.status] *)
Record status := {
  is_scanning : bool;
  total_files : nat;
  files_processed : nat;
  progress_percent : Z;
  folder : string
}.

(** The engine: its status record and the database behind
    [self.db_manager]. *)
Record engine := {
  status_of : status;
  db_manager : DatabaseManager.database
}.

(** The status of [__init__]. *)
Definition initial_status : status :=
  {| is_scanning := false; total_files := 0; files_processed := 0;
     progress_percent := 0; folder := "" |}.

(** What [start_scan] prints. *)
Inductive message : Type :=
| AlreadyRunning
| Started (folder_path : string) (force_rescan : bool)
| InvalidPath (folder_path : string)
| ForcedRescan
| CheckingIndex
| FoundIndexed (n : nat)
| ForcedTotal (n : nat)
| Incremental (indexed to_process : nat)
| Tagging (i to_process : nat) (name : string)
| Saved (n : nat)
| Skipped
| Failed (name : string)
| UnknownError
| Finished (n : nat).

(** What a run of [start_scan] does, in order: [Locked s] is the status when
    a [with self.lock] block that wrote to it is left, so a concurrent
    [get_status] returns the status of the latest [Locked] event. *)
Inductive event : Type :=
| Locked (s : status)
| ProcessImage (file_path : string)
| SaveTags (file_path : string) (tags : list DatabaseManager.tag)
| Callback (s : status)
| Print (m : message).

(** What the run cannot decide: the fault of the read of the index, and for
    the [i]-th file to scan the fault of its save and the time of its save. *)
Record oracle := {
  paths_fault : option nat;
  save_fault : nat -> option nat;
  clock : nat -> string
}.

Section Methods.
Context `{OsPath} `{TagProcessor}.

(** [get_status] *)
Definition get_status (self : engine) : status := status_of self.

(** The files of [os.walk(folder_path)] with a supported extension, joined to
    their root and normalized: [all_files_in_folder]. *)
Definition discover (folder_path : string) : list string :=
  flat_map
    (fun entry =>
       map (fun file => normpath (path_join (fst entry) file))
           (List.filter
              (fun file =>
                 PyStr.endswith_any (PyStr.lower file) SUPPORTED_EXTENSIONS)
              (snd entry)))
    (walk folder_path).

(** [files_to_scan]: the discovered files but, unless the scan is forced,
    those already indexed. *)
Definition to_scan (force_rescan : bool) (already_indexed_paths : gset string)
    (all_files_in_folder : list string) : list string :=
  List.filter
    (fun normalized_path =>
       negb (negb force_rescan &&
             bool_decide (normalized_path ∈ already_indexed_paths)))
    all_files_in_folder.

(** The status after the enumeration (step 3). *)
Definition enumerated (force_rescan : bool) (already_indexed_paths : gset string)
    (all_files_in_folder : list string) (st : status) : status :=
  let total := length all_files_in_folder in
  let processed := if force_rescan then 0%nat else size already_indexed_paths in
  {| is_scanning := is_scanning st;
     total_files := total;
     files_processed := processed;
     progress_percent :=
       if (0 <? total)%nat then PyFloat.percent processed total else 0;
     folder := folder st |}.

(** Tagging and saving of one file (steps 4a and 4b). *)
Definition tag_and_save (o : oracle) (i files_to_process : nat)
    (file_path : string) (db : DatabaseManager.database)
    : DatabaseManager.database * list event :=
  let name := basename file_path in
  let before := [Print (Tagging (S i) files_to_process name);
                 ProcessImage file_path] in
  match process_image file_path with
  | Raise => (db, before ++ [Print (Failed name)])
  | Return (_, tags_list) =>
      if nonempty tags_list
      then
        match DatabaseManager.save_tags_to_db (save_fault o i) (clock o i)
                file_path tags_list db with
        | (Return true, db') =>
            (db', before ++ [SaveTags file_path tags_list;
                             Print (Saved (length tags_list))])
        | (Return false, db') =>
            (db', before ++ [SaveTags file_path tags_list; Print Skipped])
        | (Raise, db') =>
            (db', before ++ [SaveTags file_path tags_list;
                             Print (Failed name)])
        end
      else (db, before ++ [Print Skipped])
  end.

(** The status after one more file (step 4c). *)
Definition advanced (total_files : nat) (st : status) : status :=
  let processed := S (files_processed st) in
  {| is_scanning := is_scanning st;
     total_files := ScanEngine.total_files st;
     files_processed := processed;
     progress_percent :=
       if (0 <? total_files)%nat then PyFloat.percent processed total_files
       else 100;
     folder := folder st |}.

(** The loop of step 4 from the [i]-th file on. The boolean tells whether the
    loop ended normally; it does not when the progress callback raises. *)
Fixpoint scan_files (o : oracle)
    (progress_callback : option (status -> returned unit))
    (total_files files_to_process i : nat) (files : list string)
    (st : status) (db : DatabaseManager.database)
    : status * DatabaseManager.database * list event * bool :=
  match files with
  | [] => (st, db, [], true)
  | file_path :: files' =>
      let '(db1, ev1) := tag_and_save o i files_to_process file_path db in
      let st1 := advanced total_files st in
      let ev2 := ev1 ++ [Locked st1] in
      match progress_callback with
      | Some callback =>
          match callback st1 with
          | Raise => (st1, db1, ev2 ++ [Callback st1], false)
          | Return _ =>
              let '(st2, db2, ev3, ok) :=
                scan_files o progress_callback total_files files_to_process
                           (S i) files' st1 db1 in
              (st2, db2, ev2 ++ [Callback st1] ++ ev3, ok)
          end
      | None =>
          let '(st2, db2, ev3, ok) :=
            scan_files o progress_callback total_files files_to_process
                       (S i) files' st1 db1 in
          (st2, db2, ev2 ++ ev3, ok)
      end
  end.

(** The status the [finally] block leaves (step 5). *)
Definition finished (st : status) : status :=
  {| is_scanning := false;
     total_files := total_files st;
     files_processed := if (0 <? total_files st)%nat then total_files st else 0%nat;
     progress_percent := if (0 <? total_files st)%nat then 100 else 0;
     folder := folder st |}.

(** [start_scan(folder_path, progress_callback, force_rescan)] *)
Definition start_scan (folder_path : string)
    (progress_callback : option (status -> returned unit))
    (force_rescan : bool) (o : oracle) (self : engine)
    : engine * list event :=
  if is_scanning (status_of self) then (self, [Print AlreadyRunning])
  else
    let st0 := {| is_scanning := true; total_files := 0; files_processed := 0;
                  progress_percent := 0; folder := folder_path |} in
    let ev0 := [Locked st0; Print (Started folder_path force_rescan)] in
    if negb (isdir folder_path)
    then
      let st1 := {| is_scanning := false;
                    total_files := total_files st0;
                    files_processed := files_processed st0;
                    progress_percent := progress_percent st0;
                    folder := folder st0 |} in
      ({| status_of := st1; db_manager := db_manager self |},
       ev0 ++ [Locked st1; Print (InvalidPath folder_path)])
    else
      let already_indexed_paths :=
        if force_rescan then ∅
        else DatabaseManager.get_all_indexed_file_paths (paths_fault o)
               (db_manager self) in
      let ev1 :=
        if force_rescan then [Print ForcedRescan]
        else [Print CheckingIndex;
              Print (FoundIndexed (size already_indexed_paths))] in
      let all_files_in_folder := discover folder_path in
      let files_to_scan :=
        to_scan force_rescan already_indexed_paths all_files_in_folder in
      let st1 := enumerated force_rescan already_indexed_paths
                   all_files_in_folder st0 in
      let files_to_process :=
        if force_rescan then length all_files_in_folder
        else length files_to_scan in
      let ev2 :=
        [Locked st1;
         Print (if force_rescan then ForcedTotal files_to_process
                else Incremental (size already_indexed_paths) files_to_process)] in
      let '(st2, db2, ev3, ok) :=
        scan_files o progress_callback (total_files st1) files_to_process 0
                   files_to_scan st1 (db_manager self) in
      let ev4 := if ok then [] else [Print UnknownError] in
      let st3 := finished st2 in
      ({| status_of := st3; db_manager := db2 |},
       ev0 ++ ev1 ++ ev2 ++ ev3 ++ ev4 ++
       [Locked st3; Print (Finished (files_processed st3))])
  .

End Methods.

(** The statuses a run goes through. *)
Definition statuses (trace : list event) : list status :=
  omap (fun e => match e with Locked s => Some s | _ => None end) trace.

(** The files a run hands to the tagging model. *)
Definition processed (trace : list event) : list string :=
  omap (fun e => match e with ProcessImage p => Some p | _ => None end) trace.

End ScanEngine.

(** ** app.py: the retrieval filter *)

Module App.

(** The parts of the summary ([search_msg_parts]). *)
Inductive part : Type :=
| CnExact (cn_selected_tag : string)
| CnFuzzy (cn_partial_input : string) (matches : nat)
| EnFuzzy (en_fuzzy_terms : list string)
| FileName (file_name_input : string)
| FavoritesOnly.

(** The four summaries [search_images_wrapper] can return, by their format
    string: "no tag for the input, 0 results", "the database is empty",
    "showing all n images" and "criteria ..., n images found". *)
Inductive message : Type :=
| NoTagsFound (cn_partial_input : string)
| DatabaseEmpty
| ShowingAll (n : nat) (min_score max_score : float)
| Found (parts : list part) (min_score max_score : float) (n : nat).

(** The heading of the tag list in a title. *)
Inductive heading : Type :=
| HighScoreTags
| AllTags
| MatchedTags.

(** How a tag got into a title: listed, matched by the resolved tags, or
    matched by a fuzzy term. *)
Inductive origin : Type :=
| Listed
| MatchedCn
| MatchedEn.

(** A line of a title: a tag with its score. *)
Record label := {
  label_name : string;
  label_origin : origin;
  label_score : float
}.

(** The title of a gallery entry: file name, heading, tag lines. *)
Record title := {
  title_name : string;
  title_heading : heading;
  title_tags : list label
}.

(** What [search_images_wrapper] returns (the widgets left out). *)
Record result := {
  output_data : list (string * title);
  final_message : message;
  filtered_raw_results : list DatabaseManager.image;
  gallery_state : list (nat * string)
}.

(** The read faults of the two store calls of a search. *)
Record faults := {
  tags_fault : option nat;
  images_fault : option nat
}.

Definition no_faults : faults :=
  {| tags_fault := None; images_fault := None |}.

Section Search.
Context `{OsPath} `{CaseMapping}.

(** [bool(cn_selected_tag)] *)
Definition selected (cn_selected_tag : option string) : bool :=
  match cn_selected_tag with
  | Some s => PyStr.truthy s
  | None => false
  end.

(** [user_intended_search], on the normalized inputs. *)
Definition user_intended_search (cn_partial_input : string)
    (cn_selected_tag : option string) (english_input file_name_input : string)
    (show_favorites : bool) : bool :=
  PyStr.truthy cn_partial_input || PyStr.truthy english_input ||
  selected cn_selected_tag || PyStr.truthy file_name_input || show_favorites.

(** [cn_terms_to_search] (step 2), on the normalized input. *)
Definition cn_terms_to_search (dict : DictionaryManager.dictionary)
    (db : DatabaseManager.database) (flt : faults) (cn_partial_input : string)
    (cn_selected_tag : option string) : list string :=
  match cn_selected_tag with
  | Some s =>
      if PyStr.truthy s then [s]
      else if PyStr.truthy cn_partial_input
      then DictionaryManager.fuzzy_lookup_suggestions dict cn_partial_input
             (Some (DatabaseManager.get_all_indexed_tags (tags_fault flt) db))
      else []
  | None =>
      if PyStr.truthy cn_partial_input
      then DictionaryManager.fuzzy_lookup_suggestions dict cn_partial_input
             (Some (DatabaseManager.get_all_indexed_tags (tags_fault flt) db))
      else []
  end.

(** [cn_search_tags] *)
Definition cn_search_tags (dict : DictionaryManager.dictionary)
    (db : DatabaseManager.database) (flt : faults) (cn_partial_input : string)
    (cn_selected_tag : option string) : gset string :=
  list_to_set
    (DictionaryManager.get_search_tags_from_cn_list dict
       (cn_terms_to_search dict db flt cn_partial_input cn_selected_tag)).

(** [en_fuzzy_terms] (step 3), on the normalized input. *)
Definition en_fuzzy_terms (english_input : string) : list string :=
  if PyStr.truthy english_input
  then map PyStr.strip
         (List.filter (fun t => PyStr.truthy (PyStr.strip t))
            (PyStr.split (PyStr.replace_comma english_input)))
  else [].

Definition listed (t : DatabaseManager.tag) : label :=
  {| label_name := DatabaseManager.tag_name t;
     label_origin := Listed;
     label_score := DatabaseManager.score t |}.

Definition in_range (min_score max_score : float) (t : DatabaseManager.tag)
    : bool :=
  PyFloat.between min_score (DatabaseManager.score t) max_score.

(** The body of the loop over the tags of an image: the line the tag adds to
    [matched_tags], if any. *)
Definition matched (tags : gset string) (terms : list string)
    (min_score max_score : float) (tag_info : DatabaseManager.tag)
    : option label :=
  let tag_name := DatabaseManager.tag_name tag_info in
  let score := DatabaseManager.score tag_info in
  if negb (PyFloat.between min_score score max_score) then None
  else if bool_decide (tag_name ∈ tags)
  then Some {| label_name := tag_name; label_origin := MatchedCn;
               label_score := score |}
  else if existsb (fun term => PyStr.contains tag_name term) terms
  then Some {| label_name := tag_name; label_origin := MatchedEn;
               label_score := score |}
  else None.

(** The body of the loop over the images (step 6): the gallery entry of the
    image, if it is kept. *)
Definition keep (intended : bool) (tags : gset string) (terms : list string)
    (file_name_input : string) (min_score max_score : float)
    (show_favorites : bool) (item : DatabaseManager.image)
    : option (string * title) :=
  let file_path := DatabaseManager.file_path item in
  if show_favorites && negb (DatabaseManager.is_favorite item) then None
  else if PyStr.truthy file_name_input &&
          negb (PyStr.contains (str_lower file_path) file_name_input)
  then None
  else if bool_decide (tags = ∅) && negb (nonempty terms)
  then
    if negb intended
    then
      let tags_in_range :=
        map listed
          (List.filter (in_range min_score max_score)
             (DatabaseManager.tags_of item)) in
      if negb (nonempty tags_in_range) then None
      else Some (file_path,
                 {| title_name := basename file_path;
                    title_heading := HighScoreTags;
                    title_tags := take 5 tags_in_range |})
    else
      let all_tags := map listed (DatabaseManager.tags_of item) in
      Some (file_path,
            {| title_name := basename file_path;
               title_heading := AllTags;
               title_tags := take 5 all_tags |})
  else
    let matched_tags :=
      omap (matched tags terms min_score max_score)
           (DatabaseManager.tags_of item) in
    if nonempty matched_tags
    then Some (file_path,
               {| title_name := basename file_path;
                  title_heading := MatchedTags;
                  title_tags := matched_tags |})
    else None.

(** [search_msg_parts] *)
Definition search_msg_parts (dict : DictionaryManager.dictionary)
    (db : DatabaseManager.database) (flt : faults)
    (cn_partial_input : string) (cn_selected_tag : option string)
    (english_input file_name_input : string) (show_favorites : bool)
    : list part :=
  (match cn_selected_tag with
   | Some s =>
       if PyStr.truthy s then [CnExact s]
       else if PyStr.truthy cn_partial_input
       then [CnFuzzy cn_partial_input
               (length (cn_terms_to_search dict db flt cn_partial_input
                          cn_selected_tag))]
       else []
   | None =>
       if PyStr.truthy cn_partial_input
       then [CnFuzzy cn_partial_input
               (length (cn_terms_to_search dict db flt cn_partial_input
                          cn_selected_tag))]
       else []
   end) ++
  (if PyStr.truthy english_input
   then [EnFuzzy (en_fuzzy_terms english_input)] else []) ++
  (if PyStr.truthy file_name_input then [FileName file_name_input] else []) ++
  (if show_favorites then [FavoritesOnly] else []).

(** [search_images_wrapper] *)
Definition search_images_wrapper (dict : DictionaryManager.dictionary)
    (db : DatabaseManager.database) (flt : faults)
    (cn_partial_input : string) (cn_selected_tag : option string)
    (english_input file_name_input : string) (min_score max_score : float)
    (show_favorites : bool) : result :=
  let cn_partial_input := PyStr.strip cn_partial_input in
  let english_input := str_lower (PyStr.strip english_input) in
  let file_name_input := str_lower (PyStr.strip file_name_input) in
  let intended :=
    user_intended_search cn_partial_input cn_selected_tag english_input
      file_name_input show_favorites in
  let tags := cn_search_tags dict db flt cn_partial_input cn_selected_tag in
  let terms := en_fuzzy_terms english_input in
  if intended && bool_decide (tags = ∅) && negb (nonempty terms) &&
     negb (PyStr.truthy file_name_input) && negb show_favorites
  then {| output_data := []; final_message := NoTagsFound cn_partial_input;
          filtered_raw_results := []; gallery_state := [] |}
  else
    let all_images_data :=
      DatabaseManager.get_all_indexed_images (images_fault flt) db in
    if negb (nonempty all_images_data)
    then {| output_data := []; final_message := DatabaseEmpty;
            filtered_raw_results := []; gallery_state := [] |}
    else
      let kept :=
        omap (fun item =>
                match keep intended tags terms file_name_input min_score
                        max_score show_favorites item with
                | Some entry => Some (entry, item)
                | None => None
                end) all_images_data in
      let output_data := map fst kept in
      let filtered_raw_results := map snd kept in
      let parts :=
        search_msg_parts dict db flt cn_partial_input cn_selected_tag
          english_input file_name_input show_favorites in
      {| output_data := output_data;
         final_message :=
           if nonempty parts
           then Found parts min_score max_score (length output_data)
           else ShowingAll (length output_data) min_score max_score;
         filtered_raw_results := filtered_raw_results;
         gallery_state :=
           imap (fun i item => (i, DatabaseManager.file_path item))
                filtered_raw_results |}.

(** [load_initial_gallery] *)
Definition load_initial_gallery (dict : DictionaryManager.dictionary)
    (db : DatabaseManager.database) (flt : faults)
    (min_score max_score : float) : result :=
  search_images_wrapper dict db flt "" None "" "" min_score max_score false.

End Search.

End App.

(** * Vocabulary of the specification *)

Module Store.
Import DatabaseManager.

(** [bool(row['is_favorite'])] *)
Definition favorite (r : IMAGES.row) : bool := negb (IMAGES.is_favorite r =? 0).

(** A tag row as the Python tag it was saved from. *)
Definition to_tag (t : TAGS.row) : tag :=
  {| tag_name := TAGS.tag_name t; score := TAGS.score t |}.

(** The tag assignments stored for a path: the tag rows of the image rows
    with this path, in table order. *)
Definition stored_tags (db : database) (p : string) : list tag :=
  flat_map
    (fun r => map to_tag
                (List.filter (tagged_with (IMAGES.image_id r)) (tags db)))
    (List.filter (has_path p) (images db)).

(** What the schema and the writers of the store maintain: [file_path] is
    [UNIQUE], [image_id] is the primary key, [is_favorite] is 0 or 1. *)
Definition well_formed (db : database) : Prop :=
  NoDup (map IMAGES.file_path (images db)) ∧
  NoDup (map IMAGES.image_id (images db)) ∧
  Forall (fun r => IMAGES.is_favorite r = 0 ∨ IMAGES.is_favorite r = 1)
         (images db).

(** The Python tag of a joined row. *)
Definition row_tag (row : joined) : tag :=
  {| tag_name := j_tag_name row; score := j_score row |}.

(** The tags of an image among joined rows, in their order. *)
Definition tags_for (id : Z) (rows : list joined) : list tag :=
  map row_tag (List.filter (fun row => bool_decide (j_image_id row = id)) rows).

(** The joined row of a tag row and an image row. *)
Definition join_row (t : TAGS.row) (r : IMAGES.row) : joined :=
  {| j_image_id := TAGS.image_id t;
     j_file_path := IMAGES.file_path r;
     j_is_favorite := IMAGES.is_favorite r;
     j_tag_name := TAGS.tag_name t;
     j_score := TAGS.score t |}.

(** What the regrouping loop maintains, for the rows [done] read so far:
    the dictionary has no repeated key; an image that has an entry has its
    key in it, the tags of its rows in their order, and the path and the
    favorite flag of one of its rows; an image without entry has no row. *)
Definition grouped (d : list (Z * image)) (done : list joined) : Prop :=
  NoDup (PyDict.keys d) ∧
  ∀ k, match PyDict.get k d with
       | Some item =>
           image_id item = k ∧ tags_of item = tags_for k done ∧
           ∃ row, row ∈ done ∧ j_image_id row = k ∧
                  file_path item = j_file_path row ∧
                  is_favorite item = negb (j_is_favorite row =? 0)
       | None => ∀ row, row ∈ done → j_image_id row ≠ k
       end.

(** The database a committed [save_tags_to_db] leaves: the image row
    upserted, its old tag rows deleted, the new ones inserted. *)
Definition replaced (p now : string) (new_tags : list tag) (db : database)
    : database :=
  let db1 := snd (upsert_image p now db) in
  match fst (select_image_id p db1) with
  | Some id =>
      fold_left (fun d row => snd (insert_tag row d))
        (map (fun t => (id, tag_name t, score t)) new_tags)
        (snd (delete_tags id db1))
  | None => db1
  end.

End Store.

(** * Sample data *)

Module Sample.
Import DatabaseManager.

(** A file system with one folder of pictures; its paths are normalized as
    they are. *)
Definition os : OsPath :=
  {| isdir := fun p => bool_decide (p = "/pics");
     walk := fun p =>
               if bool_decide (p = "/pics")
               then [("/pics", ["a.jpg"; "b.PNG"; "notes.txt"])]
               else [];
     path_join := fun root file => root +:+ "/" +:+ file;
     normpath := fun p => p;
     basename := fun p => p |}.

Definition cat (sc : float) : tag := {| tag_name := "cat"; score := sc |}.
Definition hat (sc : float) : tag := {| tag_name := "hat"; score := sc |}.

(** A tagging model that finds a cat in every image. *)
Definition tagger : TagProcessor :=
  {| process_image := fun p => Return (p, [cat 0.75]) |}.

(** No fault, and midnight on every clock. *)
Definition quiet : ScanEngine.oracle :=
  {| ScanEngine.paths_fault := None;
     ScanEngine.save_fault := fun _ => None;
     ScanEngine.clock := fun _ => "2024-01-01T00:00:00" |}.

(** One image with two tags. *)
Definition one_image : database :=
  {| images := [{| IMAGES.image_id := 1; IMAGES.file_path := "/pics/a.jpg";
                   IMAGES.date_scanned := "2023-12-31T00:00:00";
                   IMAGES.is_favorite := 0 |}];
     tags := [{| TAGS.tag_id := 1; TAGS.image_id := 1;
                 TAGS.tag_name := "cat"; TAGS.score := 0.75 |};
              {| TAGS.tag_id := 2; TAGS.image_id := 1;
                 TAGS.tag_name := "hat"; TAGS.score := 0.25 |}];
     images_seq := 1;
     tags_seq := 2 |}.

(** One image without tags. *)
Definition tagless : database :=
  {| images := [{| IMAGES.image_id := 1; IMAGES.file_path := "/pics/a.jpg";
                   IMAGES.date_scanned := "2023-12-31T00:00:00";
                   IMAGES.is_favorite := 0 |}];
     tags := [];
     images_seq := 1;
     tags_seq := 0 |}.

(** One favorite image whose only tag has a low score. *)
Definition low_favorite : database :=
  {| images := [{| IMAGES.image_id := 1; IMAGES.file_path := "/pics/b.png";
                   IMAGES.date_scanned := "2023-12-31T00:00:00";
                   IMAGES.is_favorite := 1 |}];
     tags := [{| TAGS.tag_id := 1; TAGS.image_id := 1;
                 TAGS.tag_name := "cat"; TAGS.score := 0.25 |}];
     images_seq := 1;
     tags_seq := 1 |}.

(** One image indexed from another folder. *)
Definition elsewhere : database :=
  {| images := [{| IMAGES.image_id := 1; IMAGES.file_path := "/other/x.jpg";
                   IMAGES.date_scanned := "2023-12-31T00:00:00";
                   IMAGES.is_favorite := 0 |}];
     tags := [{| TAGS.tag_id := 1; TAGS.image_id := 1;
                 TAGS.tag_name := "cat"; TAGS.score := 0.75 |}];
     images_seq := 1;
     tags_seq := 1 |}.

(** An idle engine that has scanned five files of [/old] before. *)
Definition idle_after_scan (db : database) : ScanEngine.engine :=
  {| ScanEngine.status_of :=
       {| ScanEngine.is_scanning := false; ScanEngine.total_files := 5;
          ScanEngine.files_processed := 5; ScanEngine.progress_percent := 100;
          ScanEngine.folder := "/old" |};
     ScanEngine.db_manager := db |}.

(** A new engine. *)
Definition fresh (db : database) : ScanEngine.engine :=
  {| ScanEngine.status_of := ScanEngine.initial_status;
     ScanEngine.db_manager := db |}.

(** [str.lower()] on texts of ASCII characters. *)
Definition casing : CaseMapping := {| str_lower := PyStr.lower |}.

(** A sheet with two terms for one tag. *)
Definition two_terms_one_tag : list (option string * option string) :=
  [(Some "cat", Some "mao"); (Some "cat", Some "miao")].

(** A sheet with two tags for one term. *)
Definition two_tags_one_term : list (option string * option string) :=
  [(Some "cat", Some "mao"); (Some "kitty", Some "mao")].

(** A sheet with three rows, one of them without a term. *)
Definition sheet : list (option string * option string) :=
  [(Some " Cat ", Some "mao"); (Some "dog", None); (Some "hat", Some "maozi")].

End Sample.

(** * More of the code *)

(** ** database_manager.py: [search_images] *)

Module DatabaseSearch.
Import DatabaseManager.

(** [WHERE T1.tag_name IN (...) AND T1.score >= ?] *)
Definition wanted (search_tags : list string) (min_score : float)
    (row : joined) : bool :=
  bool_decide (j_tag_name row ∈ search_tags) &&
  PrimFloat.leb min_score (j_score row).

(** [ORDER BY T1.image_id, T1.tag_name]: [a] may come before [b]. Text
    compares byte by byte. *)
Definition before_name (a b : joined) : bool :=
  (j_image_id a <? j_image_id b) ||
  ((j_image_id a =? j_image_id b) && String.leb (j_tag_name a) (j_tag_name b)).

Fixpoint insert_by (le : joined -> joined -> bool) (a : joined)
    (l : list joined) : list joined :=
  match l with
  | [] => [a]
  | b :: l' => if le a b then a :: l else b :: insert_by le a l'
  end.

Definition sort_by (le : joined -> joined -> bool) (l : list joined)
    : list joined :=
  foldr (insert_by le) [] l.

(** The query of [search_images] and [fetchall()]. *)
Definition select_matching (search_tags : list string) (min_score : float)
    (db : database) : list joined * database :=
  (sort_by before_name
     (List.filter (wanted search_tags min_score) (inner_join db)), db).

(** [search_images(search_tags, min_score)]: the images with a tag of the
    list whose score reaches the minimum, each with those tags; the empty
    list for no tags and on [sqlite3.Error]. *)
Definition search_images (flt : option nat) (search_tags : list string)
    (min_score : float) (db : database) : list image :=
  if negb (nonempty search_tags) then []
  else
    match _get_connection flt db with
    | None => []
    | Some conn =>
        match execute (select_matching search_tags min_score) conn with
        | Done results _ => PyDict.values (fold_left add_row results [])
        | _ => []
        end
    end.

End DatabaseSearch.

(** ** tag_processor.py *)

(** What [TagProcessor] takes from outside: [os.path.exists], the scores
    the loaded model predicts for a preprocessed image ([None] when the
    preprocessing or the prediction fails) and [round(score, 4)]. *)
Class Keras := {
  exists_file : string -> bool;
  predict : string -> option (list float);
  round4 : float -> float
}.

Module TagProcessorModel.
Import DatabaseManager.

(** A processor that [__init__] accepted: the threshold and the labels of
    [tags.txt]; the model is loaded. *)
Record processor := {
  threshold : float;
  labels : list string
}.

Section Methods.
Context `{Keras}.

(** [_perform_danbooru_prediction]: the labels with their scores, or nothing
    when the prediction fails or has another length than the labels. *)
Definition _perform_danbooru_prediction (self : processor)
    (image_path : string) : list (string * float) :=
  match predict image_path with
  | None => []
  | Some predictions =>
      if negb (bool_decide (length predictions = length (labels self))) then []
      else zip (labels self) predictions
  end.

(** [process_image]: the path and the tags whose score reaches the
    threshold, with the score rounded. *)
Definition process_image (self : processor) (image_path : string)
    : string * list tag :=
  if negb (exists_file image_path) then (image_path, [])
  else
    let raw_predictions := _perform_danbooru_prediction self image_path in
    (image_path,
     map (fun prediction =>
            {| tag_name := fst prediction; score := round4 (snd prediction) |})
         (List.filter
            (fun prediction => PrimFloat.leb (threshold self) (snd prediction))
            raw_predictions)).

(** The processor as the scan engine sees it. *)
Definition as_processor (self : processor) : TagProcessor :=
  Build_TagProcessor (fun image_path => Return (process_image self image_path)).

End Methods.

End TagProcessorModel.

(** ** app.py: suggestions, rescan of all folders, folder list *)

Module AppGlue.
Import DatabaseManager.

(** The status lines of [get_cn_suggestions], by their format string. *)
Inductive suggestion_message : Type :=
| NoMessage
| NoIndexedTags
| SuggestionsFound (n : nat) (cn_partial_input : string)
| NoSuggestion (cn_partial_input : string).

(** What [get_cn_suggestions] returns: the choices of the drop-down, whether
    it is shown, and the status line. *)
Record suggestions := {
  choices : list string;
  visible : bool;
  status_line : suggestion_message
}.

(** [get_cn_suggestions(cn_partial_input)] *)
Definition get_cn_suggestions (dict : DictionaryManager.dictionary)
    (flt : option nat) (db : database) (cn_partial_input : string)
    : suggestions :=
  let cn_partial_input := PyStr.strip cn_partial_input in
  if negb (PyStr.truthy cn_partial_input)
  then {| choices := []; visible := false; status_line := NoMessage |}
  else
    let allowed_en_tags := get_all_indexed_tags flt db in
    if bool_decide (allowed_en_tags = ∅)
    then {| choices := []; visible := false; status_line := NoIndexedTags |}
    else
      let found :=
        DictionaryManager.fuzzy_lookup_suggestions dict cn_partial_input
          (Some allowed_en_tags) in
      if nonempty found
      then {| choices := found; visible := true;
              status_line := SuggestionsFound (length found) cn_partial_input |}
      else {| choices := []; visible := false;
              status_line := NoSuggestion cn_partial_input |}.

(** What [start_rescan_all_folders_thread] answers. *)
Inductive rescan_message : Type :=
| ScanInProgress
| NoManagedFolder
| RescanStarted (n : nat).

(** What the thread of [scan_all] does besides the scans. *)
Inductive rescan_event : Type :=
| Scanning (folder : string) (trace : list ScanEngine.event)
| SkippedFolder (folder : string).

Section Rescan.
Context `{OsPath} `{TagProcessor}.

(** The loop of [scan_all], one oracle for each folder: a folder that is a
    directory is scanned to the end, not forced, before the next one. *)
Fixpoint scan_all (folders_to_scan : list string)
    (oracles : nat -> ScanEngine.oracle) (i : nat) (engine : ScanEngine.engine)
    : ScanEngine.engine * list rescan_event :=
  match folders_to_scan with
  | [] => (engine, [])
  | folder :: rest =>
      if isdir folder
      then
        let '(engine1, trace) :=
          ScanEngine.start_scan folder None false (oracles i) engine in
        let '(engine2, events) := scan_all rest oracles (S i) engine1 in
        (engine2, Scanning folder trace :: events)
      else
        let '(engine2, events) := scan_all rest oracles (S i) engine in
        (engine2, SkippedFolder folder :: events)
  end.

(** [start_rescan_all_folders_thread], with the thread run to its end. *)
Definition start_rescan_all_folders_thread (allowed_paths : list string)
    (oracles : nat -> ScanEngine.oracle) (engine : ScanEngine.engine)
    : rescan_message * ScanEngine.engine * list rescan_event :=
  if ScanEngine.is_scanning (ScanEngine.get_status engine)
  then (ScanInProgress, engine, [])
  else if negb (nonempty allowed_paths)
  then (NoManagedFolder, engine, [])
  else
    let '(engine', events) := scan_all allowed_paths oracles 0 engine in
    (RescanStarted (length allowed_paths), engine', events).

End Rescan.

(** The traces of the scans of a rescan, in order. *)
Definition scans (events : list rescan_event) : list ScanEngine.event :=
  flat_map (fun e => match e with
                     | Scanning _ trace => trace
                     | SkippedFolder _ => []
                     end) events.

(** What [load_config] finds at [CONFIG_FILE]: no file; a file that cannot
    be read or parsed; JSON that is no dictionary; a dictionary, with the
    list under ['allowed_paths'] ([None]: the key is missing or holds no
    list). *)
Inductive config_source : Type :=
| NoFile
| Unreadable
| NotADictionary
| Dictionary (paths : option (list string)).

(** [LOADED_CONFIG['allowed_paths']] and the list in the configuration file
    ([None]: no file yet). *)
Record config := {
  allowed_paths : list string;
  config_file : option (list string)
}.

(** What the two folder functions answer. *)
Inductive config_message : Type :=
| InvalidFolder (normalized_path : string)
| FolderAdded (normalized_path : string)
| FolderKnown (normalized_path : string)
| NoFolderSelected
| CannotRemoveCwd (cwd : string)
| FolderRemoved (folder : string)
| FolderNotListed (folder : string).

(** [save_config]: the list is written, unless the file cannot be opened for
    writing ([write_ok] is false; the file is then left as it was). *)
Definition save_config (write_ok : bool) (c : config) : config :=
  if write_ok
  then {| allowed_paths := allowed_paths c;
          config_file := Some (allowed_paths c) |}
  else c.

(** [l.remove(x)]: without the first [x] (the callers check that there is
    one). *)
Fixpoint remove_first (x : string) (l : list string) : list string :=
  match l with
  | [] => []
  | y :: l' => if bool_decide (x = y) then l' else y :: remove_first x l'
  end.

Section Config.
Context `{OsPath}.

(** [add_folder_to_config(folder_path)] *)
Definition add_folder_to_config (write_ok : bool) (folder_path : string)
    (c : config) : config_message * config :=
  let normalized_path := normpath folder_path in
  if negb (isdir normalized_path) then (InvalidFolder normalized_path, c)
  else if negb (bool_decide (normalized_path ∈ allowed_paths c))
  then (FolderAdded normalized_path,
        save_config write_ok
          {| allowed_paths := allowed_paths c ++ [normalized_path];
             config_file := config_file c |})
  else (FolderKnown normalized_path, c).

(** [remove_folder_from_config(folder_to_remove)]; [getcwd] is
    [os.getcwd()]. *)
Definition remove_folder_from_config (write_ok : bool) (getcwd : string)
    (folder_to_remove : string) (c : config) : config_message * config :=
  if negb (PyStr.truthy folder_to_remove) then (NoFolderSelected, c)
  else
    let cwd := normpath getcwd in
    if bool_decide (normpath folder_to_remove = cwd)
    then (CannotRemoveCwd cwd, c)
    else if bool_decide (folder_to_remove ∈ allowed_paths c)
    then (FolderRemoved folder_to_remove,
          save_config write_ok
            {| allowed_paths := remove_first folder_to_remove (allowed_paths c);
               config_file := config_file c |})
    else (FolderNotListed folder_to_remove, c).

(** [load_config()] at start-up, by what it finds at [CONFIG_FILE]: the list
    in memory when it returns (what it writes back to the file is left
    out). A list that is read holds strings. *)
Definition load_config (getcwd : string) (source : config_source)
    : list string :=
  let loaded :=
    match source with
    | Dictionary (Some paths) => paths
    | _ => []
    end in
  let cwd := normpath getcwd in
  if negb (bool_decide (cwd ∈ loaded)) then loaded ++ [cwd] else loaded.

End Config.

End AppGlue.

(** ** app.py: the handlers of the gallery *)

(** The text of [f"{score:.2f}"]. *)
Class Format := {
  fixed2 : float -> string
}.

Module Gallery.
Import DatabaseManager.

(** The favorite button, by its label: nothing selected, error, and the
    two labels for a favorite and for an image that is none. *)
Inductive button : Type :=
| NoSelection
| ButtonError
| Favorite (is_fav : bool).

(** What [on_gallery_select] returns: the button, the choices of the tag
    list, whether the list is shown, and the selected item. *)
Record selection := {
  fav_button : button;
  tag_choices : list string;
  tags_visible : bool;
  selected_item : option image
}.

Definition nothing (b : button) : selection :=
  {| fav_button := b; tag_choices := []; tags_visible := false;
     selected_item := None |}.

(** [sorted(tags, key=lambda x: x['score'], reverse=True)]: stable, by
    descending score (for scores that are numbers). *)
Fixpoint insert_desc (a : tag) (l : list tag) : list tag :=
  match l with
  | [] => [a]
  | b :: l' =>
      if PrimFloat.leb (score b) (score a) then a :: l
      else b :: insert_desc a l'
  end.

Definition sorted_tags (l : list tag) : list tag := foldr insert_desc [] l.

Section Handlers.
Context `{OsPath} `{CaseMapping} `{Format}.

(** [display_text] of a tag: with its translation, when it has one. *)
Definition display_text (dict : DictionaryManager.dictionary)
    (tag_info : tag) : string :=
  let en_tag := tag_name tag_info in
  let plain := en_tag +:+ " [" +:+ fixed2 (score tag_info) +:+ "]" in
  match DictionaryManager.lookup_en_to_cn dict en_tag with
  | Some cn_tag =>
      if PyStr.truthy cn_tag
      then cn_tag +:+ " (" +:+ en_tag +:+ ") [" +:+
           fixed2 (score tag_info) +:+ "]"
      else plain
  | None => plain
  end.

(** [on_gallery_select(evt, current_results_state, current_gallery_state)];
    [evt] is the index of the selected entry ([None]: no event). *)
Definition on_gallery_select (dict : DictionaryManager.dictionary)
    (evt : option nat) (current_results_state : list image)
    (current_gallery_state : list (nat * string)) : selection :=
  match evt with
  | None => nothing NoSelection
  | Some selected_index =>
      match PyDict.get selected_index current_gallery_state with
      | None => nothing ButtonError
      | Some selected_path =>
          if negb (PyStr.truthy selected_path) then nothing ButtonError
          else
            match List.find
                    (fun item => bool_decide (file_path item = selected_path))
                    current_results_state with
            | None => nothing ButtonError
            | Some selected_item =>
                {| fav_button := Favorite (is_favorite selected_item);
                   tag_choices :=
                     map (display_text dict)
                         (sorted_tags (tags_of selected_item));
                   tags_visible := true;
                   selected_item := Some selected_item |}
            end
      end
  end.

(** [item['is_favorite'] = new_status] *)
Definition with_favorite (new_status : bool) (item : image) : image :=
  {| image_id := image_id item; file_path := file_path item;
     is_favorite := new_status; tags_of := tags_of item |}.

(** The loop over [current_results_state]: the first entry with the key
    takes the new status. *)
Fixpoint mark_first (id : Z) (new_status : bool) (l : list image)
    : list image :=
  match l with
  | [] => []
  | item :: l' =>
      if bool_decide (image_id item = id)
      then with_favorite new_status item :: l'
      else item :: mark_first id new_status l'
  end.

(** What [on_favorite_button_click] returns. *)
Record click := {
  click_button : button;
  click_results : list image;
  click_item : option image
}.

(** [on_favorite_button_click(current_selected_item,
    current_results_state)]. [toggle_favorite_status] raises nothing, so the
    [except] branch is never taken. The selected item and the entries of
    the state are values here; when the selected item is the very object
    of an entry of the state, the outcome is the same as long as the keys
    of the state are distinct. *)
Definition on_favorite_button_click (flt : option nat)
    (current_selected_item : option image)
    (current_results_state : list image) (db : database)
    : click * database :=
  match current_selected_item with
  | None =>
      ({| click_button := NoSelection;
          click_results := current_results_state;
          click_item := None |}, db)
  | Some selected_item =>
      let image_id := image_id selected_item in
      let '(new_status, db') := toggle_favorite_status flt image_id db in
      ({| click_button := Favorite new_status;
          click_results := mark_first image_id new_status current_results_state;
          click_item := Some (with_favorite new_status selected_item) |}, db')
  end.

(** [s.split(sep)[0]] for a separator of one character: the text before
    the first separator, all of it when there is none. *)
Fixpoint before_char (sep : ascii) (s : string) : string :=
  match s with
  | EmptyString => EmptyString
  | String c s' =>
      if Ascii.eqb c sep then EmptyString else String c (before_char sep s')
  end.

(** [s.split(sep)[1]]: the text between the first separator and the next
    one; [None] is the [IndexError] of a text without separator. *)
Fixpoint second_part (sep : ascii) (s : string) : option string :=
  match s with
  | EmptyString => None
  | String c s' =>
      if Ascii.eqb c sep then Some (before_char sep s')
      else second_part sep s'
  end.

(** The parsing of [on_tag_select_and_search]: [(cn_search, en_search)]. *)
Definition parse_display (selected_tag_display : string) : string * string :=
  if PyStr.contains selected_tag_display "(" &&
     PyStr.contains selected_tag_display ")"
  then
    let cn_search := PyStr.strip (before_char "(" selected_tag_display) in
    match second_part "(" selected_tag_display with
    | Some rest => (cn_search, PyStr.strip (before_char ")" rest))
    | None => (cn_search, PyStr.strip (before_char "[" selected_tag_display))
    end
  else ("", PyStr.strip (before_char "[" selected_tag_display)).

(** What [on_tag_select_and_search] does: nothing, a search with the term
    selected, or a search with the fuzzy term. *)
Inductive tag_search : Type :=
| NothingSelected
| SearchedCn (cn_search : string) (res : App.result)
| SearchedEn (en_search : string) (res : App.result).

(** [on_tag_select_and_search(selected_tag_display, file_name_input,
    show_favorites)] *)
Definition on_tag_select_and_search (dict : DictionaryManager.dictionary)
    (db : database) (flt : App.faults)
    (selected_tag_display file_name_input : string) (show_favorites : bool)
    : tag_search :=
  if negb (PyStr.truthy selected_tag_display) then NothingSelected
  else
    let '(cn_search, en_search) := parse_display selected_tag_display in
    if PyStr.truthy cn_search && DictionaryManager.is_cn_tag dict cn_search
    then SearchedCn cn_search
           (App.search_images_wrapper dict db flt "" (Some cn_search) ""
              file_name_input 0 1 show_favorites)
    else SearchedEn en_search
           (App.search_images_wrapper dict db flt "" None en_search
              file_name_input 0 1 show_favorites).

End Handlers.

(** A sample: every score is shown as 0.75. *)
Definition shown_as_075 : Format := {| fixed2 := fun _ => "0.75" |}.

End Gallery.

(** ** More vocabulary *)

Module Changes.
Import DatabaseManager.

(** Every image row is still there, with its key, path and favorite flag. *)
Definition kept (db db' : database) : Prop :=
  ∀ r, r ∈ images db →
       ∃ r', r' ∈ images db' ∧
             IMAGES.image_id r' = IMAGES.image_id r ∧
             IMAGES.file_path r' = IMAGES.file_path r ∧
             IMAGES.is_favorite r' = IMAGES.is_favorite r.

(** Every image row has a tag row. *)
Definition every_image_tagged (db : database) : Prop :=
  ∀ r, r ∈ images db → ∃ t, t ∈ tags db ∧ TAGS.image_id t = IMAGES.image_id r.

(** The tagging model finds tags in every file of the list. *)
Definition tags_everything `{TagProcessor} (files : list string) : Prop :=
  ∀ p, p ∈ files →
       ∃ q tags_list, process_image p = Return (q, tags_list) ∧
                      nonempty tags_list = true.

End Changes.

(** * Properties *)

(** ** Dictionaries *)

Module PyDictFacts.

Section Facts.
Context {K V : Type} `{EqDecision K}.
Implicit Types (k : K) (v : V) (d : list (K * V)).

Lemma get_set_eq k v d : PyDict.get k (PyDict.set k v d) = Some v.
Proof.
  induction d as [|[k' v'] d IH]; simpl.
  - by rewrite decide_True.
  - destruct (decide (k = k')) as [->|Hne]; simpl.
    + by rewrite decide_True.
    + by rewrite decide_False.
Qed.

Lemma get_set_ne k k' v d :
  k ≠ k' → PyDict.get k' (PyDict.set k v d) = PyDict.get k' d.
Proof.
  intros Hne. induction d as [|[k0 v0] d IH]; simpl.
  - rewrite decide_False; [done | congruence].
  - destruct (decide (k = k0)) as [->|Hk]; simpl.
    + rewrite !decide_False; [done | congruence | congruence].
    + destruct (decide (k' = k0)); [done | apply IH].
Qed.

Lemma mem_get k d : PyDict.mem k d = bool_decide (is_Some (PyDict.get k d)).
Proof.
  induction d as [|[k' v'] d IH]; simpl; [done|].
  by destruct (decide (k = k')).
Qed.

Lemma mem_set_eq k v d : PyDict.mem k (PyDict.set k v d) = true.
Proof.
  rewrite mem_get, get_set_eq. apply bool_decide_eq_true. by eexists.
Qed.

Lemma mem_set_ne k k' v d :
  k ≠ k' → PyDict.mem k' (PyDict.set k v d) = PyDict.mem k' d.
Proof. intros Hne. by rewrite !mem_get, get_set_ne. Qed.

Lemma mem_set_mono k k' v d :
  PyDict.mem k' d = true → PyDict.mem k' (PyDict.set k v d) = true.
Proof.
  intros Hm. destruct (decide (k = k')) as [->|Hne].
  - apply mem_set_eq.
  - by rewrite mem_set_ne.
Qed.

Lemma get_update_eq k f d :
  PyDict.get k (PyDict.update k f d) = f <$> PyDict.get k d.
Proof.
  induction d as [|[k' v'] d IH]; simpl; [done|].
  destruct (decide (k = k')) as [->|Hne]; simpl.
  - by rewrite decide_True.
  - by rewrite decide_False.
Qed.

Lemma get_update_ne k k' f d :
  k ≠ k' → PyDict.get k' (PyDict.update k f d) = PyDict.get k' d.
Proof.
  intros Hne. induction d as [|[k0 v0] d IH]; simpl; [done|].
  destruct (decide (k = k0)) as [->|Hk]; simpl.
  - rewrite !decide_False; [done | congruence | congruence].
  - destruct (decide (k' = k0)); [done | apply IH].
Qed.

Lemma keys_update k f d : PyDict.keys (PyDict.update k f d) = PyDict.keys d.
Proof.
  unfold PyDict.keys. induction d as [|[k' v'] d IH]; simpl; [done|].
  destruct (decide (k = k')); simpl; [done | by rewrite IH].
Qed.

Lemma keys_set_mem k v d :
  PyDict.mem k d = true → PyDict.keys (PyDict.set k v d) = PyDict.keys d.
Proof.
  unfold PyDict.keys. induction d as [|[k' v'] d IH]; simpl; [done|].
  destruct (decide (k = k')); simpl; [done|]. intros Hm. by rewrite IH.
Qed.

Lemma keys_set_new k v d :
  PyDict.mem k d = false → PyDict.keys (PyDict.set k v d) = PyDict.keys d ++ [k].
Proof.
  unfold PyDict.keys. induction d as [|[k' v'] d IH]; simpl; [done|].
  destruct (decide (k = k')); simpl; [done|]. intros Hm. by rewrite IH.
Qed.

Lemma mem_keys k d : PyDict.mem k d = true ↔ k ∈ PyDict.keys d.
Proof.
  unfold PyDict.keys. induction d as [|[k' v'] d IH]; simpl.
  - split; [done | by intros ?%elem_of_nil].
  - rewrite elem_of_cons. destruct (decide (k = k')) as [->|Hne].
    + split; [by left | done].
    + rewrite IH. split; [by right | by intros [?|?]].
Qed.

(** A value of the dictionary is the value of one of its keys. *)
Lemma elem_of_values v d :
  v ∈ PyDict.values d → ∃ k, (k, v) ∈ d.
Proof.
  unfold PyDict.values. intros (kv & -> & Hin)%list_elem_of_fmap.
  exists kv.1. by destruct kv.
Qed.

(** Without repeated keys, every pair of the dictionary is what [get] finds. *)
Lemma get_elem_of k v d :
  NoDup (PyDict.keys d) → (k, v) ∈ d → PyDict.get k d = Some v.
Proof.
  unfold PyDict.keys. induction d as [|[k' v'] d IH]; simpl.
  - by intros _ ?%elem_of_nil.
  - intros [Hnotin Hnd]%NoDup_cons [Heq|Hin]%elem_of_cons.
    + injection Heq as -> ->. by rewrite decide_True.
    + destruct (decide (k = k')) as [->|Hne]; [|by apply IH].
      exfalso. apply Hnotin. apply list_elem_of_fmap. by exists (k', v).
Qed.

Lemma elem_of_get k v d : PyDict.get k d = Some v → (k, v) ∈ d.
Proof.
  induction d as [|[k' v'] d IH]; simpl; [done|].
  destruct (decide (k = k')) as [->|Hne].
  - intros [= ->]. apply elem_of_cons. by left.
  - intros Hg. apply elem_of_cons. right. by apply IH.
Qed.

End Facts.

End PyDictFacts.

(** ** The tag dictionary *)

Module DictionaryFacts.
Import DictionaryManager.

(** Later entries with other terms leave the tag of a term alone. *)
Lemma fold_keeps_cn term l maps :
  term ∉ l.*1 →
  PyDict.get term (fst (fold_left load_entry l maps)) = PyDict.get term (fst maps).
Proof.
  revert maps. induction l as [|[cn en] l IH]; intros maps Hnotin; [done|].
  simpl in *. apply not_elem_of_cons in Hnotin as [Hne Hnotin].
  rewrite IH by done. simpl. by apply PyDictFacts.get_set_ne.
Qed.

(** Later entries with other tags leave the term of a tag alone. *)
Lemma fold_keeps_en tag l maps :
  tag ∉ l.*2 →
  PyDict.get tag (snd (fold_left load_entry l maps)) = PyDict.get tag (snd maps).
Proof.
  revert maps. induction l as [|[cn en] l IH]; intros maps Hnotin; [done|].
  simpl in *. apply not_elem_of_cons in Hnotin as [Hne Hnotin].
  rewrite IH by done. simpl. by apply PyDictFacts.get_set_ne.
Qed.

(** A term stays a key once it is one. *)
Lemma fold_keeps_key term l maps :
  PyDict.mem term (fst maps) = true →
  PyDict.mem term (fst (fold_left load_entry l maps)) = true.
Proof.
  revert maps. induction l as [|[cn en] l IH]; intros maps Hm; [done|].
  simpl. apply IH. simpl. by apply PyDictFacts.mem_set_mono.
Qed.

(** The last entry of a term decides its tag. *)
Lemma load_last_cn l1 term tag l2 :
  term ∉ l2.*1 →
  PyDict.get term (fst (load_entries (l1 ++ (term, tag) :: l2))) = Some tag.
Proof.
  intros Hlast. unfold load_entries. rewrite fold_left_app. simpl.
  rewrite fold_keeps_cn by done. simpl. apply PyDictFacts.get_set_eq.
Qed.

(** The last entry of a tag decides its term. *)
Lemma load_last_en l1 term tag l2 :
  tag ∉ l2.*2 →
  PyDict.get tag (snd (load_entries (l1 ++ (term, tag) :: l2))) = Some term.
Proof.
  intros Hlast. unfold load_entries. rewrite fold_left_app. simpl.
  rewrite fold_keeps_en by done. simpl. apply PyDictFacts.get_set_eq.
Qed.

(** Every loaded term is a key. *)
Lemma load_key l1 term tag l2 :
  PyDict.mem term (fst (load_entries (l1 ++ (term, tag) :: l2))) = true.
Proof.
  unfold load_entries. rewrite fold_left_app. simpl.
  apply fold_keeps_key. simpl. apply PyDictFacts.mem_set_eq.
Qed.

(** Resolving one term gives its tag, unless the tag is empty. *)
Lemma resolve_one self term :
  get_search_tags_from_cn_list self [term] =
  match PyDict.get term (_cn_to_en_tag self) with
  | Some en_tag => if PyStr.truthy en_tag then [en_tag] else []
  | None => []
  end.
Proof.
  unfold get_search_tags_from_cn_list, final_en_tags. simpl.
  destruct (PyDict.get term (_cn_to_en_tag self)) as [en|].
  - destruct (PyStr.truthy en).
    + by rewrite (left_id_L ∅ (∪)), elements_singleton.
    + apply elements_empty.
  - apply elements_empty.
Qed.

End DictionaryFacts.

(** ** Connections and transactions *)

Module ConnectionFacts.
Import DatabaseManager.

(** A statement that does not raise changes the pending database only. *)
Lemma execute_done {A} (stmt : database -> A * database) c a c' :
  execute stmt c = Done a c' →
  a = fst (stmt (pending c)) ∧ pending c' = snd (stmt (pending c)) ∧
  committed c' = committed c ∧ fault c' = fault c.
Proof.
  unfold execute. destruct (faulty c); [done|].
  destruct (stmt (pending c)) as [a0 db0]. by intros [= <- <-].
Qed.

(** A statement that raises leaves what is committed. *)
Lemma execute_error {A} (stmt : database -> A * database) c c' :
  execute stmt c = SqliteError c' → committed c' = committed c.
Proof.
  unfold execute. destruct (faulty c).
  - by intros [= <-].
  - by destruct (stmt (pending c)).
Qed.

Lemma execute_other {A} (stmt : database -> A * database) c c' :
  execute stmt c ≠ OtherError c'.
Proof.
  unfold execute. destruct (faulty c); [done|]. by destruct (stmt (pending c)).
Qed.

Lemma executemany_done {X} (stmt : X -> database -> unit * database) rows :
  ∀ c u c',
    executemany stmt rows c = Done u c' →
    pending c' = fold_left (fun d x => snd (stmt x d)) rows (pending c) ∧
    committed c' = committed c ∧ fault c' = fault c.
Proof.
  induction rows as [|x rows IH]; intros c u c'; simpl.
  - unfold ret. by intros [= _ <-].
  - unfold bind. destruct (execute (stmt x) c) as [a c1| |] eqn:Hx; [|done..].
    intros Hrest. apply execute_done in Hx as (_ & Hp & Hc & Hf).
    apply IH in Hrest as (Hp' & Hc' & Hf'). rewrite Hp', Hc', Hf', Hp. done.
Qed.

Lemma executemany_error {X} (stmt : X -> database -> unit * database) rows :
  ∀ c c', executemany stmt rows c = SqliteError c' → committed c' = committed c.
Proof.
  induction rows as [|x rows IH]; intros c c'; simpl; [done|].
  unfold bind. destruct (execute (stmt x) c) as [a c1|c1|] eqn:Hx; [| |done].
  - intros Hrest. apply execute_done in Hx as (_ & _ & Hc & _).
    apply IH in Hrest. congruence.
  - intros [= <-]. by apply execute_error in Hx.
Qed.

Lemma executemany_other {X} (stmt : X -> database -> unit * database) rows :
  ∀ c c', executemany stmt rows c ≠ OtherError c'.
Proof.
  induction rows as [|x rows IH]; intros c c'; simpl; [done|].
  unfold bind. destruct (execute (stmt x) c) as [a c1|c1|c1] eqn:Hx; [|done|].
  - apply IH.
  - by apply execute_other in Hx.
Qed.

Lemma commit_done c u c' :
  commit c = Done u c' → committed c' = pending c.
Proof. unfold commit. destruct (faulty c); [done|]. by intros [= _ <-]. Qed.

Lemma commit_error c c' :
  commit c = SqliteError c' → committed c' = committed c.
Proof. unfold commit. destruct (faulty c); [|done]. by intros [= <-]. Qed.

Lemma commit_other c c' : commit c ≠ OtherError c'.
Proof. unfold commit. by destruct (faulty c). Qed.

Lemma connection_fresh flt db conn :
  _get_connection flt db = Some conn →
  committed conn = db ∧ pending conn = db ∧ fault conn = flt.
Proof.
  unfold _get_connection. destruct (bool_decide _); [done|]. by intros [= <-].
Qed.

End ConnectionFacts.

(** ** Rows and keys *)

Module RowFacts.

Section Keys.
Context {A B : Type} `{EqDecision B} (f : A → B).

(** No row has a key that no row has. *)
Lemma filter_key_nil k l :
  k ∉ map f l → List.filter (fun r => bool_decide (f r = k)) l = [].
Proof.
  induction l as [|r l IH]; simpl; [done|].
  intros [Hne Hnotin]%not_elem_of_cons.
  rewrite bool_decide_eq_false_2 by done. by apply IH.
Qed.

(** With a unique key, the rows of a key are one row. *)
Lemma filter_key_unique r l :
  NoDup (map f l) → r ∈ l →
  List.filter (fun x => bool_decide (f x = f r)) l = [r].
Proof.
  induction l as [|x l IH]; simpl.
  - by intros _ ?%elem_of_nil.
  - intros [Hnotin Hnd]%NoDup_cons [->|Hin]%elem_of_cons.
    + rewrite bool_decide_eq_true_2 by done. f_equal.
      by apply filter_key_nil.
    + rewrite bool_decide_eq_false_2; [by apply IH|].
      intros Heq. apply Hnotin. rewrite Heq.
      apply list_elem_of_fmap. by exists r.
Qed.

(** With a unique key, two rows with the same key are one row. *)
Lemma key_inj r r' l :
  NoDup (map f l) → r ∈ l → r' ∈ l → f r' = f r → r' = r.
Proof.
  intros Hnd Hr Hr' Heq.
  assert (Hin : r' ∈ List.filter (fun x => bool_decide (f x = f r)) l).
  { apply list_elem_of_In, filter_In. rewrite <- list_elem_of_In.
    split; [done|]. by apply bool_decide_eq_true. }
  rewrite filter_key_unique in Hin by done.
  by apply list_elem_of_singleton in Hin.
Qed.

Lemma existsb_key k l :
  existsb (fun r => bool_decide (f r = k)) l = bool_decide (k ∈ map f l).
Proof.
  induction l as [|r l IH]; simpl; [done|]. rewrite IH.
  destruct (decide (f r = k)) as [<-|Hne].
  - rewrite bool_decide_eq_true_2 by done. simpl. symmetry.
    apply bool_decide_eq_true_2. by left.
  - rewrite bool_decide_eq_false_2 by done. simpl.
    apply bool_decide_ext. rewrite elem_of_cons.
    split; [by right | by intros [?|?]].
Qed.

End Keys.

Lemma filter_fmap {A B} (p : B → bool) (g : A → B) l :
  List.filter p (map g l) = map g (List.filter (fun x => p (g x)) l).
Proof.
  induction l as [|x l IH]; simpl; [done|].
  destruct (p (g x)); simpl; by rewrite IH.
Qed.

Lemma filter_filter_negb {A} (p : A → bool) l :
  List.filter p (List.filter (fun x => negb (p x)) l) = [].
Proof.
  induction l as [|x l IH]; simpl; [done|].
  destruct (p x) eqn:Hp; simpl; [done|]. by rewrite Hp.
Qed.

Lemma elem_of_filter {A} (p : A → bool) x l :
  x ∈ List.filter p l ↔ x ∈ l ∧ p x = true.
Proof. rewrite !list_elem_of_In. apply filter_In. Qed.

Lemma foldr_max_ge seq ids x : x ∈ ids → x ≤ foldr Z.max seq ids.
Proof.
  induction ids as [|y ids IH]; simpl.
  - by intros ?%elem_of_nil.
  - intros [->|Hin]%elem_of_cons; [lia|]. apply IH in Hin. lia.
Qed.

(** A new [AUTOINCREMENT] key is the key of no row. *)
Lemma next_rowid_fresh seq ids :
  DatabaseManager.next_rowid seq ids ∉ ids.
Proof.
  unfold DatabaseManager.next_rowid. intros Hin.
  apply (foldr_max_ge seq) in Hin. lia.
Qed.

End RowFacts.

(** ** Saving tags *)

Module SaveFacts.
Import DatabaseManager Store.

Lemma touched_path p now r : IMAGES.file_path (touched p now r) = IMAGES.file_path r.
Proof. unfold touched. by destruct (has_path p r). Qed.

Lemma touched_id p now r : IMAGES.image_id (touched p now r) = IMAGES.image_id r.
Proof. unfold touched. by destruct (has_path p r). Qed.

Lemma touched_favorite p now r :
  IMAGES.is_favorite (touched p now r) = IMAGES.is_favorite r.
Proof. unfold touched. by destruct (has_path p r). Qed.

Lemma touched_paths p now l :
  map IMAGES.file_path (map (touched p now) l) = map IMAGES.file_path l.
Proof.
  induction l as [|r l IH]; simpl; [done|]. by rewrite touched_path, IH.
Qed.

Lemma touched_ids p now l :
  map IMAGES.image_id (map (touched p now) l) = map IMAGES.image_id l.
Proof.
  induction l as [|r l IH]; simpl; [done|]. by rewrite touched_id, IH.
Qed.

(** The upsert either refreshes the rows of the path or appends a row with a
    new key. *)
Lemma upsert_images p now db :
  images (snd (upsert_image p now db)) =
  if bool_decide (p ∈ map IMAGES.file_path (images db))
  then map (touched p now) (images db)
  else images db ++
       [{| IMAGES.image_id :=
             next_rowid (images_seq db) (map IMAGES.image_id (images db));
           IMAGES.file_path := p; IMAGES.date_scanned := now;
           IMAGES.is_favorite := 0 |}].
Proof.
  unfold upsert_image, has_path.
  rewrite (RowFacts.existsb_key IMAGES.file_path).
  by destruct (bool_decide (p ∈ map IMAGES.file_path (images db))).
Qed.

(** The upsert keeps the store well formed. *)
Lemma upsert_well_formed p now db :
  well_formed db → well_formed (snd (upsert_image p now db)).
Proof.
  intros (Hpaths & Hids & Hfav). unfold well_formed.
  rewrite upsert_images. case_bool_decide as Hin.
  - rewrite touched_paths, touched_ids. split_and!; [done..|].
    apply Forall_fmap. eapply Forall_impl; [exact Hfav|].
    intros r Hr. simpl. by rewrite touched_favorite.
  - rewrite !fmap_app. simpl. split_and!.
    + apply NoDup_app. split_and!; [done| |apply NoDup_singleton].
      intros x Hx ->%list_elem_of_singleton. done.
    + apply NoDup_app. split_and!; [done| |apply NoDup_singleton].
      intros x Hx ->%list_elem_of_singleton.
      by apply RowFacts.next_rowid_fresh in Hx.
    + apply Forall_app. split; [done|]. apply Forall_singleton. by left.
Qed.

(** After the upsert, the path has exactly one row. *)
Lemma upsert_row p now db :
  NoDup (map IMAGES.file_path (images db)) →
  ∃ r, List.filter (has_path p) (images (snd (upsert_image p now db))) = [r] ∧
       IMAGES.file_path r = p.
Proof.
  intros Hnd. rewrite upsert_images. case_bool_decide as Hin.
  - apply list_elem_of_fmap in Hin as (r & -> & Hr).
    exists (touched (IMAGES.file_path r) now r). split; [|apply touched_path].
    rewrite RowFacts.filter_fmap.
    rewrite (filter_ext _ (has_path (IMAGES.file_path r))).
    + unfold has_path. by rewrite (RowFacts.filter_key_unique IMAGES.file_path).
    + intros x. unfold has_path. by rewrite touched_path.
  - exists {| IMAGES.image_id :=
                next_rowid (images_seq db) (map IMAGES.image_id (images db));
              IMAGES.file_path := p; IMAGES.date_scanned := now;
              IMAGES.is_favorite := 0 |}.
    split; [|reflexivity]. rewrite List.filter_app. simpl.
    unfold has_path at 2. simpl. rewrite bool_decide_eq_true_2 by done.
    unfold has_path. by rewrite (RowFacts.filter_key_nil IMAGES.file_path).
Qed.

(** After the upsert, the path has a row: [fetchone()] finds it. *)
Lemma select_after_upsert p now db :
  is_Some (fst (select_image_id p (snd (upsert_image p now db)))).
Proof.
  unfold select_image_id. simpl. rewrite upsert_images. case_bool_decide as Hin.
  - apply list_elem_of_fmap in Hin as (r & -> & Hr).
    apply list_elem_of_In, (in_map (touched (IMAGES.file_path r) now)) in Hr.
    assert (Hf : In (touched (IMAGES.file_path r) now r)
                   (List.filter (has_path (IMAGES.file_path r))
                      (map (touched (IMAGES.file_path r) now) (images db)))).
    { apply filter_In. split; [done|]. unfold has_path.
      rewrite touched_path. by apply bool_decide_eq_true_2. }
    destruct (List.filter _ _) as [|x l]; [done|]. simpl. by eexists.
  - rewrite List.filter_app. simpl. unfold has_path at 2. simpl.
    rewrite bool_decide_eq_true_2 by done.
    destruct (List.filter _ _); simpl; by eexists.
Qed.

Lemma insert_fold_images rows d :
  images (fold_left (fun d row => snd (insert_tag row d)) rows d) = images d.
Proof.
  revert d. induction rows as [|[[id name] sc] rows IH]; intros d; [done|].
  simpl. by rewrite IH.
Qed.

(** The inserted rows are the tags of the image, after those it had. *)
Lemma insert_fold_tags id new_tags d :
  map to_tag
    (List.filter (tagged_with id)
       (tags (fold_left (fun d row => snd (insert_tag row d))
                (map (fun t => (id, tag_name t, score t)) new_tags) d))) =
  map to_tag (List.filter (tagged_with id) (tags d)) ++ new_tags.
Proof.
  revert d. induction new_tags as [|t new_tags IH]; intros d; simpl.
  - by rewrite app_nil_r.
  - rewrite IH. simpl. rewrite List.filter_app, map_app. simpl.
    unfold tagged_with at 2. simpl. rewrite bool_decide_eq_true_2 by done.
    simpl. rewrite <- app_assoc. simpl. by destruct t.
Qed.

Lemma replaced_images p now new_tags db :
  images (replaced p now new_tags db) = images (snd (upsert_image p now db)).
Proof.
  unfold replaced. destruct (fst (select_image_id _ _)); [|done].
  by rewrite insert_fold_images.
Qed.

Lemma replaced_selected p now new_tags db r :
  List.filter (has_path p) (images (snd (upsert_image p now db))) = [r] →
  replaced p now new_tags db =
  fold_left (fun d row => snd (insert_tag row d))
    (map (fun t => (IMAGES.image_id r, tag_name t, score t)) new_tags)
    (snd (delete_tags (IMAGES.image_id r) (snd (upsert_image p now db)))).
Proof.
  intros Hr. unfold replaced, select_image_id. cbn [fst]. by rewrite Hr.
Qed.

(** A committed save leaves exactly the new tags on the path. *)
Lemma stored_after_replaced p now new_tags db :
  NoDup (map IMAGES.file_path (images db)) →
  stored_tags (replaced p now new_tags db) p = new_tags.
Proof.
  intros Hnd. unfold stored_tags. rewrite replaced_images.
  destruct (upsert_row p now db Hnd) as (r & Hr & Hp).
  rewrite Hr. simpl. rewrite app_nil_r.
  rewrite (replaced_selected p now new_tags db r Hr), insert_fold_tags.
  unfold delete_tags. cbn [snd tags].
  by rewrite (RowFacts.filter_filter_negb (tagged_with (IMAGES.image_id r))).
Qed.

(** A committed save keeps the store well formed. *)
Lemma replaced_well_formed p now new_tags db :
  well_formed db → well_formed (replaced p now new_tags db).
Proof.
  intros Hwf. apply (upsert_well_formed p now) in Hwf.
  unfold well_formed in *. by rewrite replaced_images.
Qed.

Section Transaction.
Context `{OsPath}.

(** The transaction commits the replacement, or fails with nothing new
    committed; [fetchone()] always finds the row. *)
Lemma save_tags_transaction_outcome file_path now new_tags c :
  match save_tags_transaction file_path now new_tags c with
  | Done b c' =>
      b = true ∧
      committed c' = replaced (normpath file_path) now new_tags (pending c)
  | SqliteError c' => committed c' = committed c
  | OtherError c' => False
  end.
Proof.
  unfold save_tags_transaction, bind.
  destruct (execute _ c) as [u1 c1|c1|c1] eqn:H1;
    [|by apply ConnectionFacts.execute_error in H1|by apply ConnectionFacts.execute_other in H1].
  apply ConnectionFacts.execute_done in H1 as (_ & Hp1 & Hc1 & _).
  simpl in Hp1.
  destruct (execute _ c1) as [u2 c2|c2|c2] eqn:H2;
    [|apply ConnectionFacts.execute_error in H2; congruence
     |by apply ConnectionFacts.execute_other in H2].
  apply ConnectionFacts.execute_done in H2 as (_ & Hp2 & Hc2 & _).
  destruct (execute _ c2) as [found c3|c3|c3] eqn:H3;
    [|apply ConnectionFacts.execute_error in H3; congruence
     |by apply ConnectionFacts.execute_other in H3].
  apply ConnectionFacts.execute_done in H3 as (Hfound & Hp3 & Hc3 & _).
  simpl in Hp3.
  destruct (select_after_upsert (normpath file_path) now (pending c1))
    as [id Hid].
  rewrite <- Hp2, <- Hfound in Hid. rewrite Hid.
  destruct (execute _ c3) as [u4 c4|c4|c4] eqn:H4;
    [|apply ConnectionFacts.execute_error in H4; congruence
     |by apply ConnectionFacts.execute_other in H4].
  apply ConnectionFacts.execute_done in H4 as (_ & Hp4 & Hc4 & _).
  destruct (executemany _ _ c4) as [u5 c5|c5|c5] eqn:H5;
    [|apply ConnectionFacts.executemany_error in H5; congruence
     |by apply ConnectionFacts.executemany_other in H5].
  apply ConnectionFacts.executemany_done in H5 as (Hp5 & Hc5 & _).
  destruct (commit c5) as [u6 c6|c6|c6] eqn:H6;
    [|apply ConnectionFacts.commit_error in H6; congruence
     |by apply ConnectionFacts.commit_other in H6].
  apply ConnectionFacts.commit_done in H6. unfold ret. split; [done|].
  rewrite H6, Hp5, Hp4, Hp3. rewrite Hfound, Hp2, Hp1 in Hid.
  rewrite Hp2, Hp1. unfold replaced. by rewrite Hid.
Qed.

(** [save_tags_to_db] returns [True] with the replacement committed, or
    [False] with the database as it was; it raises nothing. *)
Lemma save_tags_to_db_outcome flt now file_path new_tags db :
  save_tags_to_db flt now file_path new_tags db =
    (Return true, replaced (normpath file_path) now new_tags db) ∨
  save_tags_to_db flt now file_path new_tags db = (Return false, db).
Proof.
  unfold save_tags_to_db.
  destruct (_get_connection flt db) as [conn|] eqn:Hconn; [|by right].
  apply ConnectionFacts.connection_fresh in Hconn as (Hc & Hp & _).
  pose proof (save_tags_transaction_outcome file_path now new_tags conn) as Hout.
  destruct (save_tags_transaction _ _ _ conn) as [b c|c|c].
  - destruct Hout as [-> Hout]. left. unfold close. by rewrite Hout, Hp.
  - right. unfold close, rollback. simpl. by rewrite Hout, Hc.
  - done.
Qed.

End Transaction.

End SaveFacts.

(** ** Listing the images *)

Module ListingFacts.
Import DatabaseManager Store.

(** Sorting moves rows, it neither adds nor drops any. *)
Lemma insert_sorted_perm a l : insert_sorted a l ≡ₚ a :: l.
Proof.
  induction l as [|b l IH]; simpl; [done|].
  destruct (before a b); [done|]. rewrite IH. apply Permutation_swap.
Qed.

Lemma order_by_perm l : order_by l ≡ₚ l.
Proof.
  unfold order_by. induction l as [|a l IH]; simpl; [done|].
  by rewrite insert_sorted_perm, IH.
Qed.

Lemma elem_of_order_by x l : x ∈ order_by l ↔ x ∈ l.
Proof. by rewrite order_by_perm. Qed.

(** The rows of the join are the pairs of a tag row and an image row with
    the same image key. *)
Lemma elem_of_inner_join row db :
  row ∈ inner_join db ↔
  ∃ t r, t ∈ tags db ∧ r ∈ images db ∧
         IMAGES.image_id r = TAGS.image_id t ∧ row = join_row t r.
Proof.
  unfold inner_join. rewrite list_elem_of_In, in_flat_map. split.
  - intros (t & Ht & Hrow). apply in_map_iff in Hrow as (r & <- & Hr).
    apply filter_In in Hr as [Hr Hid]. apply bool_decide_eq_true in Hid.
    exists t, r. by rewrite !list_elem_of_In.
  - intros (t & r & Ht & Hr & Hid & ->). exists t.
    rewrite <- list_elem_of_In. split; [done|].
    apply in_map_iff. exists r. split; [done|]. apply filter_In.
    rewrite <- list_elem_of_In. split; [done|]. by apply bool_decide_eq_true.
Qed.

Lemma tags_for_snoc_eq row done :
  tags_for (j_image_id row) (done ++ [row]) =
  tags_for (j_image_id row) done ++ [row_tag row].
Proof.
  unfold tags_for. rewrite List.filter_app, map_app. simpl.
  by rewrite bool_decide_eq_true_2.
Qed.

Lemma tags_for_snoc_ne k row done :
  j_image_id row ≠ k → tags_for k (done ++ [row]) = tags_for k done.
Proof.
  intros Hne. unfold tags_for. rewrite List.filter_app, map_app. simpl.
  rewrite bool_decide_eq_false_2 by done. by rewrite app_nil_r.
Qed.

Lemma tags_for_none k done :
  (∀ row, row ∈ done → j_image_id row ≠ k) → tags_for k done = [].
Proof.
  intros Hnone. unfold tags_for.
  rewrite (RowFacts.filter_key_nil j_image_id); [done|].
  intros (row & -> & Hrow)%list_elem_of_fmap. by apply (Hnone row).
Qed.

Section Grouping.
Context `{OsPath}.

Lemma grouped_step d done row :
  grouped d done → grouped (add_row d row) (done ++ [row]).
Proof.
  intros [Hnd Hget]. unfold add_row.
  destruct (PyDict.mem (j_image_id row) d) eqn:Hmem.
  - split; [by rewrite PyDictFacts.keys_update|].
    intros k. destruct (decide (j_image_id row = k)) as [<-|Hne].
    + rewrite PyDictFacts.get_update_eq.
      specialize (Hget (j_image_id row)).
      rewrite PyDictFacts.mem_get in Hmem.
      apply bool_decide_eq_true in Hmem as [item Hitem].
      rewrite Hitem in Hget |- *. simpl.
      destruct Hget as (Hid & Htags & r0 & Hr0 & Hk & Hp & Hf).
      split_and!; [done|by rewrite tags_for_snoc_eq, Htags|].
      exists r0. split_and!; [|done..]. apply elem_of_app. by left.
    + rewrite PyDictFacts.get_update_ne by done.
      specialize (Hget k). destruct (PyDict.get k d) as [item|].
      * destruct Hget as (Hid & Htags & r0 & Hr0 & Hk & Hp & Hf).
        split_and!; [done|by rewrite tags_for_snoc_ne|].
        exists r0. split_and!; [|done..]. apply elem_of_app. by left.
      * intros r0 [Hr0| ->%list_elem_of_singleton]%elem_of_app; [|done].
        by apply Hget.
  - split.
    + rewrite PyDictFacts.keys_update, PyDictFacts.keys_set_new by done.
      apply NoDup_app. split_and!; [done| |apply NoDup_singleton].
      intros k Hk ->%list_elem_of_singleton.
      apply PyDictFacts.mem_keys in Hk. congruence.
    + intros k. destruct (decide (j_image_id row = k)) as [<-|Hne].
      * rewrite PyDictFacts.get_update_eq, PyDictFacts.get_set_eq. simpl.
        specialize (Hget (j_image_id row)).
        rewrite PyDictFacts.mem_get in Hmem.
        apply bool_decide_eq_false in Hmem.
        destruct (PyDict.get (j_image_id row) d) as [item|] eqn:Hitem.
        { exfalso. apply Hmem. by eexists. }
        split_and!; [done|by rewrite tags_for_snoc_eq, tags_for_none|].
        exists row. split_and!; [|done..]. apply elem_of_app. right.
        by apply list_elem_of_singleton.
      * rewrite PyDictFacts.get_update_ne, PyDictFacts.get_set_ne by done.
        specialize (Hget k). destruct (PyDict.get k d) as [item|].
        -- destruct Hget as (Hid & Htags & r0 & Hr0 & Hk & Hp & Hf).
           split_and!; [done|by rewrite tags_for_snoc_ne|].
           exists r0. split_and!; [|done..]. apply elem_of_app. by left.
        -- intros r0 [Hr0| ->%list_elem_of_singleton]%elem_of_app; [|done].
           by apply Hget.
Qed.

Lemma grouped_fold rows :
  ∀ d done, grouped d done → grouped (fold_left add_row rows d) (done ++ rows).
Proof.
  induction rows as [|row rows IH]; intros d done Hg; simpl.
  - by rewrite app_nil_r.
  - replace (done ++ row :: rows) with ((done ++ [row]) ++ rows)
      by (by rewrite <- app_assoc).
    apply IH. by apply grouped_step.
Qed.

Lemma grouped_all rows : grouped (fold_left add_row rows []) rows.
Proof.
  apply (grouped_fold rows [] []). split; [apply NoDup_nil_2|].
  intros k row Hrow. by apply elem_of_nil in Hrow.
Qed.

(** The entries of a grouped dictionary carry their keys. *)
Lemma grouped_ids d done :
  grouped d done → map image_id (PyDict.values d) = PyDict.keys d.
Proof.
  intros [Hnd Hget].
  assert (Hall : ∀ k item, (k, item) ∈ d → image_id item = k).
  { intros k item Hin. apply PyDictFacts.get_elem_of in Hin; [|done].
    specialize (Hget k). rewrite Hin in Hget. by destruct Hget. }
  clear Hnd Hget. unfold PyDict.values, PyDict.keys.
  induction d as [|[k item] d IH]; simpl; [done|]. f_equal.
  - apply Hall. by left.
  - apply IH. intros k' item' Hin. apply Hall. by right.
Qed.

(** Without a fault the listing is the regrouping of the sorted join. *)
Lemma listing_no_fault db :
  get_all_indexed_images None db =
  PyDict.values (fold_left add_row (order_by (inner_join db)) []).
Proof. reflexivity. Qed.

(** With a fault the listing is empty. *)
Lemma listing_fault flt db :
  get_all_indexed_images flt db = [] ∨
  get_all_indexed_images flt db = get_all_indexed_images None db.
Proof.
  unfold get_all_indexed_images, _get_connection, execute, faulty. simpl.
  destruct (bool_decide (flt = Some 0%nat)); [by left|]. simpl.
  destruct (bool_decide (flt = Some 1%nat)); [by left|by right].
Qed.

(** Every listed image is an image row that has a tag row. *)
Lemma listing_sound db item :
  item ∈ get_all_indexed_images None db →
  ∃ t r, t ∈ tags db ∧ r ∈ images db ∧
         IMAGES.image_id r = TAGS.image_id t ∧
         image_id item = IMAGES.image_id r ∧
         file_path item = IMAGES.file_path r ∧
         is_favorite item = favorite r.
Proof.
  rewrite listing_no_fault. intros Hin.
  pose proof (grouped_all (order_by (inner_join db))) as [Hnd Hget].
  apply PyDictFacts.elem_of_values in Hin as [k Hin].
  apply PyDictFacts.get_elem_of in Hin; [|done].
  specialize (Hget k). rewrite Hin in Hget.
  destruct Hget as (Hid & _ & row & Hrow & Hk & Hp & Hf).
  apply elem_of_order_by, elem_of_inner_join in Hrow
    as (t & r & Ht & Hr & Heq & ->).
  exists t, r. simpl in *. split_and!; [done..|congruence|done|done].
Qed.

(** Every image row that has a tag row is listed. *)
Lemma listing_complete db t r :
  t ∈ tags db → r ∈ images db → IMAGES.image_id r = TAGS.image_id t →
  ∃ item, item ∈ get_all_indexed_images None db ∧
          image_id item = IMAGES.image_id r.
Proof.
  intros Ht Hr Heq. rewrite listing_no_fault.
  pose proof (grouped_all (order_by (inner_join db))) as [Hnd Hget].
  specialize (Hget (IMAGES.image_id r)).
  destruct (PyDict.get _ _) as [item|] eqn:Hitem.
  - exists item. split; [|by destruct Hget].
    apply PyDictFacts.elem_of_get in Hitem.
    unfold PyDict.values. apply list_elem_of_fmap. by eexists (_, _).
  - exfalso. apply (Hget (join_row t r)); [|by simpl].
    apply elem_of_order_by, elem_of_inner_join. by exists t, r.
Qed.

(** The tags of a listed image are its tag rows. *)
Lemma listing_tags db item tg :
  item ∈ get_all_indexed_images None db →
  tg ∈ tags_of item ↔
  ∃ t, t ∈ tags db ∧ TAGS.image_id t = image_id item ∧ to_tag t = tg.
Proof.
  rewrite listing_no_fault. intros Hin.
  pose proof (grouped_all (order_by (inner_join db))) as [Hnd Hget].
  apply PyDictFacts.elem_of_values in Hin as [k Hin].
  apply PyDictFacts.get_elem_of in Hin; [|done].
  specialize (Hget k). rewrite Hin in Hget.
  destruct Hget as (Hid & -> & row0 & Hrow0 & Hk0 & _). unfold tags_for.
  rewrite list_elem_of_fmap. split.
  - intros (row & -> & Hrow). apply RowFacts.elem_of_filter in Hrow as [Hrow Hk].
    apply bool_decide_eq_true in Hk.
    apply elem_of_order_by, elem_of_inner_join in Hrow
      as (t & r & Ht & Hr & Heq & ->).
    exists t. simpl in *. split_and!; [done|congruence|done].
  - intros (t & Ht & Hk & <-).
    apply elem_of_order_by, elem_of_inner_join in Hrow0
      as (t0 & r0 & Ht0 & Hr0 & Heq0 & ->). simpl in Hk0.
    exists (join_row t r0). split; [done|].
    apply RowFacts.elem_of_filter. split.
    + apply elem_of_order_by, elem_of_inner_join. exists t, r0.
      split_and!; [done..|congruence|done].
    + apply bool_decide_eq_true. simpl. congruence.
Qed.

(** No image is listed twice. *)
Lemma listing_NoDup db : NoDup (map image_id (get_all_indexed_images None db)).
Proof.
  rewrite listing_no_fault.
  pose proof (grouped_all (order_by (inner_join db))) as Hg.
  rewrite (grouped_ids _ _ Hg). by destruct Hg.
Qed.

End Grouping.

End ListingFacts.

(** ** Toggling the favorite flag *)

Module ToggleFacts.
Import DatabaseManager Store.

Lemma flipped_id id r : IMAGES.image_id (flipped id r) = IMAGES.image_id r.
Proof. unfold flipped. by destruct (has_id id r). Qed.

Lemma flipped_path id r : IMAGES.file_path (flipped id r) = IMAGES.file_path r.
Proof. unfold flipped. by destruct (has_id id r). Qed.

Lemma flipped_other id r : IMAGES.image_id r ≠ id → flipped id r = r.
Proof.
  intros Hne. unfold flipped, has_id. by rewrite bool_decide_eq_false_2.
Qed.

(** On a flag that is 0 or 1, [1 - is_favorite] is the other one. *)
Lemma flipped_favorite r :
  IMAGES.is_favorite r = 0 ∨ IMAGES.is_favorite r = 1 →
  favorite (flipped (IMAGES.image_id r) r) = negb (favorite r).
Proof.
  unfold flipped, has_id, favorite. rewrite bool_decide_eq_true_2 by done.
  simpl. by intros [-> | ->].
Qed.

Lemma flipped_ids id l :
  map IMAGES.image_id (map (flipped id) l) = map IMAGES.image_id l.
Proof.
  induction l as [|r l IH]; simpl; [done|]. by rewrite flipped_id, IH.
Qed.

Lemma flipped_paths id l :
  map IMAGES.file_path (map (flipped id) l) = map IMAGES.file_path l.
Proof.
  induction l as [|r l IH]; simpl; [done|]. by rewrite flipped_path, IH.
Qed.

(** Flipping a key that no row has changes nothing. *)
Lemma flipped_absent id l :
  id ∉ map IMAGES.image_id l → map (flipped id) l = l.
Proof.
  induction l as [|r l IH]; simpl; [done|].
  intros [Hne Hnotin]%not_elem_of_cons.
  rewrite flipped_other by done. by rewrite IH.
Qed.

(** The update keeps the store well formed. *)
Lemma update_favorite_well_formed id db :
  well_formed db → well_formed (snd (update_favorite id db)).
Proof.
  intros (Hpaths & Hids & Hfav). unfold well_formed, update_favorite. simpl.
  rewrite flipped_paths, flipped_ids. split_and!; [done..|].
  apply Forall_fmap. eapply Forall_impl; [exact Hfav|].
  intros r Hr. simpl in *. unfold flipped. case_match; simpl; [|done].
  destruct Hr as [-> | ->]; [by right|by left].
Qed.

(** Without a fault, the toggle commits the update and returns the flag of
    the first row of the key, [False] when the key has no row. *)
Lemma toggle_no_fault id db :
  toggle_favorite_status None id db =
  (match head (map IMAGES.is_favorite
                 (List.filter (has_id id) (map (flipped id) (images db)))) with
   | Some is_favorite => negb (is_favorite =? 0)
   | None => false
   end,
   snd (update_favorite id db)).
Proof.
  unfold toggle_favorite_status, toggle_favorite_transaction, bind, execute,
    commit, faulty, _get_connection, select_is_favorite, close. simpl.
  by destruct (head _).
Qed.

(** With a fault, the toggle returns [False] and leaves the database. *)
Lemma toggle_fault n id db :
  (n < 4)%nat → toggle_favorite_status (Some n) id db = (false, db).
Proof.
  intros Hn. destruct n as [|[|[|[|n]]]]; [reflexivity..|lia].
Qed.

End ToggleFacts.

(** * The store *)

(** Sample runs of the store. *)
Example save_replaces_sample :
  @DatabaseManager.save_tags_to_db Sample.os None "2024-01-01T00:00:00"
    "/pics/a.jpg" [Sample.hat 0.5] Sample.one_image =
  (Return true,
   {| DatabaseManager.images :=
        [{| DatabaseManager.IMAGES.image_id := 1;
            DatabaseManager.IMAGES.file_path := "/pics/a.jpg";
            DatabaseManager.IMAGES.date_scanned := "2024-01-01T00:00:00";
            DatabaseManager.IMAGES.is_favorite := 0 |}];
      DatabaseManager.tags :=
        [{| DatabaseManager.TAGS.tag_id := 3;
            DatabaseManager.TAGS.image_id := 1;
            DatabaseManager.TAGS.tag_name := "hat";
            DatabaseManager.TAGS.score := 0.5 |}];
      DatabaseManager.images_seq := 1;
      DatabaseManager.tags_seq := 3 |}).
Proof. reflexivity. Qed.

Example save_rolls_back_sample :
  @DatabaseManager.save_tags_to_db Sample.os (Some 5%nat) "2024-01-01T00:00:00"
    "/pics/a.jpg" [Sample.hat 0.5] Sample.one_image =
  (Return false, Sample.one_image).
Proof. reflexivity. Qed.

Example listing_sample :
  DatabaseManager.get_all_indexed_images None Sample.one_image =
  [{| DatabaseManager.image_id := 1;
      DatabaseManager.file_path := "/pics/a.jpg";
      DatabaseManager.is_favorite := false;
      DatabaseManager.tags_of := [Sample.cat 0.75; Sample.hat 0.25] |}].
Proof. reflexivity. Qed.

(** C2. A call of [save_tags_to_db] on a store with unique paths returns
    [True] or [False] and raises nothing. When it returns [True], the tag
    assignments stored for the path are exactly the tags given (the old ones
    are gone, the new ones are there, committed together). When it returns
    [False], the transaction is rolled back: the database is what it was. *)
Theorem C2_save_tags_all_or_nothing `{OsPath}
    (flt : option nat) (now file_path : string)
    (new_tags : list DatabaseManager.tag) (db : DatabaseManager.database) :
  NoDup (map DatabaseManager.IMAGES.file_path (DatabaseManager.images db)) →
  match DatabaseManager.save_tags_to_db flt now file_path new_tags db with
  | (Return true, db') => Store.stored_tags db' (normpath file_path) = new_tags
  | (Return false, db') => db' = db
  | (Raise, _) => False
  end.
Proof.
  intros Hnd.
  destruct (SaveFacts.save_tags_to_db_outcome flt now file_path new_tags db)
    as [-> | ->]; [|done].
  by apply SaveFacts.stored_after_replaced.
Qed.

Lemma C2_save_tags_all_or_nothing_witness :
  NoDup (map DatabaseManager.IMAGES.file_path
           (DatabaseManager.images Sample.one_image)) ∧
  match @DatabaseManager.save_tags_to_db Sample.os None
          "2024-01-01T00:00:00" "/pics/a.jpg" [Sample.hat 0.5]
          Sample.one_image with
  | (Return true, db') =>
      Store.stored_tags db' (@normpath Sample.os "/pics/a.jpg") = [Sample.hat 0.5]
  | (Return false, db') => db' = Sample.one_image
  | (Raise, _) => False
  end.
Proof.
  assert (Hnd : NoDup (map DatabaseManager.IMAGES.file_path
                         (DatabaseManager.images Sample.one_image))).
  { apply (bool_decide_unpack _). vm_compute. reflexivity. }
  split; [exact Hnd|].
  exact (@C2_save_tags_all_or_nothing Sample.os None
           "2024-01-01T00:00:00" "/pics/a.jpg" [Sample.hat 0.5]
           Sample.one_image Hnd).
Defined.

Example toggle_sample :
  DatabaseManager.toggle_favorite_status None 1 Sample.low_favorite =
  (false,
   {| DatabaseManager.images :=
        [{| DatabaseManager.IMAGES.image_id := 1;
            DatabaseManager.IMAGES.file_path := "/pics/b.png";
            DatabaseManager.IMAGES.date_scanned := "2023-12-31T00:00:00";
            DatabaseManager.IMAGES.is_favorite := 0 |}];
      DatabaseManager.tags := DatabaseManager.tags Sample.low_favorite;
      DatabaseManager.images_seq := 1;
      DatabaseManager.tags_seq := 1 |}).
Proof. reflexivity. Qed.

Example toggle_unknown_sample :
  DatabaseManager.toggle_favorite_status None 7 Sample.low_favorite =
  (false, Sample.low_favorite).
Proof. reflexivity. Qed.

(** C9 as the specification states it fails on an image without tag
    assignments: the toggle of image 1 of [Sample.tagless] returns the new
    state [True], and the next listing of all images shows no image 1. *)
Lemma C9_toggle_not_listed_counterexample :
  1 ∈ map DatabaseManager.IMAGES.image_id
        (DatabaseManager.images Sample.tagless) ∧
  fst (DatabaseManager.toggle_favorite_status None 1 Sample.tagless) = true ∧
  ¬ ∃ item,
      item ∈ DatabaseManager.get_all_indexed_images None
               (snd (DatabaseManager.toggle_favorite_status None 1
                       Sample.tagless)) ∧
      DatabaseManager.image_id item = 1.
Proof.
  split_and!.
  - vm_compute. by left.
  - reflexivity.
  - intros (item & Hin & _). vm_compute in Hin. by apply elem_of_nil in Hin.
Qed.

(** C9, amended. On a well-formed store and without a storage error:
    for an image key present in the store, [toggle_favorite_status] returns
    the negation of the image's favorite flag, leaves every other row and all
    tag rows as they were and changes only the flag of the row of the key;
    every entry of that image in the next listing of all images shows the new
    flag, and there is such an entry when the image has a tag assignment.
    For a key that is not present, it returns [False] and the database is
    unchanged. *)
Theorem C9_toggle_favorite (id : Z) (db : DatabaseManager.database) :
  Store.well_formed db →
  let b := fst (DatabaseManager.toggle_favorite_status None id db) in
  let db' := snd (DatabaseManager.toggle_favorite_status None id db) in
  (∀ r, r ∈ DatabaseManager.images db →
        DatabaseManager.IMAGES.image_id r = id →
        b = negb (Store.favorite r) ∧
        DatabaseManager.tags db' = DatabaseManager.tags db ∧
        Forall2
          (fun old new =>
             if decide (DatabaseManager.IMAGES.image_id old = id)
             then DatabaseManager.IMAGES.image_id new = id ∧
                  DatabaseManager.IMAGES.file_path new =
                    DatabaseManager.IMAGES.file_path old ∧
                  DatabaseManager.IMAGES.date_scanned new =
                    DatabaseManager.IMAGES.date_scanned old ∧
                  Store.favorite new = negb (Store.favorite old)
             else new = old)
          (DatabaseManager.images db) (DatabaseManager.images db') ∧
        (∀ item,
           item ∈ DatabaseManager.get_all_indexed_images None db' →
           DatabaseManager.image_id item = id →
           DatabaseManager.is_favorite item = b) ∧
        ((∃ t, t ∈ DatabaseManager.tags db ∧
               DatabaseManager.TAGS.image_id t = id) →
         ∃ item,
           item ∈ DatabaseManager.get_all_indexed_images None db' ∧
           DatabaseManager.image_id item = id ∧
           DatabaseManager.is_favorite item = b)) ∧
  (id ∉ map DatabaseManager.IMAGES.image_id (DatabaseManager.images db) →
   b = false ∧ db' = db).
Proof.
  intros (Hpaths & Hids & Hfav) b db'. subst b db'.
  rewrite ToggleFacts.toggle_no_fault. cbn [fst snd]. split.
  - intros r Hr Hid.
    assert (Hrow : List.filter (DatabaseManager.has_id id)
                     (map (DatabaseManager.flipped id)
                        (DatabaseManager.images db)) =
                   [DatabaseManager.flipped id r]).
    { rewrite RowFacts.filter_fmap.
      rewrite (filter_ext _ (DatabaseManager.has_id id)).
      - subst id. unfold DatabaseManager.has_id.
        by rewrite (RowFacts.filter_key_unique DatabaseManager.IMAGES.image_id).
      - intros x. unfold DatabaseManager.has_id.
        by rewrite ToggleFacts.flipped_id. }
    assert (Hflag : Store.favorite (DatabaseManager.flipped id r) =
                    negb (Store.favorite r)).
    { subst id. apply ToggleFacts.flipped_favorite.
      by apply (proj1 (Forall_forall _ _) Hfav). }
    assert (Hnew : ∀ r', r' ∈ map (DatabaseManager.flipped id)
                                 (DatabaseManager.images db) →
                         DatabaseManager.IMAGES.image_id r' = id →
                         r' = DatabaseManager.flipped id r).
    { intros r' (r0 & -> & Hr0)%list_elem_of_fmap Hid'.
      rewrite ToggleFacts.flipped_id in Hid'. f_equal.
      apply (RowFacts.key_inj DatabaseManager.IMAGES.image_id r r0
               (DatabaseManager.images db)); [done..|congruence]. }
    rewrite Hrow. simpl. split_and!.
    + exact Hflag.
    + done.
    + apply Forall2_fmap_r, Forall_Forall2_diag.
      eapply Forall_impl; [exact Hfav|]. intros r0 Hr0. simpl.
      destruct (decide (DatabaseManager.IMAGES.image_id r0 = id)) as [<-|Hne].
      * rewrite ToggleFacts.flipped_favorite by done.
        unfold DatabaseManager.flipped, DatabaseManager.has_id.
        by rewrite bool_decide_eq_true_2.
      * by apply ToggleFacts.flipped_other.
    + intros item Hitem Hitem_id.
      apply ListingFacts.listing_sound in Hitem
        as (t & r' & _ & Hr' & _ & Hid' & _ & ->).
      simpl in Hr'. rewrite (Hnew r' Hr') by congruence. reflexivity.
    + intros (t & Ht & Ht_id).
      destruct (ListingFacts.listing_complete
                  (snd (DatabaseManager.update_favorite id db)) t
                  (DatabaseManager.flipped id r))
        as (item & Hitem & Hitem_id).
      * done.
      * simpl. apply list_elem_of_fmap. by exists r.
      * rewrite ToggleFacts.flipped_id. congruence.
      * rewrite ToggleFacts.flipped_id in Hitem_id.
        exists item. split_and!; [done|congruence|].
        apply ListingFacts.listing_sound in Hitem
          as (t' & r' & _ & Hr' & _ & Hid' & _ & ->).
        simpl in Hr'. rewrite (Hnew r' Hr') by congruence. reflexivity.
  - intros Habsent. unfold DatabaseManager.update_favorite. simpl.
    rewrite ToggleFacts.flipped_absent by done.
    unfold DatabaseManager.has_id.
    rewrite (RowFacts.filter_key_nil DatabaseManager.IMAGES.image_id) by done.
    split; [done|]. by destruct db.
Qed.

Lemma C9_toggle_favorite_witness :
  Store.well_formed Sample.one_image ∧
  (∀ r, r ∈ DatabaseManager.images Sample.one_image →
        DatabaseManager.IMAGES.image_id r = 1 →
        fst (DatabaseManager.toggle_favorite_status None 1 Sample.one_image) =
          negb (Store.favorite r) ∧
        ∃ item,
          item ∈ DatabaseManager.get_all_indexed_images None
                   (snd (DatabaseManager.toggle_favorite_status None 1
                           Sample.one_image)) ∧
          DatabaseManager.image_id item = 1 ∧
          DatabaseManager.is_favorite item =
            fst (DatabaseManager.toggle_favorite_status None 1
                   Sample.one_image)).
Proof.
  assert (Hwf : Store.well_formed Sample.one_image).
  { split_and!.
    - apply (bool_decide_unpack _). vm_compute. reflexivity.
    - apply (bool_decide_unpack _). vm_compute. reflexivity.
    - repeat constructor. }
  split; [exact Hwf|]. intros r Hr Hid.
  destruct (C9_toggle_favorite 1 Sample.one_image Hwf) as [Hknown _].
  destruct (Hknown r Hr Hid) as (Hb & _ & _ & _ & Hlisted).
  split; [exact Hb|]. apply Hlisted.
  eexists. split; [by left|reflexivity].
Defined.

(** * The retrieval filter *)

Module AppFacts.
Import DatabaseManager App.

(** The images a loop with [continue] keeps are those its body keeps. *)
Lemma kept_items {A B} (f : A → option B) (l : list A) :
  map snd (omap (fun x => match f x with
                          | Some e => Some (e, x)
                          | None => None
                          end) l) =
  List.filter (fun x => match f x with Some _ => true | None => false end) l.
Proof.
  induction l as [|x l IH]; simpl; [done|].
  destruct (f x); simpl; [f_equal|]; exact IH.
Qed.

Lemma kept_entries {A B} (f : A → option B) (l : list A) :
  map fst (omap (fun x => match f x with
                          | Some e => Some (e, x)
                          | None => None
                          end) l) =
  omap f l.
Proof.
  induction l as [|x l IH]; simpl; [done|].
  destruct (f x); simpl; [f_equal|]; exact IH.
Qed.

Lemma nonempty_existsb {A B} (p : A → bool) (g : A → B) (l : list A) :
  nonempty (map g (List.filter p l)) = existsb p l.
Proof.
  induction l as [|x l IH]; simpl; [done|]. by destruct (p x).
Qed.

Section Search.
Context `{OsPath} `{CaseMapping}.

(** The gallery entry of a kept image starts with its path. *)
Lemma keep_path intended tags terms fn lo hi fav item entry :
  keep intended tags terms fn lo hi fav item = Some entry →
  fst entry = file_path item.
Proof.
  unfold keep. repeat case_match; by intros [= <-].
Qed.

(** Without resolved tags and fuzzy terms, the tag list of a title has at
    most five lines. *)
Lemma keep_at_most_five intended terms fn lo hi fav item entry :
  terms = [] →
  keep intended ∅ terms fn lo hi fav item = Some entry →
  (length (title_tags (snd entry)) ≤ 5)%nat.
Proof.
  intros ->. unfold keep. rewrite bool_decide_eq_true_2 by done. simpl.
  repeat case_match; intros [= <-]; simpl; rewrite length_take; lia.
Qed.

(** Without resolved tags and fuzzy terms, what decides whether an image is
    kept: the favorites filter, the file name filter, and the score range
    only when nothing at all was asked for. *)
Lemma keep_no_tags intended fn lo hi fav item :
  match keep intended ∅ [] fn lo hi fav item with
  | Some _ => true
  | None => false
  end =
  (negb fav || is_favorite item) &&
  (negb (PyStr.truthy fn) || PyStr.contains (str_lower (file_path item)) fn) &&
  (intended || existsb (in_range lo hi) (tags_of item)).
Proof.
  unfold keep. rewrite bool_decide_eq_true_2 by done. simpl.
  destruct fav, (is_favorite item); simpl; try done;
    destruct (PyStr.truthy fn); simpl; try done;
    try (destruct (PyStr.contains _ fn); simpl; try done);
    destruct intended; simpl; try done;
    rewrite nonempty_existsb; by destruct (existsb _ _).
Qed.

Lemma map_fst_entries intended tags terms fn lo hi fav l :
  map fst (omap (keep intended tags terms fn lo hi fav) l) =
  map file_path
    (List.filter (fun item =>
                    match keep intended tags terms fn lo hi fav item with
                    | Some _ => true
                    | None => false
                    end) l).
Proof.
  induction l as [|item l IH]; simpl; [done|].
  destruct (keep _ _ _ _ _ _ _ item) as [entry|] eqn:Hk; simpl; [|exact IH].
  rewrite (keep_path _ _ _ _ _ _ _ _ _ Hk). f_equal. exact IH.
Qed.

(** The result of a search that is not answered by "no tags found": the
    listed images that the loop body keeps. *)
Lemma search_results dict db flt cn sel en fn lo hi fav :
  let cn' := PyStr.strip cn in
  let en' := str_lower (PyStr.strip en) in
  let fn' := str_lower (PyStr.strip fn) in
  let intended := user_intended_search cn' sel en' fn' fav in
  let tags := cn_search_tags dict db flt cn' sel in
  let terms := en_fuzzy_terms en' in
  let res := search_images_wrapper dict db flt cn sel en fn lo hi fav in
  (intended && bool_decide (tags = ∅) && negb (nonempty terms) &&
   negb (PyStr.truthy fn') && negb fav = false) →
  filtered_raw_results res =
    List.filter (fun item =>
                   match keep intended tags terms fn' lo hi fav item with
                   | Some _ => true
                   | None => false
                   end)
      (get_all_indexed_images (images_fault flt) db) ∧
  output_data res =
    omap (keep intended tags terms fn' lo hi fav)
      (get_all_indexed_images (images_fault flt) db) ∧
  final_message res =
    if nonempty (get_all_indexed_images (images_fault flt) db)
    then
      if nonempty (search_msg_parts dict db flt cn' sel en' fn' fav)
      then Found (search_msg_parts dict db flt cn' sel en' fn' fav) lo hi
             (length (output_data res))
      else ShowingAll (length (output_data res)) lo hi
    else DatabaseEmpty.
Proof.
  intros cn' en' fn' intended tags terms res Hnot. subst res.
  unfold search_images_wrapper.
  fold cn' en' fn'. fold intended tags terms. rewrite Hnot.
  destruct (get_all_indexed_images (images_fault flt) db) as [|item l] eqn:Hl.
  - done.
  - change (negb (nonempty (item :: l))) with false. cbv iota.
    cbn [filtered_raw_results output_data final_message nonempty].
    by rewrite kept_items, kept_entries.
Qed.

(** Every image of a result is a listed image. *)
Lemma search_results_listed dict db flt cn sel en fn lo hi fav item :
  item ∈ filtered_raw_results
           (search_images_wrapper dict db flt cn sel en fn lo hi fav) →
  item ∈ get_all_indexed_images None db.
Proof.
  intros Hin.
  assert (Hl : item ∈ get_all_indexed_images (images_fault flt) db).
  { revert Hin. unfold search_images_wrapper.
    destruct (_ && _ && _ && _ && _); simpl.
    { by intros ?%elem_of_nil. }
    destruct (negb (nonempty _)); simpl.
    { by intros ?%elem_of_nil. }
    rewrite kept_items. by intros [? _]%RowFacts.elem_of_filter. }
  destruct (ListingFacts.listing_fault (images_fault flt) db) as [Hf|Hf];
    rewrite Hf in Hl; [by apply elem_of_nil in Hl|done].
Qed.

End Search.

End AppFacts.

Example definite_empty_sample :
  @App.search_images_wrapper Sample.os Sample.casing DictionaryManager.empty_dictionary
    Sample.one_image App.no_faults "wa" None "" "" 0 1 false =
  {| App.output_data := []; App.final_message := App.NoTagsFound "wa";
     App.filtered_raw_results := []; App.gallery_state := [] |}.
Proof. reflexivity. Qed.

Example show_all_sample :
  App.final_message
    (@App.load_initial_gallery Sample.os Sample.casing DictionaryManager.empty_dictionary
       Sample.one_image App.no_faults 0.5 1) =
  App.ShowingAll 1 0.5 1.
Proof. reflexivity. Qed.

(** C5. A search in which the user supplied some input, the exact or
    substring resolution gives no source tag, the fuzzy-term field gives no
    token and neither a file name nor the favorites filter is set, returns no
    image, with the message "no tags found". A search with no input at all
    returns, from the listing of all images, exactly the images that have a
    tag whose score lies in [[min, max]] (these are the images of the store
    with such a tag row), with the message "showing all" (or "database
    empty" when nothing is listed), never "no tags found". *)
Theorem C5_definite_empty_vs_show_all `{OsPath} `{CaseMapping}
    (dict : DictionaryManager.dictionary) (db : DatabaseManager.database) :
  (∀ flt cn sel en fn lo hi fav,
     let cn' := PyStr.strip cn in
     let en' := str_lower (PyStr.strip en) in
     let fn' := str_lower (PyStr.strip fn) in
     App.user_intended_search cn' sel en' fn' fav = true →
     App.cn_search_tags dict db flt cn' sel = ∅ →
     App.en_fuzzy_terms en' = [] →
     PyStr.truthy fn' = false →
     fav = false →
     App.search_images_wrapper dict db flt cn sel en fn lo hi fav =
     {| App.output_data := []; App.final_message := App.NoTagsFound cn';
        App.filtered_raw_results := []; App.gallery_state := [] |}) ∧
  (∀ flt cn sel en fn lo hi,
     let cn' := PyStr.strip cn in
     let en' := str_lower (PyStr.strip en) in
     let fn' := str_lower (PyStr.strip fn) in
     let res := App.search_images_wrapper dict db flt cn sel en fn lo hi false in
     App.user_intended_search cn' sel en' fn' false = false →
     App.images_fault flt = None →
     App.filtered_raw_results res =
       List.filter
         (fun item => existsb (App.in_range lo hi) (DatabaseManager.tags_of item))
         (DatabaseManager.get_all_indexed_images None db) ∧
     map fst (App.output_data res) =
       map DatabaseManager.file_path (App.filtered_raw_results res) ∧
     (∀ id,
        (∃ item, item ∈ App.filtered_raw_results res ∧
                 DatabaseManager.image_id item = id) ↔
        (∃ r t, r ∈ DatabaseManager.images db ∧ t ∈ DatabaseManager.tags db ∧
                DatabaseManager.IMAGES.image_id r = id ∧
                DatabaseManager.TAGS.image_id t = id ∧
                PyFloat.between lo (DatabaseManager.TAGS.score t) hi = true)) ∧
     App.final_message res =
       if nonempty (DatabaseManager.get_all_indexed_images None db)
       then App.ShowingAll (length (App.output_data res)) lo hi
       else App.DatabaseEmpty).
Proof.
  split.
  - intros flt cn sel en fn lo hi fav cn' en' fn' Hint Htags Hterms Hfn ->.
    unfold App.search_images_wrapper. fold cn' en' fn'.
    by rewrite Hint, Htags, Hterms, Hfn.
  - intros flt cn sel en fn lo hi cn' en' fn' res Hint Hflt.
    unfold App.user_intended_search in Hint.
    rewrite !orb_false_r in Hint.
    apply orb_false_elim in Hint as [Hint Hfn].
    apply orb_false_elim in Hint as [Hint Hsel].
    apply orb_false_elim in Hint as [Hcn Hen].
    assert (Hterms : App.en_fuzzy_terms en' = []).
    { unfold App.en_fuzzy_terms. by rewrite Hen. }
    assert (Hnone : App.cn_terms_to_search dict db flt cn' sel = []).
    { unfold App.cn_terms_to_search. unfold App.selected in Hsel.
      destruct sel as [s|]; [rewrite Hsel|]; by rewrite Hcn. }
    assert (Htags : App.cn_search_tags dict db flt cn' sel = ∅).
    { unfold App.cn_search_tags. rewrite Hnone.
      unfold DictionaryManager.get_search_tags_from_cn_list.
      change (DictionaryManager.final_en_tags dict []) with (∅ : gset string).
      by rewrite elements_empty. }
    assert (Hparts : App.search_msg_parts dict db flt cn' sel en' fn' false = []).
    { unfold App.search_msg_parts. unfold App.selected in Hsel.
      destruct sel as [s|]; [rewrite Hsel|]; by rewrite Hcn, Hen, Hfn. }
    destruct (AppFacts.search_results dict db flt cn sel en fn lo hi false)
      as (Hres & Hout & Hmsg).
    { fold cn' en' fn'. unfold App.user_intended_search.
      by rewrite Hcn, Hen, Hsel, Hfn. }
    fold cn' en' fn' res in Hres, Hout, Hmsg.
    rewrite Htags, Hterms, Hflt in Hres, Hout.
    rewrite Hflt, Hparts in Hmsg.
    assert (Hfilter : App.filtered_raw_results res =
              List.filter
                (fun item => existsb (App.in_range lo hi)
                               (DatabaseManager.tags_of item))
                (DatabaseManager.get_all_indexed_images None db)).
    { rewrite Hres. apply filter_ext. intros item.
      rewrite AppFacts.keep_no_tags. unfold App.user_intended_search.
      by rewrite Hcn, Hen, Hsel, Hfn. }
    split_and!.
    + exact Hfilter.
    + by rewrite Hout, Hres, AppFacts.map_fst_entries.
    + intros id. rewrite Hfilter. split.
      * intros (item & [Hl Hex]%RowFacts.elem_of_filter & Hid).
        apply existsb_exists in Hex as (tg & Htg & Hrange).
        apply list_elem_of_In in Htg.
        apply (ListingFacts.listing_tags db item tg Hl) in Htg
          as (t & Ht & Htid & <-).
        apply ListingFacts.listing_sound in Hl
          as (_ & r & _ & Hr & _ & Hrid & _).
        exists r, t. split_and!; [done|done|congruence|congruence|done].
      * intros (r & t & Hr & Ht & Hrid & Htid & Hrange).
        destruct (ListingFacts.listing_complete db t r)
          as (item & Hl & Hid); [done|done|congruence|].
        exists item. split; [|congruence].
        apply RowFacts.elem_of_filter. split; [done|].
        apply existsb_exists. exists (Store.to_tag t). split; [|done].
        apply list_elem_of_In, (ListingFacts.listing_tags db item); [done|].
        exists t. split_and!; [done|congruence|done].
    + exact Hmsg.
Qed.

Lemma C5_definite_empty_vs_show_all_witness :
  @App.search_images_wrapper Sample.os Sample.casing DictionaryManager.empty_dictionary
    Sample.one_image App.no_faults "wa" None "" "" 0 1 false =
  {| App.output_data := []; App.final_message := App.NoTagsFound "wa";
     App.filtered_raw_results := []; App.gallery_state := [] |} ∧
  App.filtered_raw_results
    (@App.search_images_wrapper Sample.os Sample.casing DictionaryManager.empty_dictionary
       Sample.one_image App.no_faults "" None "" "" 0.5 1 false) =
  List.filter
    (fun item => existsb (App.in_range 0.5 1) (DatabaseManager.tags_of item))
    (DatabaseManager.get_all_indexed_images None Sample.one_image).
Proof.
  destruct (@C5_definite_empty_vs_show_all Sample.os Sample.casing
              DictionaryManager.empty_dictionary Sample.one_image)
    as [Hempty Hall].
  split.
  - apply (Hempty App.no_faults "wa" None "" "" 0%float 1%float false);
      vm_compute; reflexivity.
  - apply (Hall App.no_faults "" None "" "" 0.5%float 1%float);
      vm_compute; reflexivity.
Defined.

Example favorites_only_sample :
  App.filtered_raw_results
    (@App.search_images_wrapper Sample.os Sample.casing DictionaryManager.empty_dictionary
       Sample.low_favorite App.no_faults "" None "" "" 0.5 1 true) =
  [{| DatabaseManager.image_id := 1;
      DatabaseManager.file_path := "/pics/b.png";
      DatabaseManager.is_favorite := true;
      DatabaseManager.tags_of := [Sample.cat 0.25] |}].
Proof. reflexivity. Qed.

(** C6 as the specification states it fails on a favorites-only query: with
    the range [[0.5, 1]], the favorite image of [Sample.low_favorite] is kept
    although its only tag has the score 0.25. *)
Lemma C6_favorites_only_ignores_range_counterexample :
  ∃ item,
    item ∈ App.filtered_raw_results
             (@App.search_images_wrapper Sample.os Sample.casing
                DictionaryManager.empty_dictionary Sample.low_favorite
                App.no_faults "" None "" "" 0.5 1 true) ∧
    ¬ ∃ t, t ∈ DatabaseManager.tags_of item ∧ App.in_range 0.5 1 t = true.
Proof.
  eexists. split.
  - vm_compute. by left.
  - intros (t & Ht & Hrange). simpl in Ht.
    apply list_elem_of_singleton in Ht as ->. vm_compute in Hrange. done.
Qed.

(** C6, amended. For every search with no resolved source tag and no fuzzy
    token, the result is, from the listing of all images and in its order:
    when nothing at all was asked for (show-all), the images with a tag whose
    score lies in [[min, max]]; when a file name or the favorites filter was
    asked for, the images that pass these filters, whatever their scores;
    and no image otherwise. Every image of the result is annotated with at
    most 5 tags. *)
Theorem C6_filter_without_tags `{OsPath} `{CaseMapping}
    (dict : DictionaryManager.dictionary) (db : DatabaseManager.database)
    (flt : App.faults) (cn : string) (sel : option string) (en fn : string)
    (lo hi : float) (fav : bool) :
  let cn' := PyStr.strip cn in
  let en' := str_lower (PyStr.strip en) in
  let fn' := str_lower (PyStr.strip fn) in
  let intended := App.user_intended_search cn' sel en' fn' fav in
  let res := App.search_images_wrapper dict db flt cn sel en fn lo hi fav in
  App.cn_search_tags dict db flt cn' sel = ∅ →
  App.en_fuzzy_terms en' = [] →
  App.images_fault flt = None →
  App.filtered_raw_results res =
    List.filter
      (fun item =>
         if intended
         then (fav || PyStr.truthy fn') &&
              (negb fav || DatabaseManager.is_favorite item) &&
              (negb (PyStr.truthy fn') ||
               PyStr.contains (str_lower (DatabaseManager.file_path item)) fn')
         else existsb (App.in_range lo hi) (DatabaseManager.tags_of item))
      (DatabaseManager.get_all_indexed_images None db) ∧
  map fst (App.output_data res) =
    map DatabaseManager.file_path (App.filtered_raw_results res) ∧
  Forall (fun entry => (length (App.title_tags (snd entry)) ≤ 5)%nat)
         (App.output_data res).
Proof.
  intros cn' en' fn' intended res Htags Hterms Hflt.
  destruct (intended && bool_decide (App.cn_search_tags dict db flt cn' sel = ∅)
            && negb (nonempty (App.en_fuzzy_terms en'))
            && negb (PyStr.truthy fn') && negb fav) eqn:Hdef.
  - assert (Hres : res = {| App.output_data := [];
                            App.final_message := App.NoTagsFound cn';
                            App.filtered_raw_results := [];
                            App.gallery_state := [] |}).
    { subst res. unfold App.search_images_wrapper. fold cn' en' fn'.
      fold intended. by rewrite Hdef. }
    rewrite Hres. simpl.
    apply andb_prop in Hdef as [Hdef Hfav].
    apply andb_prop in Hdef as [Hdef Hfn].
    apply andb_prop in Hdef as [Hdef _].
    apply andb_prop in Hdef as [Hint _].
    apply negb_true_iff in Hfav, Hfn. rewrite Hint, Hfav, Hfn. simpl.
    split_and!; [|done|done].
    symmetry. induction (DatabaseManager.get_all_indexed_images None db);
      [done|]. simpl. done.
  - destruct (AppFacts.search_results dict db flt cn sel en fn lo hi fav Hdef)
      as (Hres & Hout & _).
    fold cn' en' fn' in Hres, Hout. fold intended res in Hres, Hout.
    rewrite Htags, Hterms, Hflt in Hres, Hout.
    split_and!.
    + rewrite Hres. apply filter_ext. intros item.
      rewrite AppFacts.keep_no_tags.
      rewrite Htags, Hterms in Hdef. rewrite bool_decide_eq_true_2 in Hdef by done.
      simpl in Hdef. rewrite !andb_true_r in Hdef.
      destruct intended eqn:Hint.
      * simpl in Hdef. rewrite orb_true_l, andb_true_r.
        destruct fav; simpl.
        -- done.
        -- simpl in Hdef. rewrite andb_true_r in Hdef.
           apply negb_false_iff in Hdef. by rewrite Hdef.
      * unfold intended, App.user_intended_search in Hint.
        apply orb_false_elim in Hint as [Hint ->].
        apply orb_false_elim in Hint as [_ ->]. done.
    + by rewrite Hout, Hres, AppFacts.map_fst_entries.
    + rewrite Hout. apply Forall_forall. intros entry Hentry.
      apply list_elem_of_omap in Hentry as (item & _ & Hkeep).
      by apply (AppFacts.keep_at_most_five _ _ _ _ _ _ _ _ eq_refl Hkeep).
Qed.

Lemma C6_filter_without_tags_witness :
  App.filtered_raw_results
    (@App.search_images_wrapper Sample.os Sample.casing DictionaryManager.empty_dictionary
       Sample.low_favorite App.no_faults "" None "" "B.PNG" 0.5 1 true) =
  DatabaseManager.get_all_indexed_images None Sample.low_favorite ∧
  Forall (fun entry => (length (App.title_tags (snd entry)) ≤ 5)%nat)
    (App.output_data
       (@App.search_images_wrapper Sample.os Sample.casing DictionaryManager.empty_dictionary
          Sample.low_favorite App.no_faults "" None "" "B.PNG" 0.5 1 true)).
Proof.
  destruct (@C6_filter_without_tags Sample.os Sample.casing DictionaryManager.empty_dictionary
              Sample.low_favorite App.no_faults "" None "" "B.PNG"
              0.5%float 1%float true)
    as (Hres & _ & Hfive); [vm_compute; reflexivity..|].
  split; [|exact Hfive]. rewrite Hres. reflexivity.
Defined.

(** ** Saving no tags *)

Module EmptySaveFacts.
Import DatabaseManager Store.

Section Paths.
Context `{OsPath}.

(** Without a fault, the indexed paths are the normalized paths of the image
    rows. *)
Lemma paths_no_fault db :
  get_all_indexed_file_paths None db =
  list_to_set (map normpath (map IMAGES.file_path (images db))).
Proof. reflexivity. Qed.

(** With a fault, they are the empty set. *)
Lemma paths_fault flt db :
  get_all_indexed_file_paths flt db = ∅ ∨
  get_all_indexed_file_paths flt db = get_all_indexed_file_paths None db.
Proof.
  unfold get_all_indexed_file_paths, _get_connection, execute, faulty. simpl.
  destruct (bool_decide (flt = Some 0%nat)); [by left|]. simpl.
  destruct (bool_decide (flt = Some 1%nat)); [by left|by right].
Qed.

(** An image row without tag rows is not listed. *)
Lemma tagless_not_listed flt db r item :
  r ∈ images db →
  (∀ t, t ∈ tags db → TAGS.image_id t ≠ IMAGES.image_id r) →
  item ∈ get_all_indexed_images flt db →
  image_id item ≠ IMAGES.image_id r.
Proof.
  intros Hr Hnone Hitem Hid.
  destruct (ListingFacts.listing_fault flt db) as [Hf|Hf];
    rewrite Hf in Hitem; [by apply elem_of_nil in Hitem|].
  apply ListingFacts.listing_sound in Hitem
    as (t & r' & Ht & _ & Heq & Hid' & _).
  apply (Hnone t Ht). congruence.
Qed.

(** A committed save of no tags leaves the row of the path without tags. *)
Lemma replaced_empty p now db :
  NoDup (map IMAGES.file_path (images db)) →
  ∃ r, List.filter (has_path p) (images (replaced p now [] db)) = [r] ∧
       IMAGES.file_path r = p ∧
       ∀ t, t ∈ tags (replaced p now [] db) →
            TAGS.image_id t ≠ IMAGES.image_id r.
Proof.
  intros Hnd. destruct (SaveFacts.upsert_row p now db Hnd) as (r & Hr & Hp).
  exists r. rewrite SaveFacts.replaced_images.
  rewrite (SaveFacts.replaced_selected p now [] db r Hr). simpl.
  split_and!; [done..|].
  intros t [_ Ht]%RowFacts.elem_of_filter Hid.
  apply negb_true_iff, bool_decide_eq_false in Ht. done.
Qed.

End Paths.

End EmptySaveFacts.

Example empty_save_sample :
  @DatabaseManager.save_tags_to_db Sample.os None "2024-01-01T00:00:00"
    "/pics/c.gif" [] DatabaseManager.empty_database =
  (Return true,
   {| DatabaseManager.images :=
        [{| DatabaseManager.IMAGES.image_id := 1;
            DatabaseManager.IMAGES.file_path := "/pics/c.gif";
            DatabaseManager.IMAGES.date_scanned := "2024-01-01T00:00:00";
            DatabaseManager.IMAGES.is_favorite := 0 |}];
      DatabaseManager.tags := [];
      DatabaseManager.images_seq := 1;
      DatabaseManager.tags_seq := 0 |}).
Proof. reflexivity. Qed.

(** C10. When [save_tags_to_db] is called with an empty tag list and returns
    [True] (on a store with unique paths and with an idempotent
    [os.path.normpath]), the image row exists afterwards and has no tag row,
    and its path is among the indexed paths; no listing of all images and no
    retrieval result contains an image with that path. In general an image
    row without tag rows is in no listing of all images, because the listing
    is read from the inner join of the tag rows with the image rows. *)
Theorem C10_empty_save_indexed_not_listed `{OsPath} `{CaseMapping}
    (flt : option nat) (now file_path : string)
    (db db' : DatabaseManager.database) :
  (∀ p, normpath (normpath p) = normpath p) →
  NoDup (map DatabaseManager.IMAGES.file_path (DatabaseManager.images db)) →
  DatabaseManager.save_tags_to_db flt now file_path [] db = (Return true, db') →
  (∃ r, r ∈ DatabaseManager.images db' ∧
        DatabaseManager.IMAGES.file_path r = normpath file_path ∧
        ∀ t, t ∈ DatabaseManager.tags db' →
             DatabaseManager.TAGS.image_id t ≠ DatabaseManager.IMAGES.image_id r) ∧
  normpath file_path ∈ DatabaseManager.get_all_indexed_file_paths None db' ∧
  (∀ lflt item,
     item ∈ DatabaseManager.get_all_indexed_images lflt db' →
     DatabaseManager.file_path item ≠ normpath file_path) ∧
  (∀ dict sflt cn sel en fn lo hi fav item,
     item ∈ App.filtered_raw_results
              (App.search_images_wrapper dict db' sflt cn sel en fn lo hi fav) →
     DatabaseManager.file_path item ≠ normpath file_path) ∧
  (∀ lflt db0 r item,
     r ∈ DatabaseManager.images db0 →
     (∀ t, t ∈ DatabaseManager.tags db0 →
           DatabaseManager.TAGS.image_id t ≠ DatabaseManager.IMAGES.image_id r) →
     item ∈ DatabaseManager.get_all_indexed_images lflt db0 →
     DatabaseManager.image_id item ≠ DatabaseManager.IMAGES.image_id r).
Proof.
  intros Hidem Hnd Hsave.
  destruct (SaveFacts.save_tags_to_db_outcome flt now file_path [] db)
    as [Hok|Hfail]; [|congruence].
  rewrite Hok in Hsave. injection Hsave as <-.
  destruct (EmptySaveFacts.replaced_empty (normpath file_path) now db Hnd)
    as (r & Hr & Hp & Hnone).
  assert (Hin : r ∈ DatabaseManager.images
                      (Store.replaced (normpath file_path) now [] db)).
  { assert (Hin : r ∈ [r]) by by left. rewrite <- Hr in Hin.
    by apply RowFacts.elem_of_filter in Hin as [? _]. }
  assert (Hlisted : ∀ item,
            item ∈ DatabaseManager.get_all_indexed_images None
                     (Store.replaced (normpath file_path) now [] db) →
            DatabaseManager.file_path item ≠ normpath file_path).
  { intros item Hitem Hpath.
    apply ListingFacts.listing_sound in Hitem
      as (t & r' & Ht & Hr' & Heq & _ & Hp' & _).
    assert (Hsame : r' ∈ [r]).
    { rewrite <- Hr. apply RowFacts.elem_of_filter. split; [done|].
      apply bool_decide_eq_true. congruence. }
    apply list_elem_of_singleton in Hsame as ->.
    apply (Hnone t Ht). congruence. }
  split_and!.
  - by exists r.
  - rewrite EmptySaveFacts.paths_no_fault. apply elem_of_list_to_set.
    apply list_elem_of_fmap. exists (normpath file_path). split; [done|].
    apply list_elem_of_fmap. by exists r.
  - intros lflt item Hitem.
    destruct (ListingFacts.listing_fault lflt
                (Store.replaced (normpath file_path) now [] db)) as [Hf|Hf];
      rewrite Hf in Hitem; [by apply elem_of_nil in Hitem|by apply Hlisted].
  - intros dict sflt cn sel en fn lo hi fav item Hitem.
    apply AppFacts.search_results_listed in Hitem. by apply Hlisted.
  - intros lflt db0 r0 item. apply EmptySaveFacts.tagless_not_listed.
Qed.

Lemma C10_empty_save_indexed_not_listed_witness :
  "/pics/c.gif" ∈
    @DatabaseManager.get_all_indexed_file_paths Sample.os None
      (snd (@DatabaseManager.save_tags_to_db Sample.os None
              "2024-01-01T00:00:00" "/pics/c.gif" []
              DatabaseManager.empty_database)) ∧
  ∀ item,
    item ∈ DatabaseManager.get_all_indexed_images None
             (snd (@DatabaseManager.save_tags_to_db Sample.os None
                     "2024-01-01T00:00:00" "/pics/c.gif" []
                     DatabaseManager.empty_database)) →
    DatabaseManager.file_path item ≠ "/pics/c.gif".
Proof.
  destruct (@C10_empty_save_indexed_not_listed Sample.os Sample.casing None
              "2024-01-01T00:00:00" "/pics/c.gif"
              DatabaseManager.empty_database
              (snd (@DatabaseManager.save_tags_to_db Sample.os None
                      "2024-01-01T00:00:00" "/pics/c.gif" []
                      DatabaseManager.empty_database)))
    as (_ & Hpaths & Hlisted & _).
  - reflexivity.
  - simpl. apply NoDup_nil_2.
  - reflexivity.
  - split; [exact Hpaths|]. intros item. apply (Hlisted None).
Defined.

(** * The tag dictionary *)

Example load_sample :
  @DictionaryManager._load_dictionary Sample.casing (Some Sample.sheet) =
  {| DictionaryManager._cn_to_en_tag := [("mao", "cat"); ("maozi", "hat")];
     DictionaryManager._en_to_cn_tag := [("cat", "mao"); ("hat", "maozi")];
     DictionaryManager._all_cn_tags := ["mao"; "maozi"] |}.
Proof. reflexivity. Qed.

Example suggestions_sample :
  DictionaryManager.fuzzy_lookup_suggestions
    (@DictionaryManager._load_dictionary Sample.casing (Some Sample.sheet)) " mao "
    (Some {["hat"]}) = ["maozi"].
Proof. vm_compute. reflexivity. Qed.

(** C7 as the specification states it fails on a sheet with two terms for
    one tag: [("mao", "cat")] is a loaded entry, and it is an entry of the
    term-to-tag map after the load, but its tag translates to the term of
    the later entry [("miao", "cat")]. *)
Lemma C7_round_trip_duplicate_tag_counterexample :
  ("mao", "cat") ∈ @DictionaryManager.cleaned Sample.casing Sample.two_terms_one_tag ∧
  PyDict.get "mao"
    (DictionaryManager._cn_to_en_tag
       (@DictionaryManager._load_dictionary Sample.casing (Some Sample.two_terms_one_tag))) =
    Some "cat" ∧
  DictionaryManager.lookup_en_to_cn
    (@DictionaryManager._load_dictionary Sample.casing (Some Sample.two_terms_one_tag))
    "cat" = Some "miao" ∧
  ¬ (∀ term tag,
       (term, tag) ∈ @DictionaryManager.cleaned Sample.casing Sample.two_terms_one_tag →
       DictionaryManager.lookup_en_to_cn
         (@DictionaryManager._load_dictionary Sample.casing (Some Sample.two_terms_one_tag))
         tag = Some term).
Proof.
  assert (Hin : ("mao", "cat") ∈
                @DictionaryManager.cleaned Sample.casing Sample.two_terms_one_tag).
  { vm_compute. by left. }
  split_and!; [exact Hin|reflexivity|reflexivity|].
  intros Hall. specialize (Hall "mao" "cat" Hin). vm_compute in Hall.
  discriminate Hall.
Qed.

(** C7, amended. For every entry (term, tag) loaded from the source: the
    term is a known term; when no later entry has the same term and the tag
    is not empty, resolving the term gives exactly the tag; when no later
    entry has the same tag, translating the tag gives the term. So on
    duplicate keys the last-loaded entry wins, and a lookup in either
    direction gives at most one counterpart. *)
Theorem C7_last_loaded_entry_wins `{CaseMapping}
    (df : list (option string * option string))
    (before : list (string * string)) (term tag : string)
    (after : list (string * string)) :
  DictionaryManager.cleaned df = before ++ (term, tag) :: after →
  let dict := DictionaryManager._load_dictionary (Some df) in
  DictionaryManager.is_cn_tag dict term = true ∧
  (term ∉ after.*1 → PyStr.truthy tag = true →
   DictionaryManager.get_search_tags_from_cn_list dict [term] = [tag]) ∧
  (tag ∉ after.*2 →
   DictionaryManager.lookup_en_to_cn dict tag = Some term) ∧
  (∀ t, (length (DictionaryManager.get_search_tags_from_cn_list dict [t]) ≤ 1)%nat).
Proof.
  intros Hentries dict. subst dict.
  unfold DictionaryManager._load_dictionary, DictionaryManager.is_cn_tag,
    DictionaryManager.lookup_en_to_cn.
  cbn [DictionaryManager._cn_to_en_tag DictionaryManager._en_to_cn_tag].
  rewrite Hentries. split_and!.
  - apply DictionaryFacts.load_key.
  - intros Hlast Htag. rewrite DictionaryFacts.resolve_one.
    cbn [DictionaryManager._cn_to_en_tag].
    rewrite DictionaryFacts.load_last_cn by done. by rewrite Htag.
  - intros Hlast. by apply DictionaryFacts.load_last_en.
  - intros t. rewrite DictionaryFacts.resolve_one.
    destruct (PyDict.get _ _) as [en_tag|]; [|simpl; lia].
    destruct (PyStr.truthy en_tag); simpl; lia.
Qed.

Lemma C7_last_loaded_entry_wins_witness :
  @DictionaryManager.cleaned Sample.casing Sample.two_terms_one_tag =
    [("mao", "cat")] ++ ("miao", "cat") :: [] ∧
  DictionaryManager.is_cn_tag
    (@DictionaryManager._load_dictionary Sample.casing (Some Sample.two_terms_one_tag))
    "miao" = true ∧
  DictionaryManager.get_search_tags_from_cn_list
    (@DictionaryManager._load_dictionary Sample.casing (Some Sample.two_terms_one_tag))
    ["miao"] = ["cat"] ∧
  DictionaryManager.lookup_en_to_cn
    (@DictionaryManager._load_dictionary Sample.casing (Some Sample.two_terms_one_tag))
    "cat" = Some "miao".
Proof.
  assert (Hentries : @DictionaryManager.cleaned Sample.casing Sample.two_terms_one_tag =
                     [("mao", "cat")] ++ ("miao", "cat") :: []).
  { reflexivity. }
  destruct (C7_last_loaded_entry_wins Sample.two_terms_one_tag
              [("mao", "cat")] "miao" "cat" [] Hentries)
    as (Hknown & Hresolve & Htranslate & _).
  split_and!; [exact Hentries|exact Hknown| |].
  - apply Hresolve; [|reflexivity]. simpl. apply not_elem_of_nil.
  - apply Htranslate. simpl. apply not_elem_of_nil.
Defined.

(** * The scan engine *)

Module ScanFacts.
Import ScanEngine.

(** In a sorted list, an earlier element is below a later one. *)
Lemma sorted_lookup (l : list nat) :
  StronglySorted le l →
  ∀ i j a b, (i ≤ j)%nat → l !! i = Some a → l !! j = Some b → (a ≤ b)%nat.
Proof.
  induction 1 as [|x l Hsorted IH Hall]; intros i j a b Hij Ha Hb.
  - by rewrite lookup_nil in Ha.
  - destruct i as [|i], j as [|j]; simpl in *.
    + injection Ha as <-. injection Hb as <-. done.
    + injection Ha as <-. apply list_elem_of_lookup_2 in Hb.
      by apply (proj1 (Forall_forall _ _) Hall).
    + lia.
    + apply (IH i j); [lia|done..].
Qed.

Lemma statuses_app ev1 ev2 : statuses (ev1 ++ ev2) = statuses ev1 ++ statuses ev2.
Proof. apply omap_app. Qed.

Lemma processed_app ev1 ev2 :
  processed (ev1 ++ ev2) = processed ev1 ++ processed ev2.
Proof. apply omap_app. Qed.

Section Runs.
Context `{OsPath} `{TagProcessor}.

(** Tagging and saving a file touches no status and hands exactly this file
    to the tagging model. *)
Lemma tag_and_save_events o i n file_path db :
  statuses (snd (tag_and_save o i n file_path db)) = [] ∧
  processed (snd (tag_and_save o i n file_path db)) = [file_path].
Proof.
  unfold tag_and_save.
  destruct (process_image file_path) as [[p tags_list]|]; [|done].
  destruct (nonempty tags_list); [|done].
  by destruct (DatabaseManager.save_tags_to_db _ _ _ _ _) as [[[|]|] db'].
Qed.

(** The loop hands files of its list to the tagging model, in order; all of
    them when it ends normally. *)
Lemma scan_files_processed o cb total n :
  ∀ files i st db st' db' ev ok,
    scan_files o cb total n i files st db = (st', db', ev, ok) →
    (∀ p, p ∈ processed ev → p ∈ files) ∧
    (ok = true → processed ev = files).
Proof.
  induction files as [|file_path files IH]; intros i st db st' db' ev ok; simpl.
  - intros [= <- <- <- <-]. split; [by intros p ?%elem_of_nil|done].
  - destruct (tag_and_save o i n file_path db) as [db1 ev1] eqn:Htag.
    pose proof (tag_and_save_events o i n file_path db) as [_ Hp].
    rewrite Htag in Hp. simpl in Hp.
    destruct cb as [callback|].
    + destruct (callback (advanced total st)) as [u|].
      * destruct (scan_files _ _ _ _ _ files _ db1) as [[[st2 db2] ev3] ok2]
          eqn:Hrest.
        intros [= <- <- <- <-]. apply IH in Hrest as [Hin Hall].
        rewrite !processed_app, Hp. simpl. split.
        -- intros p [->|Hp']%elem_of_cons; [by left|]. right. by apply Hin.
        -- intros Hok. by rewrite Hall.
      * intros [= <- <- <- <-]. rewrite !processed_app, Hp. simpl.
        split; [|done]. intros p ->%list_elem_of_singleton. by left.
    + destruct (scan_files _ _ _ _ _ files _ db1) as [[[st2 db2] ev3] ok2]
        eqn:Hrest.
      intros [= <- <- <- <-]. apply IH in Hrest as [Hin Hall].
      rewrite !processed_app, Hp. simpl. split.
      * intros p [->|Hp']%elem_of_cons; [by left|]. right. by apply Hin.
      * intros Hok. by rewrite Hall.
Qed.

(** Without callback the loop ends normally. *)
Lemma scan_files_no_callback o total n :
  ∀ files i st db,
    snd (scan_files o None total n i files st db) = true.
Proof.
  induction files as [|file_path files IH]; intros i st db; simpl; [done|].
  destruct (tag_and_save o i n file_path db) as [db1 ev1].
  specialize (IH (S i) (advanced total st) db1).
  by destruct (scan_files _ _ _ _ _ files _ db1) as [[[st2 db2] ev3] ok2].
Qed.

(** During the loop the engine stays scanning, the total stays what it is
    and the number of processed files goes up. *)
Lemma scan_files_progress o cb total n :
  ∀ files i st db st' db' ev ok,
    scan_files o cb total n i files st db = (st', db', ev, ok) →
    Forall (fun s => is_scanning s = is_scanning st) (statuses ev) ∧
    StronglySorted le (files_processed st :: map files_processed (statuses ev)) ∧
    total_files st' = total_files st ∧ folder st' = folder st.
Proof.
  induction files as [|file_path files IH]; intros i st db st' db' ev ok; simpl.
  - intros [= <- <- <- <-]. simpl. split_and!; [done| |done..].
    repeat constructor.
  - destruct (tag_and_save o i n file_path db) as [db1 ev1] eqn:Htag.
    pose proof (tag_and_save_events o i n file_path db) as [Hs _].
    rewrite Htag in Hs. simpl in Hs.
    assert (Hone : StronglySorted le
                     [files_processed st; files_processed (advanced total st)]).
    { constructor; [repeat constructor|]. constructor; [|done].
      simpl. lia. }
    assert (Hstep : ∀ rest,
              StronglySorted le (files_processed (advanced total st) :: rest) →
              StronglySorted le
                (files_processed st :: files_processed (advanced total st) :: rest)).
    { intros rest Hrest. constructor; [done|].
      apply StronglySorted_inv in Hrest as [_ Hall].
      constructor; [simpl; lia|].
      eapply Forall_impl; [exact Hall|]. simpl. intros; lia. }
    destruct cb as [callback|].
    + destruct (callback (advanced total st)) as [u|].
      * destruct (scan_files _ _ _ _ _ files _ db1) as [[[st2 db2] ev3] ok2]
          eqn:Hrest.
        intros [= <- <- <- <-].
        apply IH in Hrest as (Hscan & Hsorted & Htotal & Hfolder).
        rewrite !statuses_app, Hs. simpl. split_and!; [|by apply Hstep|done..].
        constructor; [done|]. exact Hscan.
      * intros [= <- <- <- <-]. rewrite !statuses_app, Hs. simpl.
        split_and!; [|done..]. by constructor.
    + destruct (scan_files _ _ _ _ _ files _ db1) as [[[st2 db2] ev3] ok2]
        eqn:Hrest.
      intros [= <- <- <- <-].
      apply IH in Hrest as (Hscan & Hsorted & Htotal & Hfolder).
      rewrite !statuses_app, Hs. simpl. split_and!; [|by apply Hstep|done..].
      constructor; [done|]. exact Hscan.
Qed.

(** The files to scan of a scan that is not forced: the discovered files
    that are not indexed. *)
Lemma elem_of_to_scan already all p :
  p ∈ to_scan false already all ↔ p ∈ all ∧ p ∉ already.
Proof.
  unfold to_scan. rewrite RowFacts.elem_of_filter. simpl.
  rewrite negb_true_iff, bool_decide_eq_false. done.
Qed.

(** A forced scan scans every discovered file. *)
Lemma to_scan_forced already all : to_scan true already all = all.
Proof.
  unfold to_scan. simpl. induction all as [|p all IH]; simpl; [done|].
  by rewrite IH.
Qed.

End Runs.

End ScanFacts.

(** ** The store stays well formed *)

Module InvariantFacts.
Import DatabaseManager Store.

Lemma empty_well_formed : well_formed empty_database.
Proof.
  split_and!; simpl; [apply NoDup_nil_2..|apply Forall_nil_2].
Qed.

(** A toggle commits the update or nothing. *)
Lemma toggle_outcome flt id db :
  snd (toggle_favorite_status flt id db) = db ∨
  snd (toggle_favorite_status flt id db) = snd (update_favorite id db).
Proof.
  unfold toggle_favorite_status, toggle_favorite_transaction, bind, execute,
    commit, faulty, _get_connection, select_is_favorite, close, rollback.
  simpl. destruct (bool_decide (flt = Some 0%nat)); [by left|]. simpl.
  destruct (bool_decide (flt = Some 1%nat)); [by left|]. simpl.
  destruct (bool_decide (flt = Some 2%nat)); [by left|]. simpl.
  destruct (bool_decide (flt = Some 3%nat)); [by left|]. simpl.
  right. by destruct (head _).
Qed.

Lemma toggle_well_formed flt id db :
  well_formed db → well_formed (snd (toggle_favorite_status flt id db)).
Proof.
  intros Hwf. destruct (toggle_outcome flt id db) as [-> | ->]; [done|].
  by apply ToggleFacts.update_favorite_well_formed.
Qed.

Section Runs.
Context `{OsPath} `{TagProcessor}.

Lemma save_well_formed flt now file_path new_tags db :
  well_formed db →
  well_formed (snd (save_tags_to_db flt now file_path new_tags db)).
Proof.
  intros Hwf.
  destruct (SaveFacts.save_tags_to_db_outcome flt now file_path new_tags db)
    as [-> | ->]; [|done].
  by apply SaveFacts.replaced_well_formed.
Qed.

Lemma tag_and_save_well_formed o i n file_path db :
  well_formed db →
  well_formed (fst (ScanEngine.tag_and_save o i n file_path db)).
Proof.
  intros Hwf. unfold ScanEngine.tag_and_save.
  destruct (process_image file_path) as [[p tags_list]|]; [|done].
  destruct (nonempty tags_list); [|done].
  pose proof (save_well_formed (ScanEngine.save_fault o i)
                (ScanEngine.clock o i) file_path tags_list db Hwf) as Hsave.
  by destruct (save_tags_to_db _ _ _ _ _) as [[[|]|] db'].
Qed.

Lemma scan_files_well_formed o cb total n :
  ∀ files i st db st' db' ev ok,
    ScanEngine.scan_files o cb total n i files st db = (st', db', ev, ok) →
    well_formed db → well_formed db'.
Proof.
  induction files as [|file_path files IH]; intros i st db st' db' ev ok; simpl.
  - by intros [= <- <- <- <-].
  - pose proof (tag_and_save_well_formed o i n file_path db) as Hstep.
    destruct (ScanEngine.tag_and_save o i n file_path db) as [db1 ev1].
    simpl in Hstep. destruct cb as [callback|].
    + destruct (callback (ScanEngine.advanced total st)) as [u|].
      * destruct (ScanEngine.scan_files _ _ _ _ _ files _ db1)
          as [[[st2 db2] ev3] ok2] eqn:Hrest.
        intros [= <- <- <- <-] Hwf. eapply IH; [exact Hrest|by apply Hstep].
      * intros [= <- <- <- <-] Hwf. by apply Hstep.
    + destruct (ScanEngine.scan_files _ _ _ _ _ files _ db1)
        as [[[st2 db2] ev3] ok2] eqn:Hrest.
      intros [= <- <- <- <-] Hwf. eapply IH; [exact Hrest|by apply Hstep].
Qed.

(** A scan leaves a well-formed store well formed. *)
Lemma start_scan_well_formed folder_path cb force_rescan o self :
  well_formed (ScanEngine.db_manager self) →
  well_formed
    (ScanEngine.db_manager
       (fst (ScanEngine.start_scan folder_path cb force_rescan o self))).
Proof.
  intros Hwf. unfold ScanEngine.start_scan.
  destruct (ScanEngine.is_scanning _); [done|].
  destruct (isdir folder_path); [|done]. cbv zeta. cbn [negb]. cbv iota.
  destruct (ScanEngine.scan_files _ _ _ _ _ _ _ _)
    as [[[st2 db2] ev3] ok] eqn:Hscan.
  simpl. by apply scan_files_well_formed in Hscan.
Qed.

End Runs.

End InvariantFacts.

Example incremental_scan_sample :
  ScanEngine.processed
    (snd (@ScanEngine.start_scan Sample.os Sample.tagger "/pics" None false
            Sample.quiet (Sample.fresh Sample.one_image))) = ["/pics/b.PNG"] ∧
  ScanEngine.processed
    (snd (@ScanEngine.start_scan Sample.os Sample.tagger "/pics" None true
            Sample.quiet (Sample.fresh Sample.one_image))) =
    ["/pics/a.jpg"; "/pics/b.PNG"].
Proof. split; vm_compute; reflexivity. Qed.

(** The percentage is computed on floats: 29 of 100 files are 28 percent. *)
Example percent_sample :
  PyFloat.percent 29 100 = 28 ∧ PyFloat.percent 1 3 = 33.
Proof. split; vm_compute; reflexivity. Qed.

(** C1. In a scan that is not forced, no path of the set that
    [get_all_indexed_file_paths] returns at the start of the scan is handed
    to [process_image]; every path handed to it is a discovered file outside
    that set; and a scan of a directory that runs to its end (idle engine, no
    callback) hands over exactly the discovered files outside that set, in
    the order of the enumeration. *)
Theorem C1_skip_set `{OsPath} `{TagProcessor}
    (folder_path : string)
    (progress_callback : option (ScanEngine.status → returned unit))
    (o : ScanEngine.oracle) (self : ScanEngine.engine) :
  let indexed :=
    DatabaseManager.get_all_indexed_file_paths (ScanEngine.paths_fault o)
      (ScanEngine.db_manager self) in
  let trace :=
    snd (ScanEngine.start_scan folder_path progress_callback false o self) in
  (∀ p, p ∈ indexed → p ∉ ScanEngine.processed trace) ∧
  (∀ p, p ∈ ScanEngine.processed trace →
        p ∈ ScanEngine.discover folder_path ∧ p ∉ indexed) ∧
  (ScanEngine.is_scanning (ScanEngine.status_of self) = false →
   isdir folder_path = true →
   progress_callback = None →
   ScanEngine.processed trace =
     List.filter (fun p => negb (bool_decide (p ∈ indexed)))
       (ScanEngine.discover folder_path)).
Proof.
  intros indexed trace.
  assert (Hprocessed : ∀ p, p ∈ ScanEngine.processed trace →
            p ∈ ScanEngine.discover folder_path ∧ p ∉ indexed).
  { subst trace. unfold ScanEngine.start_scan.
    destruct (ScanEngine.is_scanning _); [by intros p ?%elem_of_nil|].
    destruct (isdir folder_path); [|by intros p ?%elem_of_nil].
    cbv zeta. cbn [negb]. cbv iota. fold indexed.
    destruct (ScanEngine.scan_files _ _ _ _ _ _ _ _)
      as [[[st2 db2] ev3] ok] eqn:Hscan.
    apply ScanFacts.scan_files_processed in Hscan as [Hin _].
    cbn [snd]. rewrite !ScanFacts.processed_app. simpl.
    intros p Hp. apply ScanFacts.elem_of_to_scan, Hin.
    destruct ok; simpl in Hp; rewrite ?app_nil_r in Hp; done. }
  split_and!.
  - intros p Hp Hproc. by apply Hprocessed in Hproc as [_ Hnot].
  - exact Hprocessed.
  - intros Hidle Hdir ->. subst trace. unfold ScanEngine.start_scan.
    rewrite Hidle, Hdir. cbv zeta. cbn [negb]. cbv iota. fold indexed.
    pose proof (ScanFacts.scan_files_no_callback o
                  (length (ScanEngine.discover folder_path))
                  (length (ScanEngine.to_scan false indexed
                             (ScanEngine.discover folder_path)))
                  (ScanEngine.to_scan false indexed
                     (ScanEngine.discover folder_path)) 0
                  (ScanEngine.enumerated false indexed
                     (ScanEngine.discover folder_path)
                     {| ScanEngine.is_scanning := true;
                        ScanEngine.total_files := 0;
                        ScanEngine.files_processed := 0;
                        ScanEngine.progress_percent := 0;
                        ScanEngine.folder := folder_path |})
                  (ScanEngine.db_manager self)) as Hok.
    cbn [ScanEngine.total_files ScanEngine.enumerated].
    cbn [ScanEngine.total_files ScanEngine.enumerated] in Hok.
    destruct (ScanEngine.scan_files _ _ _ _ _ _ _ _)
      as [[[st2 db2] ev3] ok] eqn:Hscan.
    simpl in Hok. subst ok.
    apply ScanFacts.scan_files_processed in Hscan as [_ Hall].
    cbn [snd]. rewrite !ScanFacts.processed_app. simpl.
    rewrite app_nil_r. by rewrite Hall.
Qed.

Lemma C1_skip_set_witness :
  ScanEngine.processed
    (snd (@ScanEngine.start_scan Sample.os Sample.tagger "/pics" None false
            Sample.quiet (Sample.fresh Sample.one_image))) =
  List.filter
    (fun p =>
       negb (bool_decide
               (p ∈ @DatabaseManager.get_all_indexed_file_paths Sample.os None
                      Sample.one_image)))
    (@ScanEngine.discover Sample.os "/pics").
Proof.
  destruct (@C1_skip_set Sample.os Sample.tagger "/pics" None Sample.quiet
              (Sample.fresh Sample.one_image)) as (_ & _ & Hall).
  apply Hall; reflexivity.
Defined.

(** C3 as the specification states it fails when the index holds a path
    that is not under the folder: with [/other/x.jpg] indexed and two new
    files under [/pics], the enumeration sets files-processed to 1, although
    none of the discovered files is indexed. *)
Lemma C3_counts_whole_index_counterexample :
  ScanEngine.files_processed <$>
    ScanEngine.statuses
      (snd (@ScanEngine.start_scan Sample.os Sample.tagger "/pics" None false
              Sample.quiet (Sample.fresh Sample.elsewhere))) !! 1%nat =
  Some 1%nat ∧
  length
    (List.filter
       (fun p =>
          bool_decide
            (p ∈ @DatabaseManager.get_all_indexed_file_paths Sample.os None
                   Sample.elsewhere))
       (@ScanEngine.discover Sample.os "/pics")) = 0%nat.
Proof. split; vm_compute; reflexivity. Qed.

(** C3, amended. When [start_scan] enumerates the folder (idle engine, valid
    directory), the status it then writes has total-files equal to the number
    of all discovered supported files under the folder, and files-processed
    equal to 0 when the scan is forced and otherwise to the number of paths
    that [get_all_indexed_file_paths] returned, discovered under the folder
    or not. *)
Theorem C3_enumeration_counters `{OsPath} `{TagProcessor}
    (folder_path : string)
    (progress_callback : option (ScanEngine.status → returned unit))
    (force_rescan : bool) (o : ScanEngine.oracle) (self : ScanEngine.engine) :
  ScanEngine.is_scanning (ScanEngine.status_of self) = false →
  isdir folder_path = true →
  ∃ s,
    ScanEngine.statuses
      (snd (ScanEngine.start_scan folder_path progress_callback force_rescan
              o self)) !! 1%nat = Some s ∧
    ScanEngine.total_files s = length (ScanEngine.discover folder_path) ∧
    ScanEngine.files_processed s =
      if force_rescan then 0%nat
      else size (DatabaseManager.get_all_indexed_file_paths
                   (ScanEngine.paths_fault o) (ScanEngine.db_manager self)).
Proof.
  intros Hidle Hdir. unfold ScanEngine.start_scan. rewrite Hidle, Hdir.
  cbv zeta. cbn [negb]. cbv iota.
  destruct (ScanEngine.scan_files _ _ _ _ _ _ _ _)
    as [[[st2 db2] ev3] ok] eqn:Hscan.
  cbn [snd]. rewrite !ScanFacts.statuses_app.
  clear Hscan. destruct force_rescan; simpl; eexists; (split; [reflexivity|done]).
Qed.

Lemma C3_enumeration_counters_witness :
  ∃ s,
    ScanEngine.statuses
      (snd (@ScanEngine.start_scan Sample.os Sample.tagger "/pics" None false
              Sample.quiet (Sample.fresh Sample.elsewhere))) !! 1%nat = Some s ∧
    ScanEngine.total_files s = length (@ScanEngine.discover Sample.os "/pics") ∧
    ScanEngine.files_processed s =
      size (@DatabaseManager.get_all_indexed_file_paths Sample.os None
              Sample.elsewhere).
Proof.
  apply (@C3_enumeration_counters Sample.os Sample.tagger "/pics" None false
           Sample.quiet (Sample.fresh Sample.elsewhere)); reflexivity.
Defined.

(** The number of processed files can pass the total while the scan runs and
    come back to it at the end: one path indexed elsewhere, two new files. *)
Example progress_overshoot_sample :
  ScanEngine.files_processed <$>
    ScanEngine.statuses
      (snd (@ScanEngine.start_scan Sample.os Sample.tagger "/pics" None false
              Sample.quiet (Sample.fresh Sample.elsewhere))) =
  [0; 1; 2; 3; 2]%nat.
Proof. vm_compute. reflexivity. Qed.

(** C4. In a scan (a run of [start_scan] on an idle engine), the statuses a
    poll of [get_status] can see are the statuses of the run in their order:
    all but the last have is-scanning set, and their files-processed values
    never decrease; the last is the terminal status, in which is-scanning is
    off and files-processed is total-files and progress-percent is 100 when
    total-files is positive, and both are 0 when it is 0. This holds too when
    the progress callback raises in the middle of the scan. *)
Theorem C4_progress_monotone_and_terminal `{OsPath} `{TagProcessor}
    (folder_path : string)
    (progress_callback : option (ScanEngine.status → returned unit))
    (force_rescan : bool) (o : ScanEngine.oracle) (self : ScanEngine.engine) :
  ScanEngine.is_scanning (ScanEngine.status_of self) = false →
  let run :=
    ScanEngine.start_scan folder_path progress_callback force_rescan o self in
  let observed := ScanEngine.statuses (snd run) in
  let during := List.filter ScanEngine.is_scanning observed in
  let final := ScanEngine.status_of (fst run) in
  observed = during ++ [final] ∧
  (∀ i j a b,
     (i ≤ j)%nat →
     (ScanEngine.files_processed <$> during) !! i = Some a →
     (ScanEngine.files_processed <$> during) !! j = Some b →
     (a ≤ b)%nat) ∧
  ScanEngine.is_scanning final = false ∧
  ((0 < ScanEngine.total_files final)%nat →
   ScanEngine.files_processed final = ScanEngine.total_files final ∧
   ScanEngine.progress_percent final = 100) ∧
  (ScanEngine.total_files final = 0%nat →
   ScanEngine.files_processed final = 0%nat ∧
   ScanEngine.progress_percent final = 0).
Proof.
  intros Hidle run observed during final.
  subst during final observed run. unfold ScanEngine.start_scan.
  rewrite Hidle. destruct (isdir folder_path); cbn [negb]; cbv iota.
  - cbv zeta.
    destruct (ScanEngine.scan_files _ _ _ _ _ _ _ _)
      as [[[st2 db2] ev3] ok] eqn:Hscan.
    apply ScanFacts.scan_files_progress in Hscan
      as (Hscanning & Hsorted & Htotal & _).
    cbn [fst snd ScanEngine.status_of]. rewrite !ScanFacts.statuses_app.
    assert (Hev1 : ∀ n, ScanEngine.statuses
                     (if force_rescan then [ScanEngine.Print ScanEngine.ForcedRescan]
                      else [ScanEngine.Print ScanEngine.CheckingIndex;
                            ScanEngine.Print (ScanEngine.FoundIndexed n)]) = []).
    { intros n. by destruct force_rescan. }
    assert (Hev4 : ScanEngine.statuses
                     (if ok then []
                      else [ScanEngine.Print ScanEngine.UnknownError]) = []).
    { by destruct ok. }
    rewrite Hev1, Hev4. simpl.
    assert (Hkeep : List.filter ScanEngine.is_scanning
                      (ScanEngine.statuses ev3 ++ [ScanEngine.finished st2]) =
                    ScanEngine.statuses ev3).
    { rewrite List.filter_app. simpl. rewrite app_nil_r.
      clear Hsorted. induction Hscanning as [|s l Hs Hl IH]; simpl; [done|].
      simpl in Hs. rewrite Hs. by rewrite IH. }
    rewrite Hkeep. split_and!.
    + done.
    + apply ScanFacts.sorted_lookup. simpl.
      constructor; [exact Hsorted|]. apply Forall_forall. intros; lia.
    + done.
    + simpl. intros Hpos. apply Nat.ltb_lt in Hpos. by rewrite Hpos.
    + simpl. by intros ->.
  - simpl. split_and!; [done| |done|lia|done].
    intros [|i] [|j] a b Hij; simpl; try done; try lia.
    by intros [= <-] [= <-].
Qed.

Lemma C4_progress_monotone_and_terminal_witness :
  ScanEngine.files_processed <$>
    List.filter ScanEngine.is_scanning
      (ScanEngine.statuses
         (snd (@ScanEngine.start_scan Sample.os Sample.tagger "/pics" None true
                 Sample.quiet (Sample.fresh Sample.one_image)))) =
    [0; 0; 1; 2]%nat ∧
  ∀ i j a b,
    (i ≤ j)%nat →
    (ScanEngine.files_processed <$>
       List.filter ScanEngine.is_scanning
         (ScanEngine.statuses
            (snd (@ScanEngine.start_scan Sample.os Sample.tagger "/pics" None
                    true Sample.quiet (Sample.fresh Sample.one_image)))))
      !! i = Some a →
    (ScanEngine.files_processed <$>
       List.filter ScanEngine.is_scanning
         (ScanEngine.statuses
            (snd (@ScanEngine.start_scan Sample.os Sample.tagger "/pics" None
                    true Sample.quiet (Sample.fresh Sample.one_image)))))
      !! j = Some b →
    (a ≤ b)%nat.
Proof.
  split; [vm_compute; reflexivity|].
  apply (@C4_progress_monotone_and_terminal Sample.os Sample.tagger "/pics"
           None true Sample.quiet (Sample.fresh Sample.one_image)).
  reflexivity.
Defined.

(** C8 as the specification states it fails: a scan of a folder that is not
    a directory, started on an idle engine that has scanned before, goes
    through a status with is-scanning set, and leaves the counters at zero
    and the folder changed. *)
Lemma C8_invalid_folder_changes_status_counterexample :
  @isdir Sample.os "/nowhere" = false ∧
  (∃ s, s ∈ ScanEngine.statuses
              (snd (@ScanEngine.start_scan Sample.os Sample.tagger "/nowhere"
                      None false Sample.quiet
                      (Sample.idle_after_scan Sample.one_image))) ∧
        ScanEngine.is_scanning s = true) ∧
  ScanEngine.status_of
    (fst (@ScanEngine.start_scan Sample.os Sample.tagger "/nowhere" None false
            Sample.quiet (Sample.idle_after_scan Sample.one_image))) ≠
  ScanEngine.status_of (Sample.idle_after_scan Sample.one_image).
Proof.
  split_and!.
  - reflexivity.
  - eexists. split; [vm_compute; by left|reflexivity].
  - vm_compute. discriminate.
Qed.

(** C8, amended. A call of [start_scan] on an idle engine with a folder that
    is not a directory reports the error and returns with is-scanning off; it
    enumerates nothing, hands no file to the tagging model and leaves the
    database as it was. But it first sets is-scanning, zeroes the three
    counters and stores the folder, and only is-scanning is set back. *)
Theorem C8_invalid_folder `{OsPath} `{TagProcessor}
    (folder_path : string)
    (progress_callback : option (ScanEngine.status → returned unit))
    (force_rescan : bool) (o : ScanEngine.oracle) (self : ScanEngine.engine) :
  ScanEngine.is_scanning (ScanEngine.status_of self) = false →
  isdir folder_path = false →
  ScanEngine.start_scan folder_path progress_callback force_rescan o self =
  ({| ScanEngine.status_of :=
        {| ScanEngine.is_scanning := false; ScanEngine.total_files := 0;
           ScanEngine.files_processed := 0; ScanEngine.progress_percent := 0;
           ScanEngine.folder := folder_path |};
      ScanEngine.db_manager := ScanEngine.db_manager self |},
   [ScanEngine.Locked
      {| ScanEngine.is_scanning := true; ScanEngine.total_files := 0;
         ScanEngine.files_processed := 0; ScanEngine.progress_percent := 0;
         ScanEngine.folder := folder_path |};
    ScanEngine.Print (ScanEngine.Started folder_path force_rescan);
    ScanEngine.Locked
      {| ScanEngine.is_scanning := false; ScanEngine.total_files := 0;
         ScanEngine.files_processed := 0; ScanEngine.progress_percent := 0;
         ScanEngine.folder := folder_path |};
    ScanEngine.Print (ScanEngine.InvalidPath folder_path)]).
Proof.
  intros Hidle Hdir. unfold ScanEngine.start_scan. by rewrite Hidle, Hdir.
Qed.

Lemma C8_invalid_folder_witness :
  ScanEngine.processed
    (snd (@ScanEngine.start_scan Sample.os Sample.tagger "/nowhere" None false
            Sample.quiet (Sample.idle_after_scan Sample.one_image))) = [] ∧
  ScanEngine.db_manager
    (fst (@ScanEngine.start_scan Sample.os Sample.tagger "/nowhere" None false
            Sample.quiet (Sample.idle_after_scan Sample.one_image))) =
  Sample.one_image.
Proof.
  rewrite (@C8_invalid_folder Sample.os Sample.tagger "/nowhere" None false
             Sample.quiet (Sample.idle_after_scan Sample.one_image)
             eq_refl eq_refl).
  split; reflexivity.
Defined.

(** * More properties of the store *)

Module StoreFacts.
Import DatabaseManager Store Changes.

Lemma kept_refl db : kept db db.
Proof. intros r Hr. by exists r. Qed.

Lemma kept_trans db1 db2 db3 : kept db1 db2 → kept db2 db3 → kept db1 db3.
Proof.
  intros H12 H23 r Hr. destruct (H12 r Hr) as (r2 & Hr2 & Hid & Hp & Hf).
  destruct (H23 r2 Hr2) as (r3 & Hr3 & Hid' & Hp' & Hf').
  exists r3. split_and!; [done|congruence..].
Qed.

Lemma upsert_keeps_tags p now db : tags (snd (upsert_image p now db)) = tags db.
Proof. unfold upsert_image. by destruct (existsb _ _). Qed.

(** The upsert keeps every row; a row of another path it keeps as it is. *)
Lemma upsert_kept p now db : kept db (snd (upsert_image p now db)).
Proof.
  intros r Hr. rewrite SaveFacts.upsert_images. case_bool_decide.
  - exists (touched p now r). split_and!.
    + apply list_elem_of_fmap. by exists r.
    + apply SaveFacts.touched_id.
    + apply SaveFacts.touched_path.
    + apply SaveFacts.touched_favorite.
  - exists r. split_and!; [|done..]. apply elem_of_app. by left.
Qed.

Lemma touched_other p now r : IMAGES.file_path r ≠ p → touched p now r = r.
Proof.
  intros Hne. unfold touched, has_path. by rewrite bool_decide_eq_false_2.
Qed.

Lemma upsert_other_rows p now db q :
  q ≠ p →
  List.filter (has_path q) (images (snd (upsert_image p now db))) =
  List.filter (has_path q) (images db).
Proof.
  intros Hne. rewrite SaveFacts.upsert_images. case_bool_decide.
  - rewrite RowFacts.filter_fmap.
    rewrite (filter_ext _ (has_path q)).
    + rewrite <- (map_id (List.filter (has_path q) (images db))) at 2.
      apply map_ext_in. intros r Hr. apply filter_In in Hr as [_ Hq].
      apply bool_decide_eq_true in Hq. apply touched_other. congruence.
    + intros r. unfold has_path. by rewrite SaveFacts.touched_path.
  - rewrite List.filter_app. simpl. unfold has_path at 2. simpl.
    rewrite bool_decide_eq_false_2 by done. by rewrite app_nil_r.
Qed.

(** The rows the upsert adds: none, or one for the path, not a favorite,
    with a key that no row had. *)
Lemma upsert_new_row p now db r' :
  r' ∈ images (snd (upsert_image p now db)) →
  IMAGES.image_id r' ∉ map IMAGES.image_id (images db) →
  IMAGES.file_path r' = p ∧ IMAGES.is_favorite r' = 0.
Proof.
  rewrite SaveFacts.upsert_images. case_bool_decide.
  - intros (r & -> & Hr)%list_elem_of_fmap Hnew. exfalso. apply Hnew.
    rewrite SaveFacts.touched_id. apply list_elem_of_fmap. by exists r.
  - intros [Hr| ->%list_elem_of_singleton]%elem_of_app Hnew; [|done].
    exfalso. apply Hnew. apply list_elem_of_fmap. by exists r'.
Qed.

Lemma insert_fold_mono rows d t :
  t ∈ tags d →
  t ∈ tags (fold_left (fun d row => snd (insert_tag row d)) rows d).
Proof.
  revert d. induction rows as [|[[id name] sc] rows IH]; intros d Ht; [done|].
  simpl. apply IH. simpl. apply elem_of_app. by left.
Qed.

Lemma insert_fold_others id id' new_tags d :
  id ≠ id' →
  List.filter (tagged_with id')
    (tags (fold_left (fun d row => snd (insert_tag row d))
             (map (fun t => (id, tag_name t, score t)) new_tags) d)) =
  List.filter (tagged_with id') (tags d).
Proof.
  intros Hne. revert d. induction new_tags as [|t new_tags IH]; intros d; simpl.
  - done.
  - rewrite IH. simpl. rewrite List.filter_app. simpl.
    unfold tagged_with at 2. simpl. rewrite bool_decide_eq_false_2 by done.
    by rewrite app_nil_r.
Qed.

Lemma filter_filter_other {A} (p q : A → bool) l :
  (∀ x, p x = true → q x = false) →
  List.filter p (List.filter (fun x => negb (q x)) l) = List.filter p l.
Proof.
  intros Hpq. induction l as [|x l IH]; simpl; [done|].
  destruct (q x) eqn:Hq; simpl.
  - destruct (p x) eqn:Hp; [|done]. apply Hpq in Hp. congruence.
  - by rewrite IH.
Qed.

(** A committed save keeps every row, with key, path and favorite flag. *)
Lemma replaced_kept p now new_tags db : kept db (replaced p now new_tags db).
Proof.
  intros r Hr. rewrite SaveFacts.replaced_images. by apply upsert_kept.
Qed.

(** A committed save leaves the tag rows of the images of other paths. *)
Lemma replaced_other_tags p now new_tags db r :
  well_formed db → r ∈ images db → IMAGES.file_path r ≠ p →
  List.filter (tagged_with (IMAGES.image_id r))
    (tags (replaced p now new_tags db)) =
  List.filter (tagged_with (IMAGES.image_id r)) (tags db).
Proof.
  intros Hwf Hr Hne.
  pose proof (SaveFacts.upsert_well_formed p now db Hwf) as (_ & Hids1 & _).
  destruct Hwf as (Hpaths & _ & _).
  destruct (SaveFacts.upsert_row p now db Hpaths) as (rp & Hrp & Hp).
  assert (Hin : rp ∈ images (snd (upsert_image p now db))).
  { assert (Hin : rp ∈ [rp]) by by left. rewrite <- Hrp in Hin.
    by apply RowFacts.elem_of_filter in Hin as [? _]. }
  destruct (upsert_kept p now db r Hr) as (r1 & Hr1 & Hid1 & Hp1 & _).
  assert (Hids : IMAGES.image_id rp ≠ IMAGES.image_id r).
  { intros Heq.
    assert (r1 = rp).
    { apply (RowFacts.key_inj IMAGES.image_id rp r1 _ Hids1); [done..|].
      congruence. }
    congruence. }
  rewrite (SaveFacts.replaced_selected p now new_tags db rp Hrp).
  rewrite insert_fold_others by done. unfold delete_tags. cbn [snd tags].
  rewrite upsert_keeps_tags. apply filter_filter_other.
  intros t Ht. apply bool_decide_eq_true in Ht.
  apply bool_decide_eq_false. congruence.
Qed.

Lemma flat_map_ext_in {A B} (f g : A → list B) l :
  (∀ x, x ∈ l → f x = g x) → flat_map f l = flat_map g l.
Proof.
  induction l as [|x l IH]; simpl; [done|]. intros Hfg.
  rewrite Hfg by by left. rewrite IH; [done|]. intros y Hy. apply Hfg. by right.
Qed.

(** A committed save leaves the tags stored for the other paths. *)
Lemma stored_other p now new_tags db q :
  well_formed db → q ≠ p →
  stored_tags (replaced p now new_tags db) q = stored_tags db q.
Proof.
  intros Hwf Hne. unfold stored_tags.
  rewrite SaveFacts.replaced_images, upsert_other_rows by done.
  apply flat_map_ext_in. intros r [Hr Hq]%RowFacts.elem_of_filter.
  apply bool_decide_eq_true in Hq.
  rewrite replaced_other_tags; [done|done|done|congruence].
Qed.

End StoreFacts.

(** ** The listing of a well-formed store *)

Module ListingMoreFacts.
Import DatabaseManager Store.

Lemma filter_perm {A} (p : A → bool) l l' :
  l ≡ₚ l' → List.filter p l ≡ₚ List.filter p l'.
Proof.
  induction 1 as [|x l l' Hl IH|x y l|l1 l2 l3 H12 IH12 H23 IH23]; simpl.
  - done.
  - destruct (p x); [by constructor|done].
  - destruct (p x), (p y); try done. apply Permutation_swap.
  - by etrans.
Qed.

Lemma filter_fmap_nil {A B} (p : B → bool) (h : A → B) l :
  (∀ x, p (h x) = false) → List.filter p (map h l) = [].
Proof.
  intros Hp. induction l as [|x l IH]; simpl; [done|]. by rewrite Hp.
Qed.

(** With a unique key, the joined rows of an image are its tag rows. *)
Lemma tags_for_join db r :
  NoDup (map IMAGES.image_id (images db)) → r ∈ images db →
  tags_for (IMAGES.image_id r) (inner_join db) =
  map to_tag (List.filter (tagged_with (IMAGES.image_id r)) (tags db)).
Proof.
  intros Hnd Hr. unfold tags_for, inner_join.
  induction (tags db) as [|t ts IH]; simpl; [done|].
  rewrite List.filter_app, map_app, IH. unfold tagged_with at 2.
  destruct (decide (TAGS.image_id t = IMAGES.image_id r)) as [Heq|Hne].
  - rewrite bool_decide_eq_true_2 by done. unfold has_id. rewrite Heq.
    rewrite (RowFacts.filter_key_unique IMAGES.image_id) by done. simpl.
    by rewrite bool_decide_eq_true_2.
  - rewrite bool_decide_eq_false_2 by done.
    rewrite filter_fmap_nil; [done|]. intros x. simpl.
    by apply bool_decide_eq_false_2.
Qed.

Section Listing.
Context `{OsPath}.

(** In a store with unique image keys, an image row with a tag row has one
    entry in the listing: its key, its path, its favorite flag and its tags
    (in the order of the scores). *)
Lemma listing_row db r :
  NoDup (map IMAGES.image_id (images db)) → r ∈ images db →
  (∃ t, t ∈ tags db ∧ TAGS.image_id t = IMAGES.image_id r) →
  ∃ item, item ∈ get_all_indexed_images None db ∧
          image_id item = IMAGES.image_id r ∧
          file_path item = IMAGES.file_path r ∧
          is_favorite item = favorite r ∧
          tags_of item ≡ₚ
            map to_tag (List.filter (tagged_with (IMAGES.image_id r)) (tags db)).
Proof.
  intros Hnd Hr (t & Ht & Hid). rewrite ListingFacts.listing_no_fault.
  pose proof (ListingFacts.grouped_all (order_by (inner_join db))) as [_ Hget].
  specialize (Hget (IMAGES.image_id r)).
  destruct (PyDict.get _ _) as [item|] eqn:Hitem.
  - destruct Hget as (Hkey & Htags & row & Hrow & Hk & Hp & Hf).
    exists item. split_and!.
    + apply PyDictFacts.elem_of_get in Hitem.
      unfold PyDict.values. apply list_elem_of_fmap. by eexists (_, _).
    + done.
    + apply ListingFacts.elem_of_order_by, ListingFacts.elem_of_inner_join in Hrow
        as (t' & r' & _ & Hr' & Heq & ->). simpl in *.
      rewrite Hp. f_equal.
      apply (RowFacts.key_inj IMAGES.image_id r r' _ Hnd); [done..|congruence].
    + apply ListingFacts.elem_of_order_by, ListingFacts.elem_of_inner_join in Hrow
        as (t' & r' & _ & Hr' & Heq & ->). simpl in *.
      rewrite Hf. unfold favorite. do 3 f_equal.
      apply (RowFacts.key_inj IMAGES.image_id r r' _ Hnd); [done..|congruence].
    + rewrite Htags, <- tags_for_join by done. unfold tags_for.
      apply Permutation_map, filter_perm, ListingFacts.order_by_perm.
  - exfalso. apply (Hget (join_row t r)); [|done].
    apply ListingFacts.elem_of_order_by, ListingFacts.elem_of_inner_join.
    by exists t, r.
Qed.

(** In a well-formed store, the entries of the listing have different
    paths. *)
Lemma listing_paths db item item' :
  well_formed db →
  item ∈ get_all_indexed_images None db →
  item' ∈ get_all_indexed_images None db →
  file_path item' = file_path item → item' = item.
Proof.
  intros (Hpaths & Hids & _) Hitem Hitem' Hpath.
  pose proof Hitem as Hi. pose proof Hitem' as Hi'.
  apply ListingFacts.listing_sound in Hi as (_ & r & _ & Hr & _ & Hid & Hp & _).
  apply ListingFacts.listing_sound in Hi'
    as (_ & r' & _ & Hr' & _ & Hid' & Hp' & _).
  assert (r' = r).
  { apply (RowFacts.key_inj IMAGES.file_path r r' _ Hpaths); [done..|].
    congruence. }
  subst r'.
  apply (RowFacts.key_inj image_id item item' _
           (ListingFacts.listing_NoDup db)); [done..|congruence].
Qed.

End Listing.

End ListingMoreFacts.

(** X1. A committed save of a non-empty tag list on a well-formed store is
    seen by the next listing of all images: the listing has exactly one
    entry for the normalized path, and its tags are the tags saved, up to
    their order. *)
Theorem save_then_listed `{OsPath}
    (flt : option nat) (now file_path : string)
    (new_tags : list DatabaseManager.tag)
    (db db' : DatabaseManager.database) :
  Store.well_formed db →
  nonempty new_tags = true →
  DatabaseManager.save_tags_to_db flt now file_path new_tags db =
    (Return true, db') →
  ∃ item,
    item ∈ DatabaseManager.get_all_indexed_images None db' ∧
    DatabaseManager.file_path item = normpath file_path ∧
    DatabaseManager.tags_of item ≡ₚ new_tags ∧
    ∀ item', item' ∈ DatabaseManager.get_all_indexed_images None db' →
             DatabaseManager.file_path item' = normpath file_path →
             item' = item.
Proof.
  intros Hwf Hne Hsave.
  destruct (SaveFacts.save_tags_to_db_outcome flt now file_path new_tags db)
    as [Hok|Hfail]; [|congruence].
  rewrite Hok in Hsave. injection Hsave as <-.
  pose proof (SaveFacts.replaced_well_formed (normpath file_path) now new_tags
                db Hwf) as Hwf'.
  destruct Hwf as (Hpaths & _ & _).
  destruct (SaveFacts.upsert_row (normpath file_path) now db Hpaths)
    as (r & Hr & Hp).
  assert (Hin : r ∈ DatabaseManager.images
                      (Store.replaced (normpath file_path) now new_tags db)).
  { rewrite SaveFacts.replaced_images.
    assert (Hin : r ∈ [r]) by by left. rewrite <- Hr in Hin.
    by apply RowFacts.elem_of_filter in Hin as [? _]. }
  assert (Htags : map Store.to_tag
                    (List.filter
                       (DatabaseManager.tagged_with
                          (DatabaseManager.IMAGES.image_id r))
                       (DatabaseManager.tags
                          (Store.replaced (normpath file_path) now new_tags db))) =
                  new_tags).
  { rewrite (SaveFacts.replaced_selected _ now new_tags db r Hr).
    rewrite SaveFacts.insert_fold_tags. unfold DatabaseManager.delete_tags.
    cbn [snd DatabaseManager.tags].
    by rewrite (RowFacts.filter_filter_negb
                  (DatabaseManager.tagged_with
                     (DatabaseManager.IMAGES.image_id r))). }
  destruct (ListingMoreFacts.listing_row _ r (proj1 (proj2 Hwf')) Hin)
    as (item & Hitem & Hid & Hpath & _ & Hperm).
  { destruct new_tags as [|t0 ts]; [done|].
    destruct (List.filter
                (DatabaseManager.tagged_with (DatabaseManager.IMAGES.image_id r))
                (DatabaseManager.tags
                   (Store.replaced (normpath file_path) now (t0 :: ts) db)))
      as [|t l] eqn:Hfilter; [done|].
    exists t.
    assert (Ht : t ∈ t :: l) by by left. rewrite <- Hfilter in Ht.
    apply RowFacts.elem_of_filter in Ht as [Ht Hid]. split; [done|].
    by apply bool_decide_eq_true in Hid. }
  exists item. split_and!; [done|congruence|by rewrite Hperm, Htags|].
  intros item' Hitem' Hpath'.
  apply (ListingMoreFacts.listing_paths _ _ _ Hwf' Hitem Hitem'). congruence.
Qed.

Lemma save_then_listed_witness :
  ∃ item,
    item ∈ DatabaseManager.get_all_indexed_images None
             (snd (@DatabaseManager.save_tags_to_db Sample.os None
                     "2024-01-01T00:00:00" "/pics/a.jpg"
                     [Sample.hat 0.5; Sample.cat 0.75] Sample.one_image)) ∧
    DatabaseManager.file_path item = "/pics/a.jpg" ∧
    DatabaseManager.tags_of item ≡ₚ [Sample.hat 0.5; Sample.cat 0.75].
Proof.
  destruct (@save_then_listed Sample.os None "2024-01-01T00:00:00"
              "/pics/a.jpg" [Sample.hat 0.5; Sample.cat 0.75] Sample.one_image
              (snd (@DatabaseManager.save_tags_to_db Sample.os None
                      "2024-01-01T00:00:00" "/pics/a.jpg"
                      [Sample.hat 0.5; Sample.cat 0.75] Sample.one_image)))
    as (item & Hitem & Hpath & Hperm & _).
  - split_and!.
    + apply (bool_decide_unpack _). vm_compute. reflexivity.
    + apply (bool_decide_unpack _). vm_compute. reflexivity.
    + repeat constructor.
  - reflexivity.
  - reflexivity.
  - by exists item.
Defined.

(** X2. Whatever its outcome, [save_tags_to_db] deletes no image row and
    changes no key, path or favorite flag; a row of another path stays as it
    is; and a row with a key that no row had before is the row of the
    normalized path, not a favorite. *)
Theorem save_keeps_images `{OsPath}
    (flt : option nat) (now file_path : string)
    (new_tags : list DatabaseManager.tag) (db : DatabaseManager.database) :
  let db' :=
    snd (DatabaseManager.save_tags_to_db flt now file_path new_tags db) in
  Changes.kept db db' ∧
  (∀ r, r ∈ DatabaseManager.images db →
        DatabaseManager.IMAGES.file_path r ≠ normpath file_path →
        r ∈ DatabaseManager.images db') ∧
  (∀ r', r' ∈ DatabaseManager.images db' →
         DatabaseManager.IMAGES.image_id r' ∉
           map DatabaseManager.IMAGES.image_id (DatabaseManager.images db) →
         DatabaseManager.IMAGES.file_path r' = normpath file_path ∧
         DatabaseManager.IMAGES.is_favorite r' = 0).
Proof.
  intros db'. subst db'.
  destruct (SaveFacts.save_tags_to_db_outcome flt now file_path new_tags db)
    as [-> | ->]; cbn [snd].
  - split_and!.
    + apply StoreFacts.replaced_kept.
    + intros r Hr Hne. rewrite SaveFacts.replaced_images.
      assert (Hin : r ∈ List.filter
                        (DatabaseManager.has_path
                           (DatabaseManager.IMAGES.file_path r))
                        (DatabaseManager.images db)).
      { apply RowFacts.elem_of_filter. split; [done|].
        by apply bool_decide_eq_true. }
      rewrite <- (StoreFacts.upsert_other_rows (normpath file_path) now db)
        in Hin by done.
      by apply RowFacts.elem_of_filter in Hin as [? _].
    + intros r'. rewrite SaveFacts.replaced_images.
      apply StoreFacts.upsert_new_row.
  - split_and!.
    + apply StoreFacts.kept_refl.
    + done.
    + intros r' Hr' Hnew. exfalso. apply Hnew.
      apply list_elem_of_fmap. by exists r'.
Qed.

(** X3. A committed save on a well-formed store changes the tags stored for
    its own path only: the tags stored for every other path are what they
    were. *)
Theorem save_leaves_other_paths `{OsPath}
    (flt : option nat) (now file_path other : string)
    (new_tags : list DatabaseManager.tag) (db : DatabaseManager.database) :
  Store.well_formed db →
  other ≠ normpath file_path →
  Store.stored_tags
    (snd (DatabaseManager.save_tags_to_db flt now file_path new_tags db))
    other =
  Store.stored_tags db other.
Proof.
  intros Hwf Hne.
  destruct (SaveFacts.save_tags_to_db_outcome flt now file_path new_tags db)
    as [-> | ->]; cbn [snd]; [|done].
  by apply StoreFacts.stored_other.
Qed.

Lemma save_leaves_other_paths_witness :
  Store.stored_tags
    (snd (@DatabaseManager.save_tags_to_db Sample.os None
            "2024-01-01T00:00:00" "/pics/b.PNG" [Sample.hat 0.5]
            Sample.one_image))
    "/pics/a.jpg" =
  [Sample.cat 0.75; Sample.hat 0.25].
Proof.
  rewrite (@save_leaves_other_paths Sample.os None "2024-01-01T00:00:00"
             "/pics/b.PNG" "/pics/a.jpg" [Sample.hat 0.5] Sample.one_image).
  - reflexivity.
  - split_and!.
    + apply (bool_decide_unpack _). vm_compute. reflexivity.
    + apply (bool_decide_unpack _). vm_compute. reflexivity.
    + repeat constructor.
  - discriminate.
Defined.

(** ** Toggling twice *)

Module ToggleMoreFacts.
Import DatabaseManager Store.

Lemma flipped_flipped id r : flipped id (flipped id r) = r.
Proof.
  unfold flipped at 2. destruct (has_id id r) eqn:Hid.
  - unfold flipped, has_id in *. simpl. rewrite Hid. destruct r. simpl.
    f_equal. lia.
  - unfold flipped. by rewrite Hid.
Qed.

Lemma flipped_twice id l : map (flipped id) (map (flipped id) l) = l.
Proof.
  induction l as [|r l IH]; simpl; [done|]. by rewrite flipped_flipped, IH.
Qed.

End ToggleMoreFacts.

(** X4. Toggling the favorite flag of an image twice (without a storage
    error) gives back the database as it was, whatever the key; on a
    well-formed store and for a key that is present, the first toggle
    returns the negation of the flag and the second the flag itself. *)
Theorem toggle_twice (id : Z) (db : DatabaseManager.database) :
  let once := DatabaseManager.toggle_favorite_status None id db in
  let twice := DatabaseManager.toggle_favorite_status None id (snd once) in
  snd twice = db ∧
  (Store.well_formed db →
   ∀ r, r ∈ DatabaseManager.images db →
        DatabaseManager.IMAGES.image_id r = id →
        fst once = negb (Store.favorite r) ∧ fst twice = Store.favorite r).
Proof.
  intros once twice. subst once twice.
  rewrite !ToggleFacts.toggle_no_fault. cbn [fst snd]. split.
  - unfold DatabaseManager.update_favorite. simpl.
    rewrite ToggleMoreFacts.flipped_twice. by destruct db.
  - intros (Hpaths & Hids & Hfav) r Hr Hid.
    unfold DatabaseManager.update_favorite. cbn [snd DatabaseManager.images].
    rewrite ToggleMoreFacts.flipped_twice.
    assert (Hone : List.filter (DatabaseManager.has_id id)
                     (DatabaseManager.images db) = [r]).
    { subst id. unfold DatabaseManager.has_id.
      by rewrite (RowFacts.filter_key_unique DatabaseManager.IMAGES.image_id). }
    rewrite Hone, RowFacts.filter_fmap.
    rewrite (filter_ext _ (DatabaseManager.has_id id)).
    + rewrite Hone. simpl. split; [|done]. subst id.
      apply ToggleFacts.flipped_favorite.
      by apply (proj1 (Forall_forall _ _) Hfav).
    + intros x. unfold DatabaseManager.has_id.
      by rewrite ToggleFacts.flipped_id.
Qed.

Lemma toggle_twice_witness :
  snd (DatabaseManager.toggle_favorite_status None 1
         (snd (DatabaseManager.toggle_favorite_status None 1
                 Sample.low_favorite))) = Sample.low_favorite ∧
  ∀ r, r ∈ DatabaseManager.images Sample.low_favorite →
       DatabaseManager.IMAGES.image_id r = 1 →
       fst (DatabaseManager.toggle_favorite_status None 1 Sample.low_favorite) =
         negb (Store.favorite r).
Proof.
  destruct (toggle_twice 1 Sample.low_favorite) as [Hdb Hflags].
  split; [exact Hdb|]. intros r Hr Hid. apply Hflags; [|done..].
  split_and!.
  - apply (bool_decide_unpack _). vm_compute. reflexivity.
  - apply (bool_decide_unpack _). vm_compute. reflexivity.
  - constructor; [by right|constructor].
Defined.

(** * More properties of the scan engine *)

Module ScanMoreFacts.
Import DatabaseManager Store Changes.

(** Without a fault, a statement runs. *)
Lemma execute_ok {A} (stmt : database → A * database) c :
  fault c = None →
  ∃ c', execute stmt c = Done (fst (stmt (pending c))) c' ∧ fault c' = None.
Proof.
  intros Hf. unfold execute, faulty. rewrite Hf.
  rewrite bool_decide_eq_false_2 by done.
  destruct (stmt (pending c)) as [a d]. by eexists.
Qed.

Lemma executemany_ok {X} (stmt : X → database → unit * database) rows :
  ∀ c, fault c = None →
       ∃ c', executemany stmt rows c = Done tt c' ∧ fault c' = None.
Proof.
  induction rows as [|x rows IH]; intros c Hf; simpl.
  - by exists c.
  - unfold bind. destruct (execute_ok (stmt x) c Hf) as (c1 & -> & Hf1).
    by apply IH.
Qed.

Lemma commit_ok c :
  fault c = None → ∃ c', commit c = Done tt c' ∧ fault c' = None.
Proof.
  intros Hf. unfold commit, faulty. rewrite Hf.
  rewrite bool_decide_eq_false_2 by done. by eexists.
Qed.

Section Runs.
Context `{OsPath} `{TagProcessor}.

(** Without a fault, no statement of the transaction raises
    [sqlite3.Error]. *)
Lemma transaction_no_fault file_path now new_tags c c' :
  fault c = None →
  save_tags_transaction file_path now new_tags c ≠ SqliteError c'.
Proof.
  intros Hf. unfold save_tags_transaction, bind.
  destruct (execute_ok (fun d => (tt, d)) c Hf) as (c1 & -> & Hf1).
  destruct (execute_ok (upsert_image (normpath file_path) now) c1 Hf1)
    as (c2 & -> & Hf2).
  destruct (execute_ok (select_image_id (normpath file_path)) c2 Hf2)
    as (c3 & -> & Hf3).
  destruct (fst (select_image_id (normpath file_path) (pending c2)))
    as [id|]; [|done].
  destruct (execute_ok (delete_tags id) c3 Hf3) as (c4 & -> & Hf4).
  destruct (executemany_ok insert_tag
              (map (fun t => (id, tag_name t, score t)) new_tags) c4 Hf4)
    as (c5 & -> & Hf5).
  by destruct (commit_ok c5 Hf5) as (c6 & -> & _).
Qed.

(** Without a fault, the save commits. *)
Lemma save_no_fault now file_path new_tags db :
  save_tags_to_db None now file_path new_tags db =
  (Return true, replaced (normpath file_path) now new_tags db).
Proof.
  destruct (SaveFacts.save_tags_to_db_outcome None now file_path new_tags db)
    as [Hok|Hfail]; [done|].
  exfalso. revert Hfail. unfold save_tags_to_db. simpl.
  pose proof (transaction_no_fault file_path now new_tags
                {| committed := db; pending := db; calls := 1; fault := None |})
    as Hno.
  pose proof (SaveFacts.save_tags_transaction_outcome file_path now new_tags
                {| committed := db; pending := db; calls := 1; fault := None |})
    as Hout.
  destruct (save_tags_transaction _ _ _ _) as [b c|c|c].
  - destruct Hout as [-> _]. discriminate.
  - by destruct (Hno c eq_refl).
  - done.
Qed.

(** What every step of the loop keeps, the loop keeps. *)
Lemma scan_files_invariant (I : database → Prop) o cb total n :
  (∀ i p db, I db → I (fst (ScanEngine.tag_and_save o i n p db))) →
  ∀ files i st db st' db' ev ok,
    ScanEngine.scan_files o cb total n i files st db = (st', db', ev, ok) →
    I db → I db'.
Proof.
  intros Hstep.
  induction files as [|file_path files IH]; intros i st db st' db' ev ok; simpl.
  - by intros [= <- <- <- <-].
  - specialize (Hstep i file_path db).
    destruct (ScanEngine.tag_and_save o i n file_path db) as [db1 ev1].
    simpl in Hstep. destruct cb as [callback|].
    + destruct (callback (ScanEngine.advanced total st)) as [u|].
      * destruct (ScanEngine.scan_files _ _ _ _ _ files _ db1)
          as [[[st2 db2] ev3] ok2] eqn:Hrest.
        intros [= <- <- <- <-] HI. eapply IH; [exact Hrest|by apply Hstep].
      * intros [= <- <- <- <-] HI. by apply Hstep.
    + destruct (ScanEngine.scan_files _ _ _ _ _ files _ db1)
        as [[[st2 db2] ev3] ok2] eqn:Hrest.
      intros [= <- <- <- <-] HI. eapply IH; [exact Hrest|by apply Hstep].
Qed.

(** The database after tagging and saving one file: the replacement when the
    model found tags and the save committed, the database as it was
    otherwise. *)
Lemma tag_and_save_outcome o i n file_path db :
  fst (ScanEngine.tag_and_save o i n file_path db) = db ∨
  ∃ q tags_list,
    process_image file_path = Return (q, tags_list) ∧
    nonempty tags_list = true ∧
    fst (ScanEngine.tag_and_save o i n file_path db) =
    replaced (normpath file_path) (ScanEngine.clock o i) tags_list db.
Proof.
  unfold ScanEngine.tag_and_save.
  destruct (process_image file_path) as [[q tags_list]|]; [|by left].
  destruct (nonempty tags_list) eqn:Hne; [|by left].
  destruct (SaveFacts.save_tags_to_db_outcome (ScanEngine.save_fault o i)
              (ScanEngine.clock o i) file_path tags_list db) as [-> | ->].
  - right. by exists q, tags_list.
  - by left.
Qed.

(** Without a fault, a file in which the model finds tags is saved. *)
Lemma tag_and_save_saved o i n file_path q tags_list db :
  ScanEngine.save_fault o i = None →
  process_image file_path = Return (q, tags_list) →
  nonempty tags_list = true →
  fst (ScanEngine.tag_and_save o i n file_path db) =
  replaced (normpath file_path) (ScanEngine.clock o i) tags_list db.
Proof.
  intros Hf Hp Hne. unfold ScanEngine.tag_and_save.
  by rewrite Hp, Hne, Hf, save_no_fault.
Qed.

(** A committed save of tags leaves no image without tags. *)
Lemma replaced_tagged p now new_tags db :
  nonempty new_tags = true →
  every_image_tagged db → every_image_tagged (replaced p now new_tags db).
Proof.
  intros Hne Htagged r'. rewrite SaveFacts.replaced_images. intros Hr'.
  destruct (SaveFacts.select_after_upsert p now db) as [id Hid].
  assert (Hrep : replaced p now new_tags db =
                 fold_left (fun d row => snd (insert_tag row d))
                   (map (fun t => (id, tag_name t, score t)) new_tags)
                   (snd (delete_tags id (snd (upsert_image p now db))))).
  { unfold replaced. by rewrite Hid. }
  destruct (decide (IMAGES.image_id r' = id)) as [Heq|Hne'].
  - pose proof (SaveFacts.insert_fold_tags id new_tags
                  (snd (delete_tags id (snd (upsert_image p now db))))) as Hins.
    rewrite <- Hrep in Hins.
    destruct (List.filter (tagged_with id) (tags (replaced p now new_tags db)))
      as [|t l] eqn:Hfilter.
    { destruct new_tags; [done|]. simpl in Hins.
      by destruct (map to_tag _). }
    exists t. assert (Ht : t ∈ t :: l) by by left. rewrite <- Hfilter in Ht.
    apply RowFacts.elem_of_filter in Ht as [Ht Htid]. split; [done|].
    apply bool_decide_eq_true in Htid. congruence.
  - assert (Hold : ∃ r, r ∈ images db ∧ IMAGES.image_id r = IMAGES.image_id r').
    { revert Hr' Hid. unfold select_image_id. cbn [fst].
      rewrite SaveFacts.upsert_images. case_bool_decide as Hin.
      - intros (r & -> & Hr)%list_elem_of_fmap _. exists r.
        by rewrite SaveFacts.touched_id.
      - intros [Hr| ->%list_elem_of_singleton]%elem_of_app; [by exists r'|].
        rewrite List.filter_app. unfold has_path.
        rewrite (RowFacts.filter_key_nil IMAGES.file_path) by done. simpl.
        rewrite bool_decide_eq_true_2 by done. simpl. intros [= Hid].
        by destruct Hne'. }
    destruct Hold as (r & Hr & Hrid).
    destruct (Htagged r Hr) as (t & Ht & Htid).
    exists t. split; [|congruence].
    rewrite Hrep. apply StoreFacts.insert_fold_mono. unfold delete_tags.
    cbn [snd tags]. rewrite StoreFacts.upsert_keeps_tags.
    apply RowFacts.elem_of_filter. split; [done|].
    apply negb_true_iff, bool_decide_eq_false. congruence.
Qed.

Lemma tag_and_save_tagged o i n file_path db :
  every_image_tagged db →
  every_image_tagged (fst (ScanEngine.tag_and_save o i n file_path db)).
Proof.
  intros Htagged.
  destruct (tag_and_save_outcome o i n file_path db)
    as [-> | (q & tags_list & _ & Hne & ->)]; [done|].
  by apply replaced_tagged.
Qed.

Lemma tag_and_save_kept o i n file_path db :
  kept db (fst (ScanEngine.tag_and_save o i n file_path db)).
Proof.
  destruct (tag_and_save_outcome o i n file_path db)
    as [-> | (q & tags_list & _ & _ & ->)].
  - apply StoreFacts.kept_refl.
  - apply StoreFacts.replaced_kept.
Qed.

(** The loop keeps every image row, with key, path and favorite flag. *)
Lemma scan_files_kept o cb total n files i st db st' db' ev ok :
  ScanEngine.scan_files o cb total n i files st db = (st', db', ev, ok) →
  kept db db'.
Proof.
  intros Hscan.
  apply (scan_files_invariant (kept db) o cb total n) in Hscan.
  - done.
  - intros j p d Hd. eapply StoreFacts.kept_trans; [exact Hd|].
    apply tag_and_save_kept.
  - apply StoreFacts.kept_refl.
Qed.

(** A run on an idle engine and a directory, by its loop. *)
Lemma start_scan_run folder_path cb (force_rescan : bool) o self :
  ScanEngine.is_scanning (ScanEngine.status_of self) = false →
  isdir folder_path = true →
  let already : gset string :=
    if force_rescan then ∅
    else get_all_indexed_file_paths (ScanEngine.paths_fault o)
           (ScanEngine.db_manager self) in
  let all := ScanEngine.discover folder_path in
  let st0 := {| ScanEngine.is_scanning := true; ScanEngine.total_files := 0;
                ScanEngine.files_processed := 0;
                ScanEngine.progress_percent := 0;
                ScanEngine.folder := folder_path |} in
  let st1 := ScanEngine.enumerated force_rescan already all st0 in
  ∃ n st2 db2 ev3 ok,
    ScanEngine.scan_files o cb (length all) n 0
      (ScanEngine.to_scan force_rescan already all) st1
      (ScanEngine.db_manager self) = (st2, db2, ev3, ok) ∧
    fst (ScanEngine.start_scan folder_path cb force_rescan o self) =
      {| ScanEngine.status_of := ScanEngine.finished st2;
         ScanEngine.db_manager := db2 |} ∧
    ScanEngine.processed
      (snd (ScanEngine.start_scan folder_path cb force_rescan o self)) =
      ScanEngine.processed ev3 ∧
    ScanEngine.statuses
      (snd (ScanEngine.start_scan folder_path cb force_rescan o self)) =
      st0 :: st1 :: ScanEngine.statuses ev3 ++ [ScanEngine.finished st2].
Proof.
  intros Hidle Hdir already all st0 st1. unfold ScanEngine.start_scan.
  rewrite Hidle, Hdir. cbv zeta. cbn [negb]. cbv iota.
  fold already all. fold st0. fold st1.
  change (ScanEngine.total_files st1) with (length all).
  destruct (ScanEngine.scan_files _ _ _ _ _ _ _ _)
    as [[[st2 db2] ev3] ok] eqn:Hscan.
  eexists _, st2, db2, ev3, ok. split; [exact Hscan|]. cbn [fst snd].
  rewrite !ScanFacts.processed_app, !ScanFacts.statuses_app.
  split_and!.
  - done.
  - destruct force_rescan, ok; simpl; by rewrite ?app_nil_r.
  - destruct force_rescan, ok; simpl; done.
Qed.

(** A run that does not start leaves the database. *)
Lemma start_scan_not_run folder_path cb force_rescan o self :
  ScanEngine.is_scanning (ScanEngine.status_of self) = true ∨
  isdir folder_path = false →
  ScanEngine.db_manager
    (fst (ScanEngine.start_scan folder_path cb force_rescan o self)) =
  ScanEngine.db_manager self ∧
  ScanEngine.processed
    (snd (ScanEngine.start_scan folder_path cb force_rescan o self)) = [].
Proof.
  unfold ScanEngine.start_scan.
  destruct (ScanEngine.is_scanning _); [done|].
  intros [?| ->]; [done|]. done.
Qed.

(** What every step of the loop keeps, a scan keeps. *)
Lemma start_scan_invariant (I : database → Prop) folder_path cb force_rescan
    o self :
  (∀ i n p db, I db → I (fst (ScanEngine.tag_and_save o i n p db))) →
  I (ScanEngine.db_manager self) →
  I (ScanEngine.db_manager
       (fst (ScanEngine.start_scan folder_path cb force_rescan o self))).
Proof.
  intros Hstep HI.
  destruct (ScanEngine.is_scanning (ScanEngine.status_of self)) eqn:Hidle.
  { by rewrite (proj1 (start_scan_not_run folder_path cb force_rescan o self
                         (or_introl Hidle))). }
  destruct (isdir folder_path) eqn:Hdir.
  - destruct (start_scan_run folder_path cb force_rescan o self Hidle Hdir)
      as (n & st2 & db2 & ev3 & ok & Hscan & -> & _).
    simpl. eapply scan_files_invariant; [|exact Hscan|exact HI].
    intros i p d. apply Hstep.
  - by rewrite (proj1 (start_scan_not_run folder_path cb force_rescan o self
                         (or_intror Hdir))).
Qed.

End Runs.

End ScanMoreFacts.

(** X5. The writers of the store keep it well formed (unique paths, unique
    image keys, favorite flags 0 or 1): [save_tags_to_db] and
    [toggle_favorite_status] whatever their outcome, and a whole run of
    [start_scan]. The empty database is well formed. *)
Theorem writers_keep_store_well_formed `{OsPath} `{TagProcessor}
    (db : DatabaseManager.database) :
  Store.well_formed db →
  (∀ flt now file_path new_tags,
     Store.well_formed
       (snd (DatabaseManager.save_tags_to_db flt now file_path new_tags db))) ∧
  (∀ flt id,
     Store.well_formed (snd (DatabaseManager.toggle_favorite_status flt id db))) ∧
  (∀ folder_path cb force_rescan o st,
     Store.well_formed
       (ScanEngine.db_manager
          (fst (ScanEngine.start_scan folder_path cb force_rescan o
                  {| ScanEngine.status_of := st;
                     ScanEngine.db_manager := db |})))) ∧
  Store.well_formed DatabaseManager.empty_database.
Proof.
  intros Hwf. split_and!.
  - intros. by apply InvariantFacts.save_well_formed.
  - intros. by apply InvariantFacts.toggle_well_formed.
  - intros. by apply InvariantFacts.start_scan_well_formed.
  - apply InvariantFacts.empty_well_formed.
Qed.

Lemma writers_keep_store_well_formed_witness :
  Store.well_formed
    (ScanEngine.db_manager
       (fst (@ScanEngine.start_scan Sample.os Sample.tagger "/pics" None true
               Sample.quiet (Sample.fresh Sample.one_image)))).
Proof.
  assert (Hwf : Store.well_formed Sample.one_image).
  { split_and!.
    - apply (bool_decide_unpack _). vm_compute. reflexivity.
    - apply (bool_decide_unpack _). vm_compute. reflexivity.
    - repeat constructor. }
  destruct (@writers_keep_store_well_formed Sample.os Sample.tagger
              Sample.one_image Hwf) as (_ & _ & Hscan & _).
  apply (Hscan "/pics" None true Sample.quiet ScanEngine.initial_status).
Defined.

(** X6. A run of [start_scan], whatever happens in it, deletes no image row
    and changes no image key, no path and no favorite flag. *)
Theorem scan_keeps_images `{OsPath} `{TagProcessor}
    (folder_path : string)
    (progress_callback : option (ScanEngine.status → returned unit))
    (force_rescan : bool) (o : ScanEngine.oracle) (self : ScanEngine.engine) :
  Changes.kept (ScanEngine.db_manager self)
    (ScanEngine.db_manager
       (fst (ScanEngine.start_scan folder_path progress_callback force_rescan
               o self))).
Proof.
  apply (ScanMoreFacts.start_scan_invariant
           (Changes.kept (ScanEngine.db_manager self))).
  - intros i n p db Hkept. eapply StoreFacts.kept_trans; [exact Hkept|].
    apply ScanMoreFacts.tag_and_save_kept.
  - apply StoreFacts.kept_refl.
Qed.

(** X7. A run of [start_scan] never leaves an image row without tag rows:
    if every image row has a tag row before the run, every image row has one
    after it, and so every image row is in the listing of all images. (The
    scan saves a file only when the tagging model found tags in it.) *)
Theorem scan_leaves_no_image_untagged `{OsPath} `{TagProcessor}
    (folder_path : string)
    (progress_callback : option (ScanEngine.status → returned unit))
    (force_rescan : bool) (o : ScanEngine.oracle) (self : ScanEngine.engine) :
  Changes.every_image_tagged (ScanEngine.db_manager self) →
  let db' :=
    ScanEngine.db_manager
      (fst (ScanEngine.start_scan folder_path progress_callback force_rescan
              o self)) in
  Changes.every_image_tagged db' ∧
  ∀ r, r ∈ DatabaseManager.images db' →
       ∃ item, item ∈ DatabaseManager.get_all_indexed_images None db' ∧
               DatabaseManager.image_id item =
                 DatabaseManager.IMAGES.image_id r.
Proof.
  intros Htagged db'.
  assert (Hafter : Changes.every_image_tagged db').
  { subst db'. apply (ScanMoreFacts.start_scan_invariant
                        Changes.every_image_tagged); [|done].
    intros i n p db. apply ScanMoreFacts.tag_and_save_tagged. }
  split; [done|]. intros r Hr. destruct (Hafter r Hr) as (t & Ht & Hid).
  by apply (ListingFacts.listing_complete db' t r).
Qed.

Lemma scan_leaves_no_image_untagged_witness :
  ∃ item,
    item ∈ DatabaseManager.get_all_indexed_images None
             (ScanEngine.db_manager
                (fst (@ScanEngine.start_scan Sample.os Sample.tagger "/pics"
                        None false Sample.quiet
                        (Sample.fresh Sample.one_image)))) ∧
    DatabaseManager.image_id item = 1.
Proof.
  destruct (@scan_leaves_no_image_untagged Sample.os Sample.tagger "/pics" None
              false Sample.quiet (Sample.fresh Sample.one_image))
    as [_ Hlisted].
  - intros r Hr. simpl in Hr. apply list_elem_of_singleton in Hr as ->.
    eexists. split; [by left|reflexivity].
  - apply (Hlisted
             {| DatabaseManager.IMAGES.image_id := 1;
                DatabaseManager.IMAGES.file_path := "/pics/a.jpg";
                DatabaseManager.IMAGES.date_scanned := "2023-12-31T00:00:00";
                DatabaseManager.IMAGES.is_favorite := 0 |}).
    vm_compute. by left.
Defined.

Module ScanRunFacts.
Import DatabaseManager Store Changes.

Section Runs.
Context `{OsPath} `{TagProcessor}.

(** The discovered files are normalized paths. *)
Lemma discover_normalized folder_path p :
  p ∈ ScanEngine.discover folder_path → ∃ x, p = normpath x.
Proof.
  unfold ScanEngine.discover. rewrite list_elem_of_In, in_flat_map.
  intros (entry & _ & Hp). apply in_map_iff in Hp as (file & <- & _).
  by eexists.
Qed.

(** Without callback, the loop writes one status for each file, and the
    number of processed files goes up by one each time. *)
Lemma scan_files_counts o total n :
  ∀ files i st db st' db' ev ok,
    ScanEngine.scan_files o None total n i files st db = (st', db', ev, ok) →
    ScanEngine.files_processed <$> ScanEngine.statuses ev =
      seq (S (ScanEngine.files_processed st)) (length files) ∧
    ScanEngine.files_processed st' =
      (ScanEngine.files_processed st + length files)%nat ∧
    ScanEngine.processed ev = files.
Proof.
  induction files as [|file_path files IH]; intros i st db st' db' ev ok; simpl.
  - intros [= <- <- <- <-]. split_and!; [done|lia|done].
  - destruct (ScanEngine.tag_and_save o i n file_path db) as [db1 ev1] eqn:Htag.
    pose proof (ScanFacts.tag_and_save_events o i n file_path db) as [Hs Hp].
    rewrite Htag in Hs, Hp. simpl in Hs, Hp.
    destruct (ScanEngine.scan_files _ _ _ _ _ files _ db1)
      as [[[st2 db2] ev3] ok2] eqn:Hrest.
    intros [= <- <- <- <-]. apply IH in Hrest as (Hfp & Hlast & Hproc).
    rewrite !ScanFacts.statuses_app, !ScanFacts.processed_app, Hs, Hp.
    split_and!.
    + simpl. f_equal. exact Hfp.
    + rewrite Hlast. simpl. lia.
    + simpl. by rewrite Hproc.
Qed.

Lemma paths_kept db db' p :
  kept db db' →
  p ∈ map IMAGES.file_path (images db) →
  p ∈ map IMAGES.file_path (images db').
Proof.
  intros Hkept (r & -> & Hr)%list_elem_of_fmap.
  destruct (Hkept r Hr) as (r' & Hr' & _ & Hp & _).
  apply list_elem_of_fmap. by exists r'.
Qed.

(** After a committed save the path has a row. *)
Lemma replaced_has_path p now new_tags db :
  p ∈ map IMAGES.file_path (images (replaced p now new_tags db)).
Proof.
  rewrite SaveFacts.replaced_images, SaveFacts.upsert_images.
  case_bool_decide as Hin.
  - by rewrite SaveFacts.touched_paths.
  - rewrite map_app. apply elem_of_app. right. by left.
Qed.

(** Without callback and faults, when the model finds tags in every file,
    the loop leaves every file indexed. *)
Lemma scan_files_indexes o total n :
  (∀ j, ScanEngine.save_fault o j = None) →
  ∀ files i st db st' db' ev ok,
    tags_everything files →
    ScanEngine.scan_files o None total n i files st db = (st', db', ev, ok) →
    ∀ p, p ∈ files → normpath p ∈ map IMAGES.file_path (images db').
Proof.
  intros Hno.
  induction files as [|file_path files IH]; intros i st db st' db' ev ok Hall;
    simpl.
  - by intros _ p ?%elem_of_nil.
  - destruct (Hall file_path) as (q & tags_list & Hp & Hne); [by left|].
    pose proof (ScanMoreFacts.tag_and_save_saved o i n file_path q tags_list db
                  (Hno i) Hp Hne) as Hsaved.
    destruct (ScanEngine.tag_and_save o i n file_path db) as [db1 ev1].
    simpl in Hsaved. subst db1.
    destruct (ScanEngine.scan_files _ _ _ _ _ files _ _)
      as [[[st2 db2] ev3] ok2] eqn:Hrest.
    intros [= <- <- <- <-] p [->|Hin]%elem_of_cons.
    + eapply paths_kept; [by eapply ScanMoreFacts.scan_files_kept|].
      apply replaced_has_path.
    + eapply IH; [|exact Hrest|done]. intros p' Hp'. apply Hall. by right.
Qed.

(** Without callback and faults, when the model finds tags in every file,
    the loop leaves on every file of the list exactly the tags the model
    found, and on every other path the tags it had. *)
Lemma scan_files_stored o total n :
  (∀ j, ScanEngine.save_fault o j = None) →
  ∀ files i st db st' db' ev ok,
    tags_everything files →
    (∀ p, p ∈ files → normpath p = p) →
    well_formed db →
    ScanEngine.scan_files o None total n i files st db = (st', db', ev, ok) →
    well_formed db' ∧
    (∀ p q tags_list,
       p ∈ files → process_image p = Return (q, tags_list) →
       stored_tags db' p = tags_list) ∧
    (∀ p, p ∉ files → stored_tags db' p = stored_tags db p).
Proof.
  intros Hno.
  induction files as [|file_path files IH];
    intros i st db st' db' ev ok Hall Hnorm Hwf; simpl.
  - intros [= <- <- <- <-]. split_and!; [done| |done].
    by intros p q tags_list ?%elem_of_nil.
  - destruct (Hall file_path) as (q0 & tags0 & Hp0 & Hne0); [by left|].
    pose proof (ScanMoreFacts.tag_and_save_saved o i n file_path q0 tags0 db
                  (Hno i) Hp0 Hne0) as Hsaved.
    destruct (ScanEngine.tag_and_save o i n file_path db) as [db1 ev1].
    simpl in Hsaved. subst db1. rewrite (Hnorm file_path) by by left.
    destruct (ScanEngine.scan_files _ _ _ _ _ files _ _)
      as [[[st2 db2] ev3] ok2] eqn:Hrest.
    intros [= <- <- <- <-].
    apply IH in Hrest as (Hwf' & Hin & Hout).
    + split_and!; [done| |].
      * intros p q tags_list Hp Hproc.
        destruct (decide (p ∈ files)) as [Hrest|Hrest]; [by eapply Hin|].
        apply elem_of_cons in Hp as [->|Hp]; [|done].
        rewrite (Hout _ Hrest).
        rewrite SaveFacts.stored_after_replaced by by destruct Hwf.
        congruence.
      * intros p [Hne Hrest]%not_elem_of_cons.
        rewrite (Hout _ Hrest). by apply StoreFacts.stored_other.
    + intros p Hp. apply Hall. by right.
    + intros p Hp. apply Hnorm. by right.
    + by apply SaveFacts.replaced_well_formed.
Qed.

End Runs.

End ScanRunFacts.

(** X8. A forced scan of a directory on an idle engine (no callback) hands
    every discovered file to the tagging model, in the order of the
    enumeration, whatever the model raises and whatever save fails; the
    statuses it writes count 0, 0, 1, ..., n and end at n, the number of
    discovered files, which is also the total of the terminal status. *)
Theorem forced_scan_processes_everything `{OsPath} `{TagProcessor}
    (folder_path : string) (o : ScanEngine.oracle) (self : ScanEngine.engine) :
  ScanEngine.is_scanning (ScanEngine.status_of self) = false →
  isdir folder_path = true →
  let run := ScanEngine.start_scan folder_path None true o self in
  let n := length (ScanEngine.discover folder_path) in
  ScanEngine.processed (snd run) = ScanEngine.discover folder_path ∧
  ScanEngine.files_processed <$> ScanEngine.statuses (snd run) =
    0%nat :: 0%nat :: seq 1 n ++ [n] ∧
  ScanEngine.total_files (ScanEngine.status_of (fst run)) = n.
Proof.
  intros Hidle Hdir run n. subst run.
  destruct (ScanMoreFacts.start_scan_run folder_path None true o self Hidle Hdir)
    as (m & st2 & db2 & ev3 & ok & Hscan & -> & -> & ->).
  rewrite ScanFacts.to_scan_forced in Hscan.
  pose proof Hscan as Hprogress.
  apply ScanFacts.scan_files_progress in Hprogress as (_ & _ & Htotal & _).
  apply ScanRunFacts.scan_files_counts in Hscan as (Hfp & Hlast & Hproc).
  simpl in Htotal, Hfp, Hlast. fold n in Htotal, Hfp, Hlast.
  split_and!.
  - exact Hproc.
  - rewrite !fmap_cons, fmap_app, Hfp. simpl. do 3 f_equal.
    rewrite Htotal. by destruct n.
  - simpl. exact Htotal.
Qed.

Lemma forced_scan_processes_everything_witness :
  ScanEngine.processed
    (snd (@ScanEngine.start_scan Sample.os Sample.tagger "/pics" None true
            Sample.quiet (Sample.fresh Sample.one_image))) =
  @ScanEngine.discover Sample.os "/pics".
Proof.
  apply (@forced_scan_processes_everything Sample.os Sample.tagger "/pics"
           Sample.quiet (Sample.fresh Sample.one_image)); reflexivity.
Defined.

(** X9. Incremental scans are idempotent: after a scan of a directory that
    ran to its end without a storage error and in which the tagging model
    found tags in every discovered file, a scan of the same folder that is
    not forced hands no file to the tagging model ([os.path.normpath] being
    idempotent). *)
Theorem incremental_scan_idempotent `{OsPath} `{TagProcessor}
    (folder_path : string) (force_rescan : bool)
    (progress_callback : option (ScanEngine.status → returned unit))
    (o o' : ScanEngine.oracle) (self : ScanEngine.engine) :
  (∀ p, normpath (normpath p) = normpath p) →
  ScanEngine.is_scanning (ScanEngine.status_of self) = false →
  isdir folder_path = true →
  (∀ j, ScanEngine.save_fault o j = None) →
  Changes.tags_everything (ScanEngine.discover folder_path) →
  ScanEngine.paths_fault o' = None →
  let first := ScanEngine.start_scan folder_path None force_rescan o self in
  ScanEngine.processed
    (snd (ScanEngine.start_scan folder_path progress_callback false o'
            (fst first))) = [].
Proof.
  intros Hidem Hidle Hdir Hno Hall Hread first. subst first.
  destruct (ScanMoreFacts.start_scan_run folder_path None force_rescan o self
              Hidle Hdir)
    as (m & st2 & db2 & ev3 & ok & Hscan & -> & _ & _).
  set (already := if force_rescan then (∅ : gset string)
                  else DatabaseManager.get_all_indexed_file_paths
                         (ScanEngine.paths_fault o)
                         (ScanEngine.db_manager self)) in Hscan.
  assert (Hindexed : ∀ p, p ∈ ScanEngine.discover folder_path →
            p ∈ DatabaseManager.get_all_indexed_file_paths None db2).
  { intros p Hp. rewrite EmptySaveFacts.paths_no_fault.
    apply elem_of_list_to_set, list_elem_of_fmap.
    destruct (decide (p ∈ ScanEngine.to_scan force_rescan already
                           (ScanEngine.discover folder_path))) as [Hscanned|Hskip].
    - exists (normpath p). split.
      + destruct (ScanRunFacts.discover_normalized folder_path p Hp) as [x ->].
        by rewrite !Hidem.
      + eapply ScanRunFacts.scan_files_indexes; [exact Hno| |exact Hscan|done].
        intros p' [Hp' _]%RowFacts.elem_of_filter. by apply Hall.
    - assert (Hin : negb force_rescan && bool_decide (p ∈ already) = true).
      { destruct (negb force_rescan && bool_decide (p ∈ already)) eqn:Hb;
          [done|]. exfalso. apply Hskip. unfold ScanEngine.to_scan.
        apply RowFacts.elem_of_filter. by rewrite Hb. }
      apply andb_prop in Hin as [Hforce Hin].
      apply bool_decide_eq_true in Hin. subst already.
      destruct force_rescan; [done|].
      destruct (EmptySaveFacts.paths_fault (ScanEngine.paths_fault o)
                  (ScanEngine.db_manager self)) as [Hf|Hf];
        rewrite Hf in Hin; [by apply not_elem_of_empty in Hin|].
      rewrite EmptySaveFacts.paths_no_fault in Hin.
      apply elem_of_list_to_set, list_elem_of_fmap in Hin as (s & -> & Hs).
      exists s. split; [done|].
      eapply ScanRunFacts.paths_kept; [|exact Hs].
      by eapply ScanMoreFacts.scan_files_kept. }
  destruct (ScanMoreFacts.start_scan_run folder_path progress_callback false o'
              {| ScanEngine.status_of := ScanEngine.finished st2;
                 ScanEngine.db_manager := db2 |} eq_refl Hdir)
    as (m' & st2' & db2' & ev3' & ok' & Hscan' & _ & -> & _).
  cbn [ScanEngine.db_manager] in Hscan'. rewrite Hread in Hscan'.
  assert (Hnone : ScanEngine.to_scan false
                    (DatabaseManager.get_all_indexed_file_paths None db2)
                    (ScanEngine.discover folder_path) = []).
  { revert Hindexed. clear.
    generalize (DatabaseManager.get_all_indexed_file_paths None db2).
    unfold ScanEngine.to_scan. simpl.
    induction (ScanEngine.discover folder_path) as [|p l IH];
      intros indexed Hindexed; simpl; [done|].
    rewrite bool_decide_eq_true_2 by (apply Hindexed; by left). simpl.
    apply IH. intros p' Hp'. apply Hindexed. by right. }
  rewrite Hnone in Hscan'. simpl in Hscan'. by injection Hscan' as _ _ <- _.
Qed.

Lemma incremental_scan_idempotent_witness :
  ScanEngine.processed
    (snd (@ScanEngine.start_scan Sample.os Sample.tagger "/pics" None false
            Sample.quiet
            (fst (@ScanEngine.start_scan Sample.os Sample.tagger "/pics" None
                    false Sample.quiet (Sample.fresh Sample.one_image))))) = [].
Proof.
  apply (@incremental_scan_idempotent Sample.os Sample.tagger "/pics" false
           None Sample.quiet Sample.quiet (Sample.fresh Sample.one_image));
    try reflexivity.
  intros p Hp. by exists p, [Sample.cat 0.75].
Defined.

(** X10. A scan replaces, it never merges: after a scan of a directory that
    ran to its end without a storage error on a well-formed store, in which
    the tagging model found tags in every discovered file, the tags stored
    for every file handed to the model are exactly the tags the model found
    in it (for a forced scan these are all discovered files), and the tags
    stored for every other path are what they were. *)
Theorem scan_stores_what_the_model_found `{OsPath} `{TagProcessor}
    (folder_path : string) (force_rescan : bool)
    (o : ScanEngine.oracle) (self : ScanEngine.engine) :
  (∀ p, normpath (normpath p) = normpath p) →
  Store.well_formed (ScanEngine.db_manager self) →
  ScanEngine.is_scanning (ScanEngine.status_of self) = false →
  isdir folder_path = true →
  (∀ j, ScanEngine.save_fault o j = None) →
  Changes.tags_everything (ScanEngine.discover folder_path) →
  let run := ScanEngine.start_scan folder_path None force_rescan o self in
  let db' := ScanEngine.db_manager (fst run) in
  (∀ p q tags_list,
     p ∈ ScanEngine.processed (snd run) →
     process_image p = Return (q, tags_list) →
     Store.stored_tags db' p = tags_list) ∧
  (∀ p, p ∉ ScanEngine.processed (snd run) →
        Store.stored_tags db' p =
        Store.stored_tags (ScanEngine.db_manager self) p) ∧
  (force_rescan = true →
   ScanEngine.processed (snd run) = ScanEngine.discover folder_path).
Proof.
  intros Hidem Hwf Hidle Hdir Hno Hall run db'. subst db' run.
  destruct (ScanMoreFacts.start_scan_run folder_path None force_rescan o self
              Hidle Hdir)
    as (m & st2 & db2 & ev3 & ok & Hscan & -> & -> & _).
  cbn [fst ScanEngine.db_manager].
  pose proof Hscan as Hcounts.
  apply ScanRunFacts.scan_files_counts in Hcounts as (_ & _ & ->).
  apply ScanRunFacts.scan_files_stored in Hscan as (_ & Hin & Hout);
    [|done| | |done].
  - split_and!; [done..|]. intros ->. apply ScanFacts.to_scan_forced.
  - intros p [Hp _]%RowFacts.elem_of_filter. by apply Hall.
  - intros p [Hp _]%RowFacts.elem_of_filter.
    destruct (ScanRunFacts.discover_normalized folder_path p Hp) as [x ->].
    apply Hidem.
Qed.

Lemma scan_stores_what_the_model_found_witness :
  Store.stored_tags
    (ScanEngine.db_manager
       (fst (@ScanEngine.start_scan Sample.os Sample.tagger "/pics" None true
               Sample.quiet (Sample.fresh Sample.one_image))))
    "/pics/a.jpg" = [Sample.cat 0.75].
Proof.
  destruct (@scan_stores_what_the_model_found Sample.os Sample.tagger "/pics"
              true Sample.quiet (Sample.fresh Sample.one_image))
    as (Hin & _ & _).
  - reflexivity.
  - split_and!.
    + apply (bool_decide_unpack _). vm_compute. reflexivity.
    + apply (bool_decide_unpack _). vm_compute. reflexivity.
    + repeat constructor.
  - reflexivity.
  - reflexivity.
  - reflexivity.
  - intros p Hp. by exists p, [Sample.cat 0.75].
  - apply (Hin "/pics/a.jpg" "/pics/a.jpg"); [|reflexivity].
    vm_compute. by left.
Defined.

(** * The dictionary: suggestions, resolution and what loading guarantees *)

Module StringFacts.
Import PyStr.

Lemma append_cons c a b : String c a +:+ b = String c (a +:+ b).
Proof. done. Qed.

Lemma append_nil b : "" +:+ b = b.
Proof. done. Qed.

Lemma append_empty s : s +:+ "" = s.
Proof.
  induction s as [|c s IH]; [done|]. by rewrite append_cons, IH.
Qed.

Lemma append_assoc a b c : (a +:+ b) +:+ c = a +:+ (b +:+ c).
Proof.
  induction a as [|x a IH]; [done|]. by rewrite !append_cons, IH.
Qed.

Lemma join_app l k : join (l ++ k) = join l +:+ join k.
Proof.
  induction l as [|ch l IH]; simpl; [done|]. by rewrite IH, append_assoc.
Qed.

Lemma chars_nonempty c s : chars (String c s) ≠ [].
Proof. simpl. destruct (chars s); [done|]. by destruct (continues s). Qed.

(** The first character starts with the first byte. *)
Lemma chars_head c s :
  ∃ t rest, chars (String c s) = String c t :: rest.
Proof.
  simpl. destruct (chars s) as [|ch rest]; [by eexists _, _|].
  destruct (continues s); by eexists _, _.
Qed.

(** [''.join] gives the text back. *)
Lemma join_chars s : join (chars s) = s.
Proof.
  induction s as [|c s IH]; [done|]. simpl.
  destruct (chars s) as [|ch rest] eqn:Hch.
  - destruct s as [|d s]; [done|]. by destruct (chars_nonempty d s).
  - destruct (continues s); simpl in *; by rewrite ?append_cons, IH.
Qed.

(** The shape of the characters of a text. *)
Lemma chars_shape s :
  Forall (fun ch => continued ch = true) (chars s) ∧
  Forall (fun ch => led ch = true) (tail (chars s)).
Proof.
  induction s as [|c s [IHc IHl]]; [by split; constructor|].
  simpl. destruct s as [|d s].
  - split; by repeat constructor.
  - destruct (chars_head d s) as (t & rest & Hch). rewrite Hch in *.
    simpl in IHl. apply Forall_cons in IHc as [Ht Hrest].
    unfold continues. destruct (continuation d) eqn:Hd; simpl.
    + split; [|done]. constructor; [|done]. simpl in *. by rewrite Hd.
    + split; [by repeat constructor|]. constructor; [|done].
      simpl. by rewrite Hd.
Qed.

Lemma chars_append_continued c t s :
  forallb continuation (list_ascii_of_string t) = true →
  continues s = false →
  chars (String c t +:+ s) = String c t :: chars s.
Proof.
  revert c. induction t as [|e t IH]; intros c Ht Hs.
  - rewrite append_cons, append_nil. simpl. rewrite Hs.
    destruct s as [|d s]; [done|].
    by destruct (chars_head d s) as (t' & rest & ->).
  - simpl in Ht. apply andb_prop in Ht as [He Ht].
    rewrite append_cons.
    change (chars (String c (String e t +:+ s))) with
      (match chars (String e t +:+ s) with
       | ch :: rest =>
           if continues (String e t +:+ s) then String c ch :: rest
           else String c "" :: ch :: rest
       | [] => [String c ""]
       end).
    rewrite IH by done. rewrite append_cons. simpl. by rewrite He.
Qed.

(** Characters of that shape are the characters of their text. *)
Lemma chars_join l :
  Forall (fun ch => continued ch = true) l →
  Forall (fun ch => led ch = true) (tail l) →
  chars (join l) = l.
Proof.
  induction l as [|ch l IH]; [done|]. intros [Hch Hl]%Forall_cons Hled.
  simpl in Hled. destruct ch as [|c t]; [done|]. simpl in Hch. simpl join.
  rewrite chars_append_continued; [| done |].
  - f_equal. apply IH; [done|]. destruct l; [constructor|].
    by apply Forall_cons in Hled as [_ ?].
  - destruct l as [|ch' l]; [done|].
    apply Forall_cons in Hled as [Hch' _]. simpl.
    destruct ch' as [|c' t']; [done|]. rewrite append_cons. simpl.
    simpl in Hch'. by destruct (continuation c').
Qed.

Lemma lstrip_chars_drop l : ∃ n, lstrip_chars l = drop n l.
Proof.
  induction l as [|ch l [n IH]]; [by exists 0%nat|]. simpl.
  destruct (is_space ch); [by exists (S n)|by exists 0%nat].
Qed.

Lemma rstrip_chars_take l : ∃ n, rstrip_chars l = take n l.
Proof.
  induction l as [|ch l [n IH]]; [by exists 0%nat|].
  cbn [rstrip_chars]. destruct (forallb is_space (ch :: l)); [by exists 0%nat|].
  exists (S n). simpl. by rewrite IH.
Qed.

Lemma tail_drop {A} n (l : list A) : tail (drop n l) = drop n (tail l).
Proof.
  destruct l as [|x l]; [by destruct n|].
  change (tail (drop n (x :: l)) = drop n l).
  revert x l. induction n as [|n IH]; intros x l; [done|].
  destruct l as [|y l]; [by destruct n|]. simpl. apply (IH y l).
Qed.

Lemma tail_take {A} n (l : list A) : tail (take n l) = take (pred n) (tail l).
Proof.
  destruct n as [|n], l as [|x l]; simpl; try done. by rewrite take_nil.
Qed.

Lemma shape_drop n l :
  Forall (fun ch => continued ch = true) l →
  Forall (fun ch => led ch = true) (tail l) →
  Forall (fun ch => continued ch = true) (drop n l) ∧
  Forall (fun ch => led ch = true) (tail (drop n l)).
Proof.
  intros Hc Hl. split; [by apply Forall_drop|].
  rewrite tail_drop. by apply Forall_drop.
Qed.

Lemma shape_take n l :
  Forall (fun ch => continued ch = true) l →
  Forall (fun ch => led ch = true) (tail l) →
  Forall (fun ch => continued ch = true) (take n l) ∧
  Forall (fun ch => led ch = true) (tail (take n l)).
Proof.
  intros Hc Hl. split; [by apply Forall_take|].
  rewrite tail_take. by apply Forall_take.
Qed.

Lemma strip_chars_shape l :
  Forall (fun ch => continued ch = true) l →
  Forall (fun ch => led ch = true) (tail l) →
  Forall (fun ch => continued ch = true) (rstrip_chars (lstrip_chars l)) ∧
  Forall (fun ch => led ch = true) (tail (rstrip_chars (lstrip_chars l))).
Proof.
  intros Hc Hl.
  destruct (lstrip_chars_drop l) as [n ->].
  destruct (rstrip_chars_take (drop n l)) as [m ->].
  destruct (shape_drop n l Hc Hl) as [Hc' Hl']. by apply shape_take.
Qed.

Lemma lstrip_chars_head ch l :
  is_space ch = false → lstrip_chars (ch :: l) = ch :: l.
Proof. intros Hch. simpl. by rewrite Hch. Qed.

Lemma lstrip_chars_result l :
  match lstrip_chars l with
  | [] => True
  | ch :: _ => is_space ch = false
  end.
Proof.
  induction l as [|ch l IH]; simpl; [done|].
  by destruct (is_space ch) eqn:Hch.
Qed.

Lemma rstrip_rstrip_chars l : rstrip_chars (rstrip_chars l) = rstrip_chars l.
Proof.
  induction l as [|ch l IH]; [done|]. cbn [rstrip_chars].
  destruct (forallb is_space (ch :: l)) eqn:Hall; [done|].
  cbn [rstrip_chars].
  assert (Hstill : forallb is_space (ch :: rstrip_chars l) = false).
  { simpl in *. destruct (is_space ch); [|done]. simpl in *.
    clear IH. induction l as [|x l IHl]; [done|]. cbn [rstrip_chars].
    rewrite Hall. simpl in *. destruct (is_space x); [|done]. simpl in *.
    by apply IHl. }
  by rewrite Hstill, IH.
Qed.

(** Stripping what was stripped changes nothing. *)
Lemma strip_strip_chars l :
  rstrip_chars (lstrip_chars (rstrip_chars (lstrip_chars l))) =
  rstrip_chars (lstrip_chars l).
Proof.
  pose proof (lstrip_chars_result l) as Hhead.
  destruct (lstrip_chars l) as [|ch m]; [done|].
  assert (HR : rstrip_chars (ch :: m) = ch :: rstrip_chars m).
  { cbn [rstrip_chars forallb]. by rewrite Hhead. }
  rewrite HR, lstrip_chars_head by done. rewrite <- HR.
  apply rstrip_rstrip_chars.
Qed.

(** [s.strip().strip() == s.strip()] *)
Lemma strip_strip s : strip (strip s) = strip s.
Proof.
  unfold strip.
  destruct (chars_shape s) as [Hc Hl].
  destruct (strip_chars_shape _ Hc Hl) as [Hc' Hl'].
  by rewrite (chars_join _ Hc' Hl'), strip_strip_chars.
Qed.

Lemma continues_append a b :
  continues (a +:+ b) = if truthy a then continues a else continues b.
Proof. by destruct a. Qed.

(** The characters of two texts, when the second one starts a character. *)
Lemma chars_app a b :
  continues b = false → chars (a +:+ b) = chars a ++ chars b.
Proof.
  intros Hb. induction a as [|c a IH]; [done|].
  rewrite append_cons.
  change (chars (String c (a +:+ b))) with
    (match chars (a +:+ b) with
     | ch :: rest =>
         if continues (a +:+ b) then String c ch :: rest
         else String c "" :: ch :: rest
     | [] => [String c ""]
     end).
  rewrite IH, continues_append. simpl chars.
  destruct a as [|d a].
  - simpl. rewrite Hb. by destruct (chars b).
  - destruct (chars_head d a) as (t & rest & ->). simpl.
    by destruct (continuation d).
Qed.

Lemma lstrip_chars_snoc l sp :
  is_space sp = true →
  lstrip_chars (l ++ [sp]) = lstrip_chars l ++ [sp] ∨
  (lstrip_chars l = [] ∧ lstrip_chars (l ++ [sp]) = []).
Proof.
  intros Hsp. induction l as [|ch l IH]; simpl.
  - right. by rewrite Hsp.
  - destruct (is_space ch); [exact IH|by left].
Qed.

Lemma rstrip_chars_snoc l sp :
  is_space sp = true → rstrip_chars (l ++ [sp]) = rstrip_chars l.
Proof.
  intros Hsp. induction l as [|ch l IH].
  - simpl. by rewrite Hsp.
  - change ((ch :: l) ++ [sp]) with (ch :: (l ++ [sp])).
    cbn [rstrip_chars]. rewrite IH.
    replace (forallb is_space (ch :: l ++ [sp]))
      with (forallb is_space (ch :: l)); [done|].
    simpl. rewrite forallb_app. simpl. rewrite Hsp.
    by rewrite !andb_true_r.
Qed.

(** [(s + " ").strip() == s.strip()] *)
Lemma strip_append_space a : strip (a +:+ " ") = strip a.
Proof.
  unfold strip. rewrite chars_app by done.
  change (chars " ") with [" "].
  destruct (lstrip_chars_snoc (chars a) " " eq_refl) as [->|[-> ->]]; [|done].
  by rewrite rstrip_chars_snoc.
Qed.

(** Characters that are no white space are left by [strip]. *)
Lemma lstrip_chars_fixed l :
  Forall (fun ch => is_space ch = false) l → lstrip_chars l = l.
Proof. destruct 1 as [|ch l Hch _]; simpl; [done|]. by rewrite Hch. Qed.

Lemma rstrip_chars_fixed l :
  Forall (fun ch => is_space ch = false) l → rstrip_chars l = l.
Proof.
  induction 1 as [|ch l Hch Hl IH]; [done|]. cbn [rstrip_chars forallb].
  by rewrite Hch, IH.
Qed.

Lemma bytes_append a b :
  list_ascii_of_string (a +:+ b) =
  list_ascii_of_string a ++ list_ascii_of_string b.
Proof.
  induction a as [|c a IH]; [done|]. rewrite append_cons. simpl. by rewrite IH.
Qed.

Lemma bytes_join l c :
  c ∈ list_ascii_of_string (join l) ↔
  ∃ ch, ch ∈ l ∧ c ∈ list_ascii_of_string ch.
Proof.
  induction l as [|x l IH]; simpl.
  - split; [by intros ?%elem_of_nil|]. by intros (ch & ?%elem_of_nil & _).
  - rewrite bytes_append, elem_of_app, IH. split.
    + intros [?|(ch & ? & ?)]; [exists x|exists ch]; split; try done;
        [by left|by right].
    + intros (ch & [->|?]%elem_of_cons & ?); [by left|]. right. by exists ch.
Qed.

(** What [split] yields: every token is the text of a run of characters of
    the text, not empty, none of them white space. *)
Lemma split_from_tokens l :
  ∀ cur t,
    Forall (fun ch => is_space ch = false) cur →
    t ∈ split_from cur l →
    ∃ run, t = join run ∧ run ≠ [] ∧
           Forall (fun ch => is_space ch = false) run ∧
           ∃ n m, run = take m (drop n (List.rev cur ++ l)).
Proof.
  assert (Hcur : ∀ cur rest,
            cur ≠ [] → Forall (fun ch => is_space ch = false) cur →
            ∃ run, join (List.rev cur) = join run ∧ run ≠ [] ∧
                   Forall (fun ch => is_space ch = false) run ∧
                   ∃ n m, run = take m (drop n (List.rev cur ++ rest))).
  { intros cur rest Hne Hall. exists (List.rev cur). split_and!; [done| | |].
    - intros Hnil. apply Hne. by rewrite <- (rev_involutive cur), Hnil.
    - apply Forall_forall. intros ch Hch. apply list_elem_of_In in Hch.
      apply in_rev, list_elem_of_In in Hch.
      by apply (proj1 (Forall_forall _ _) Hall).
    - exists 0%nat, (length (List.rev cur)).
      by rewrite drop_0, take_app_length. }
  induction l as [|ch l IH]; intros cur t Hall; simpl.
  - destruct cur as [|x cur]; [by intros ?%elem_of_nil|].
    intros ->%list_elem_of_singleton. by apply Hcur.
  - destruct (is_space ch) eqn:Hch.
    + assert (Hlater : t ∈ split_from [] l →
                ∃ run, t = join run ∧ run ≠ [] ∧
                  Forall (fun ch => is_space ch = false) run ∧
                  ∃ n m, run = take m (drop n (List.rev cur ++ ch :: l))).
      { intros Hin. destruct (IH [] t (Forall_nil_2 _) Hin)
          as (run & -> & Hne & Hrun & n & m & ->).
        eexists. split_and!; [done..|].
        exists (length (List.rev cur) + 1 + n)%nat, m. simpl.
        replace (List.rev cur ++ ch :: l) with ((List.rev cur ++ [ch]) ++ l)
          by (by rewrite <- app_assoc).
        rewrite drop_app_ge by (rewrite length_app; simpl; lia).
        f_equal. f_equal. rewrite length_app. simpl. lia. }
      destruct cur as [|x cur]; [exact Hlater|].
      intros [->|Hin]%elem_of_cons; [by apply Hcur|by apply Hlater].
    + intros Hin. destruct (IH (ch :: cur) t) as (run & -> & Hne & Hrun & n & m & ->);
        [by constructor|done|].
      eexists. split_and!; [done..|]. exists n, m. simpl.
      by rewrite <- app_assoc.
Qed.

Lemma split_tokens s t :
  t ∈ split s →
  t ≠ "" ∧
  chars t ≠ [] ∧
  Forall (fun ch => is_space ch = false) (chars t) ∧
  strip t = t ∧
  ∀ c, c ∈ list_ascii_of_string t → c ∈ list_ascii_of_string s.
Proof.
  unfold split. intros Hin.
  destruct (split_from_tokens (chars s) [] t (Forall_nil_2 _) Hin)
    as (run & -> & Hne & Hrun & n & m & Hseg).
  simpl in Hseg.
  destruct (chars_shape s) as [Hc Hl].
  destruct (shape_drop n _ Hc Hl) as [Hc1 Hl1].
  destruct (shape_take m _ Hc1 Hl1) as [Hc2 Hl2].
  rewrite <- Hseg in Hc2, Hl2.
  assert (Hchars : chars (join run) = run) by by apply chars_join.
  split_and!.
  - destruct run as [|ch run]; [done|].
    apply Forall_cons in Hc2 as [Hch _]. destruct ch; [done|].
    simpl. by rewrite append_cons.
  - by rewrite Hchars.
  - by rewrite Hchars.
  - unfold strip. rewrite Hchars.
    by rewrite lstrip_chars_fixed, rstrip_chars_fixed.
  - intros c (ch & Hch & Hc')%bytes_join.
    rewrite <- (join_chars s). apply bytes_join. exists ch. split; [|done].
    rewrite Hseg in Hch. apply elem_of_take in Hch as (i & Hch & _).
    apply list_elem_of_lookup_2 in Hch.
    apply list_elem_of_In in Hch. apply list_elem_of_In.
    rewrite <- (take_drop n (chars s)). apply in_or_app. by right.
Qed.

End StringFacts.

(** The ideographic space U+3000 and the no-break space U+00A0 are stripped
    and split at like the space; U+732B is one character of three bytes. *)
Example strip_wide_space_sample :
  PyStr.strip (" mao" +:+ PyStr.utf8 12288 +:+ PyStr.utf8 160) = "mao" ∧
  PyStr.strip (PyStr.utf8 12288) = "" ∧
  PyStr.split ("cat" +:+ PyStr.utf8 12288 +:+ "hat ") = ["cat"; "hat"] ∧
  PyStr.chars ("a" +:+ PyStr.utf8 29483 +:+ "b") = ["a"; PyStr.utf8 29483; "b"] ∧
  length (list_ascii_of_string (PyStr.utf8 29483)) = 3%nat.
Proof. vm_compute. by split_and!. Qed.

(** A term cell and a partial term that end with U+3000: the term is known
    without it, and the partial term finds it. *)
Example wide_space_term_sample :
  let dict :=
    @DictionaryManager._load_dictionary Sample.casing
      (Some [(Some "cat", Some (PyStr.utf8 29483 +:+ PyStr.utf8 12288))]) in
  DictionaryManager._all_cn_tags dict = [PyStr.utf8 29483] ∧
  DictionaryManager.fuzzy_lookup_suggestions dict
    (PyStr.utf8 12288 +:+ PyStr.utf8 29483 +:+ PyStr.utf8 12288) None =
    [PyStr.utf8 29483].
Proof. vm_compute. by split. Qed.

Module DictionaryMoreFacts.
Import DictionaryManager.

Lemma filter_sublist {A} (p : A → bool) l : List.filter p l `sublist_of` l.
Proof.
  induction l as [|x l IH]; simpl; [constructor|].
  destruct (p x); by constructor.
Qed.

Lemma filter_length {A} (p : A → bool) l :
  (length (List.filter p l) ≤ length l)%nat.
Proof. apply sublist_length, filter_sublist. Qed.

(** The tags of [final_en_tags]: the non-empty tags of the given terms. *)
Lemma elem_of_final_en_tags self cn_terms en :
  en ∈ final_en_tags self cn_terms ↔
  ∃ t, t ∈ cn_terms ∧ PyDict.get t (_cn_to_en_tag self) = Some en ∧
       PyStr.truthy en = true.
Proof.
  unfold final_en_tags.
  match goal with |- context [fold_left ?f _ _] => set (step := f) end.
  assert (Hstep : ∀ acc t,
            en ∈ step acc t ↔
            en ∈ acc ∨ (PyDict.get t (_cn_to_en_tag self) = Some en ∧
                        PyStr.truthy en = true)).
  { intros acc t. unfold step.
    destruct (PyDict.get t (_cn_to_en_tag self)) as [e|].
    - destruct (PyStr.truthy e) eqn:He.
      + rewrite elem_of_union, elem_of_singleton. split.
        * intros [?| ->]; [by left|by right].
        * intros [?|[[= ->] _]]; [by left|by right].
      + split; [by left|]. intros [?|[[= ->] Ht]]; [done|congruence].
    - split; [by left|]. by intros [?|[? _]]. }
  assert (Hgen : ∀ acc,
            en ∈ fold_left step cn_terms acc ↔
            en ∈ acc ∨ ∃ t, t ∈ cn_terms ∧
              PyDict.get t (_cn_to_en_tag self) = Some en ∧
              PyStr.truthy en = true).
  { clearbody step.
    induction cn_terms as [|t l IH]; intros acc; simpl.
    - split; [by left|]. intros [?|(t & Hin & _)]; [done|].
      by apply elem_of_nil in Hin.
    - rewrite IH, Hstep. split.
      + intros [[?|[Hg Ht]]|(t' & Hin & Hg & Ht)].
        * by left.
        * right. exists t. split; [by left|done].
        * right. exists t'. split; [by right|done].
      + intros [?|(t' & [->|Hin]%elem_of_cons & Hg & Ht)].
        * left. by left.
        * left. by right.
        * right. by exists t'. }
  rewrite Hgen. split; [|by right].
  intros [Hin|?]; [|done]. by apply not_elem_of_empty in Hin.
Qed.

(** What a loop of [_load_dictionary] keeps true of the two maps. *)
Lemma load_invariant l :
  ∀ maps,
    NoDup (PyDict.keys (fst maps)) →
    (∀ cn en, PyDict.get cn (fst maps) = Some en →
              is_Some (PyDict.get en (snd maps))) →
    (∀ en cn, PyDict.get en (snd maps) = Some cn →
              PyDict.mem cn (fst maps) = true) →
    let maps' := fold_left load_entry l maps in
    NoDup (PyDict.keys (fst maps')) ∧
    (∀ cn en, PyDict.get cn (fst maps') = Some en →
              is_Some (PyDict.get en (snd maps'))) ∧
    (∀ en cn, PyDict.get en (snd maps') = Some cn →
              PyDict.mem cn (fst maps') = true).
Proof.
  induction l as [|[cn0 en0] l IH]; intros maps Hnd Hto Hfrom; simpl; [done|].
  apply IH; simpl.
  - destruct (PyDict.mem cn0 (fst maps)) eqn:Hm.
    + by rewrite PyDictFacts.keys_set_mem.
    + rewrite PyDictFacts.keys_set_new by done.
      apply NoDup_app. split_and!; [done| |apply NoDup_singleton].
      intros x Hx ->%list_elem_of_singleton.
      apply PyDictFacts.mem_keys in Hx. congruence.
  - intros cn en Hg. destruct (decide (cn0 = cn)) as [->|Hne].
    + rewrite PyDictFacts.get_set_eq in Hg. injection Hg as ->.
      rewrite PyDictFacts.get_set_eq. by eexists.
    + rewrite PyDictFacts.get_set_ne in Hg by done.
      apply Hto in Hg. destruct (decide (en0 = en)) as [->|Hne'].
      * rewrite PyDictFacts.get_set_eq. by eexists.
      * by rewrite PyDictFacts.get_set_ne.
  - intros en cn Hg. destruct (decide (en0 = en)) as [->|Hne].
    + rewrite PyDictFacts.get_set_eq in Hg. injection Hg as ->.
      apply PyDictFacts.mem_set_eq.
    + rewrite PyDictFacts.get_set_ne in Hg by done.
      apply PyDictFacts.mem_set_mono. by eapply Hfrom.
Qed.

(** The keys of the first map after the loop: the old keys and the terms. *)
Lemma load_keys l :
  ∀ maps k,
    k ∈ PyDict.keys (fst (fold_left load_entry l maps)) ↔
    k ∈ PyDict.keys (fst maps) ∨ k ∈ l.*1.
Proof.
  induction l as [|[cn0 en0] l IH]; intros maps k; simpl.
  - split; [by left|]. intros [?|Hin]; [done|]. by apply elem_of_nil in Hin.
  - rewrite IH. simpl. rewrite elem_of_cons.
    rewrite <- !PyDictFacts.mem_keys.
    destruct (decide (cn0 = k)) as [->|Hne].
    + rewrite PyDictFacts.mem_set_eq. split; [|by left].
      intros _. right. by left.
    + rewrite PyDictFacts.mem_set_ne by done. split.
      * intros [?|?]; [by left|]. right. by right.
      * intros [?|[?|?]]; [by left|congruence|by right].
Qed.

(** Every pair of the first map after the loop was there or is an entry. *)
Lemma load_pairs l :
  ∀ maps cn en,
    PyDict.get cn (fst (fold_left load_entry l maps)) = Some en →
    PyDict.get cn (fst maps) = Some en ∨ (cn, en) ∈ l.
Proof.
  induction l as [|[cn0 en0] l IH]; intros maps cn en; simpl; [by left|].
  intros [Hg|Hin]%IH; [|right; by right]. simpl in Hg.
  destruct (decide (cn0 = cn)) as [->|Hne].
  - rewrite PyDictFacts.get_set_eq in Hg. injection Hg as ->. right. by left.
  - rewrite PyDictFacts.get_set_ne in Hg by done. by left.
Qed.

Lemma elem_of_cleaned `{CaseMapping} df cn en :
  (cn, en) ∈ cleaned df →
  ∃ tag right_tag_cn,
    (Some tag, Some right_tag_cn) ∈ df ∧
    cn = PyStr.strip right_tag_cn ∧ en = str_lower (PyStr.strip tag).
Proof.
  unfold cleaned. intros ([[tag|] [right_tag_cn|]] & Hin & Heq)%list_elem_of_omap;
    try discriminate Heq.
  injection Heq as <- <-. by exists tag, right_tag_cn.
Qed.

End DictionaryMoreFacts.

(** X11. The suggestions for a partial term, with or without a set of allowed
    tags: they are known terms in the order of the dictionary, never more
    than 200, each contains the stripped input, and a blank input gives none;
    without a set of allowed tags and with at most 200 known terms, every
    known term that contains the stripped, non-empty input is suggested. *)
Theorem suggestions_are_matching_known_terms
    (self : DictionaryManager.dictionary) (partial_cn_term : string)
    (allowed_en_tags : option (gset string)) :
  let suggested :=
    DictionaryManager.fuzzy_lookup_suggestions self partial_cn_term
      allowed_en_tags in
  suggested `sublist_of` DictionaryManager._all_cn_tags self ∧
  (length suggested ≤ 200)%nat ∧
  (∀ s, s ∈ suggested →
        PyStr.truthy (PyStr.strip partial_cn_term) = true ∧
        PyStr.contains s (PyStr.strip partial_cn_term) = true) ∧
  (PyStr.strip partial_cn_term = "" → suggested = []) ∧
  (∀ s, allowed_en_tags = None →
        (length (DictionaryManager._all_cn_tags self) ≤ 200)%nat →
        s ∈ DictionaryManager._all_cn_tags self →
        PyStr.truthy (PyStr.strip partial_cn_term) = true →
        PyStr.contains s (PyStr.strip partial_cn_term) = true →
        s ∈ suggested).
Proof.
  intros suggested. subst suggested.
  unfold DictionaryManager.fuzzy_lookup_suggestions.
  destruct (PyStr.truthy (PyStr.strip partial_cn_term)) eqn:Hinput; simpl.
  - set (raw := List.filter _ (DictionaryManager._all_cn_tags self)).
    assert (Hraw : raw `sublist_of` DictionaryManager._all_cn_tags self)
      by apply DictionaryMoreFacts.filter_sublist.
    split_and!.
    + destruct allowed_en_tags as [allowed|].
      * etrans; [apply sublist_take|]. etrans; [|exact Hraw].
        apply DictionaryMoreFacts.filter_sublist.
      * etrans; [apply sublist_take|exact Hraw].
    + destruct allowed_en_tags; rewrite length_take; lia.
    + intros s Hs. split; [done|].
      assert (Hin : s ∈ raw).
      { destruct allowed_en_tags as [allowed|].
        - apply elem_of_take in Hs as (i & Hs & _).
          apply list_elem_of_lookup_2 in Hs.
          by apply RowFacts.elem_of_filter in Hs as [Hs _].
        - apply elem_of_take in Hs as (i & Hs & _).
          by apply list_elem_of_lookup_2 in Hs. }
      by apply RowFacts.elem_of_filter in Hin as [_ Hin].
    + intros Hempty. by rewrite Hempty in Hinput.
    + intros s -> Hlen Hs _ Hcontains.
      rewrite take_ge.
      * apply RowFacts.elem_of_filter. by split.
      * etrans; [apply DictionaryMoreFacts.filter_length|exact Hlen].
  - split_and!; [apply sublist_nil_l|simpl; lia| |done|done].
    by intros s ?%elem_of_nil.
Qed.

(** X12. Under a set of allowed tags, every suggestion resolves: looking the
    suggested term up with [get_search_tags_from_cn_list] gives exactly one
    tag, and that tag is one of the allowed tags. *)
Theorem allowed_suggestions_resolve
    (self : DictionaryManager.dictionary) (partial_cn_term : string)
    (allowed : gset string) (s : string) :
  s ∈ DictionaryManager.fuzzy_lookup_suggestions self partial_cn_term
        (Some allowed) →
  ∃ en_tag,
    en_tag ∈ allowed ∧
    DictionaryManager.get_search_tags_from_cn_list self [s] = [en_tag].
Proof.
  unfold DictionaryManager.fuzzy_lookup_suggestions.
  destruct (negb _); [by intros ?%elem_of_nil|].
  intros (i & Hs & _)%elem_of_take. apply list_elem_of_lookup_2 in Hs.
  apply RowFacts.elem_of_filter in Hs as [_ Hs].
  rewrite DictionaryFacts.resolve_one.
  destruct (PyDict.get s _) as [en_tag|]; [|done].
  apply andb_prop in Hs as [-> Hin]. apply bool_decide_eq_true in Hin.
  by exists en_tag.
Qed.

Lemma allowed_suggestions_resolve_witness :
  ∃ en_tag,
    en_tag ∈ ({["cat"]} : gset string) ∧
    DictionaryManager.get_search_tags_from_cn_list
      (@DictionaryManager._load_dictionary Sample.casing (Some Sample.sheet)) ["mao"] =
    [en_tag].
Proof.
  apply (allowed_suggestions_resolve
           (@DictionaryManager._load_dictionary Sample.casing (Some Sample.sheet)) " ma "
           {["cat"]} "mao").
  vm_compute. by left.
Defined.

(** X13. The tags of a list of terms: a tag is returned exactly when it is
    the non-empty tag of one of the terms, and no tag is returned twice,
    however often a term is given and however many terms share a tag. *)
Theorem resolved_tags_are_the_terms_tags
    (self : DictionaryManager.dictionary) (cn_terms : list string) :
  NoDup (DictionaryManager.get_search_tags_from_cn_list self cn_terms) ∧
  ∀ en_tag,
    en_tag ∈ DictionaryManager.get_search_tags_from_cn_list self cn_terms ↔
    ∃ cn_term, cn_term ∈ cn_terms ∧
      PyDict.get cn_term (DictionaryManager._cn_to_en_tag self) = Some en_tag ∧
      en_tag ≠ "".
Proof.
  unfold DictionaryManager.get_search_tags_from_cn_list. split.
  - apply NoDup_elements.
  - intros en_tag. rewrite elem_of_elements,
      DictionaryMoreFacts.elem_of_final_en_tags.
    split; intros (t & Hin & Hg & Ht); exists t; split_and!; try done.
    + by intros ->.
    + by destruct en_tag.
Qed.

(** X14. What loading guarantees, whatever the sheet holds: the known terms
    are, without repetition, the stripped terms of the rows that have both
    cells; no known term has white space around it; every tag a term
    resolves to is the stripped, lowered tag cell of such a row and has a
    translation; and every translation is a known term. *)
Theorem loaded_dictionary_invariants `{CaseMapping}
    (source : option (list (option string * option string))) :
  let dict := DictionaryManager._load_dictionary source in
  NoDup (DictionaryManager._all_cn_tags dict) ∧
  (∀ cn_tag, DictionaryManager.is_cn_tag dict cn_tag = true ↔
             cn_tag ∈ DictionaryManager._all_cn_tags dict) ∧
  (∀ cn_tag, cn_tag ∈ DictionaryManager._all_cn_tags dict ↔
             ∃ df tag right_tag_cn,
               source = Some df ∧ (Some tag, Some right_tag_cn) ∈ df ∧
               cn_tag = PyStr.strip right_tag_cn) ∧
  (∀ cn_tag en_tag,
     PyDict.get cn_tag (DictionaryManager._cn_to_en_tag dict) = Some en_tag →
     PyStr.strip cn_tag = cn_tag ∧
     (∃ df tag right_tag_cn,
        source = Some df ∧ (Some tag, Some right_tag_cn) ∈ df ∧
        cn_tag = PyStr.strip right_tag_cn ∧
        en_tag = str_lower (PyStr.strip tag)) ∧
     is_Some (DictionaryManager.lookup_en_to_cn dict en_tag)) ∧
  (∀ en_tag cn_tag,
     DictionaryManager.lookup_en_to_cn dict en_tag = Some cn_tag →
     DictionaryManager.is_cn_tag dict cn_tag = true).
Proof.
  intros dict. subst dict. destruct source as [df|]; simpl.
  - unfold DictionaryManager.is_cn_tag, DictionaryManager.lookup_en_to_cn.
    cbn [DictionaryManager._cn_to_en_tag DictionaryManager._en_to_cn_tag].
    unfold DictionaryManager.load_entries.
    destruct (DictionaryMoreFacts.load_invariant
                (DictionaryManager.cleaned df) ([], []))
      as (Hnd & Hto & Hfrom); [constructor|done|done|].
    split_and!.
    + exact Hnd.
    + intros cn_tag. apply PyDictFacts.mem_keys.
    + intros cn_tag. rewrite DictionaryMoreFacts.load_keys. simpl. split.
      * intros [Hin|Hin]; [by apply elem_of_nil in Hin|].
        apply list_elem_of_fmap in Hin as ([cn en] & -> & Hin).
        apply DictionaryMoreFacts.elem_of_cleaned in Hin
          as (tag & right_tag_cn & Hin & -> & _).
        by exists df, tag, right_tag_cn.
      * intros (df' & tag & right_tag_cn & [= <-] & Hin & ->). right.
        apply list_elem_of_fmap.
        exists (PyStr.strip right_tag_cn, str_lower (PyStr.strip tag)).
        split; [done|]. unfold DictionaryManager.cleaned.
        apply list_elem_of_omap. by exists (Some tag, Some right_tag_cn).
    + intros cn_tag en_tag Hg.
      pose proof Hg as Hpair.
      apply DictionaryMoreFacts.load_pairs in Hpair as [Hpair|Hin]; [done|].
      apply DictionaryMoreFacts.elem_of_cleaned in Hin
        as (tag & right_tag_cn & Hin & -> & ->).
      split_and!; [apply StringFacts.strip_strip| |by eapply Hto].
      by exists df, tag, right_tag_cn.
    + exact Hfrom.
  - split_and!; [constructor| | |done|done].
    + intros cn_tag. split; [done|]. by intros ?%elem_of_nil.
    + intros cn_tag. split; [by intros ?%elem_of_nil|].
      by intros (df & _ & _ & [=] & _).
Qed.

(** * The search wrapper: the tag branch, and what holds of every result *)

Module AppMoreFacts.
Import DatabaseManager App.

(** What [omap] keeps, side by side with what [filter] keeps. *)
Lemma omap_filter_Forall2 {A B} (f : A → option B) (P : B → A → Prop) l :
  (∀ x e, x ∈ l → f x = Some e → P e x) →
  Forall2 P (omap f l)
    (List.filter (fun x => match f x with Some _ => true | None => false end) l).
Proof.
  induction l as [|x l IH]; intros HP; simpl; [constructor|].
  assert (Hrest : ∀ y e, y ∈ l → f y = Some e → P e y).
  { intros y e Hy. apply HP. by right. }
  destruct (f x) as [e|] eqn:Hx.
  - constructor; [|by apply IH]. apply HP; [by left|done].
  - by apply IH.
Qed.

Section Search.
Context `{OsPath} `{CaseMapping}.

(** The tag of a line of the tag branch, and whether a tag gives a line. *)
Lemma matched_hit tags terms lo hi t :
  match matched tags terms lo hi t with
  | Some l => label_name l = tag_name t ∧ label_score l = score t ∧
              in_range lo hi t &&
              (bool_decide (tag_name t ∈ tags) ||
               existsb (fun term => PyStr.contains (tag_name t) term) terms) = true
  | None => in_range lo hi t &&
            (bool_decide (tag_name t ∈ tags) ||
             existsb (fun term => PyStr.contains (tag_name t) term) terms) = false
  end.
Proof.
  unfold matched, in_range.
  destruct (PyFloat.between lo (score t) hi); simpl; [|done].
  destruct (bool_decide (tag_name t ∈ tags)); simpl; [done|].
  by destruct (existsb _ terms).
Qed.

Lemma matched_lines tags terms lo hi ts :
  map (fun l => (label_name l, label_score l))
      (omap (matched tags terms lo hi) ts) =
  map (fun t => (tag_name t, score t))
      (List.filter
         (fun t => in_range lo hi t &&
                   (bool_decide (tag_name t ∈ tags) ||
                    existsb (fun term => PyStr.contains (tag_name t) term) terms))
         ts).
Proof.
  induction ts as [|t ts IH]; [done|].
  change (omap (matched tags terms lo hi) (t :: ts)) with
    (match matched tags terms lo hi t with
     | Some l => l :: omap (matched tags terms lo hi) ts
     | None => omap (matched tags terms lo hi) ts
     end).
  pose proof (matched_hit tags terms lo hi t) as Hhit.
  destruct (matched tags terms lo hi t) as [l|].
  - destruct Hhit as (Hname & Hscore & Hhit). simpl. rewrite Hhit. simpl.
    by rewrite Hname, Hscore, IH.
  - simpl. by rewrite Hhit.
Qed.

Lemma matched_nonempty tags terms lo hi ts :
  nonempty (omap (matched tags terms lo hi) ts) =
  existsb
    (fun t => in_range lo hi t &&
              (bool_decide (tag_name t ∈ tags) ||
               existsb (fun term => PyStr.contains (tag_name t) term) terms))
    ts.
Proof.
  induction ts as [|t ts IH]; [done|].
  change (omap (matched tags terms lo hi) (t :: ts)) with
    (match matched tags terms lo hi t with
     | Some l => l :: omap (matched tags terms lo hi) ts
     | None => omap (matched tags terms lo hi) ts
     end).
  pose proof (matched_hit tags terms lo hi t) as Hhit.
  destruct (matched tags terms lo hi t) as [l|].
  - destruct Hhit as (_ & _ & Hhit). simpl. by rewrite Hhit.
  - simpl. by rewrite Hhit.
Qed.

(** With a resolved tag or a fuzzy term, [keep] is the tag branch. *)
Lemma keep_tag_branch intended tags terms fn lo hi fav item :
  tags ≠ ∅ ∨ terms ≠ [] →
  keep intended tags terms fn lo hi fav item =
  if (negb fav || is_favorite item) &&
     (negb (PyStr.truthy fn) || PyStr.contains (str_lower (file_path item)) fn) &&
     nonempty (omap (matched tags terms lo hi) (tags_of item))
  then Some (file_path item,
             {| title_name := basename (file_path item);
                title_heading := MatchedTags;
                title_tags := omap (matched tags terms lo hi) (tags_of item) |})
  else None.
Proof.
  intros Hsome. unfold keep.
  assert (Hbranch : bool_decide (tags = ∅) && negb (nonempty terms) = false).
  { destruct Hsome as [Ht|Ht].
    - by rewrite bool_decide_eq_false_2.
    - destruct terms; [done|]. simpl. apply andb_false_r. }
  rewrite Hbranch.
  destruct fav, (is_favorite item); simpl; try done;
    destruct (PyStr.truthy fn); simpl; try done;
    destruct (PyStr.contains _ fn); simpl; done.
Qed.

(** Whatever is asked: the shape of the four parts of a result. *)
Lemma result_shape dict db flt cn sel en fn lo hi fav :
  let res := search_images_wrapper dict db flt cn sel en fn lo hi fav in
  map fst (output_data res) = map file_path (filtered_raw_results res) ∧
  gallery_state res =
    imap (fun i item => (i, file_path item)) (filtered_raw_results res) ∧
  filtered_raw_results res `sublist_of`
    get_all_indexed_images (images_fault flt) db ∧
  match final_message res with
  | Found _ _ _ n | ShowingAll n _ _ => n = length (filtered_raw_results res)
  | NoTagsFound _ | DatabaseEmpty => filtered_raw_results res = []
  end.
Proof.
  intros res. subst res. unfold search_images_wrapper.
  destruct (_ && _ && _ && _ && _); simpl.
  { split_and!; [done..|apply sublist_nil_l|done]. }
  destruct (negb (nonempty _)); simpl.
  { split_and!; [done..|apply sublist_nil_l|done]. }
  set (f := keep _ _ _ _ _ _ _).
  rewrite AppFacts.kept_items, AppFacts.kept_entries.
  split_and!.
  - apply AppFacts.map_fst_entries.
  - done.
  - apply DictionaryMoreFacts.filter_sublist.
  - assert (Hlen : length (omap f (get_all_indexed_images (images_fault flt) db)) =
                   length (List.filter
                             (fun x => match f x with
                                       | Some _ => true
                                       | None => false
                                       end)
                             (get_all_indexed_images (images_fault flt) db))).
    { rewrite <- (length_map fst), <- (length_map file_path).
      f_equal. apply AppFacts.map_fst_entries. }
    by destruct (nonempty (search_msg_parts _ _ _ _ _ _ _ _)).
Qed.

End Search.

End AppMoreFacts.

(** X15. A search with a resolved tag or a fuzzy term: from the listing of
    all images and in its order, the result holds exactly the images that
    pass the favorites filter and the file name filter and have a tag whose
    score lies in [[min, max]] and whose name is a resolved tag or contains
    a fuzzy term; the title of each one lists exactly these tags of the
    image, all of them, in the order of the image's tags. *)
Theorem tag_search_results `{OsPath} `{CaseMapping}
    (dict : DictionaryManager.dictionary) (db : DatabaseManager.database)
    (flt : App.faults) (cn : string) (sel : option string) (en fn : string)
    (lo hi : float) (fav : bool) :
  let cn' := PyStr.strip cn in
  let en' := str_lower (PyStr.strip en) in
  let fn' := str_lower (PyStr.strip fn) in
  let tags := App.cn_search_tags dict db flt cn' sel in
  let terms := App.en_fuzzy_terms en' in
  let res := App.search_images_wrapper dict db flt cn sel en fn lo hi fav in
  let hit := fun t =>
    App.in_range lo hi t &&
    (bool_decide (DatabaseManager.tag_name t ∈ tags) ||
     existsb (fun term => PyStr.contains (DatabaseManager.tag_name t) term)
             terms) in
  tags ≠ ∅ ∨ terms ≠ [] →
  App.images_fault flt = None →
  App.filtered_raw_results res =
    List.filter
      (fun item =>
         (negb fav || DatabaseManager.is_favorite item) &&
         (negb (PyStr.truthy fn') ||
          PyStr.contains (str_lower (DatabaseManager.file_path item)) fn') &&
         existsb hit (DatabaseManager.tags_of item))
      (DatabaseManager.get_all_indexed_images None db) ∧
  Forall2
    (fun entry item =>
       fst entry = DatabaseManager.file_path item ∧
       App.title_heading (snd entry) = App.MatchedTags ∧
       map (fun l => (App.label_name l, App.label_score l))
           (App.title_tags (snd entry)) =
       map (fun t => (DatabaseManager.tag_name t, DatabaseManager.score t))
           (List.filter hit (DatabaseManager.tags_of item)))
    (App.output_data res) (App.filtered_raw_results res).
Proof.
  intros cn' en' fn' tags terms res hit Hsome Hflt.
  set (intended := App.user_intended_search cn' sel en' fn' fav).
  assert (Hnot : intended && bool_decide (tags = ∅) && negb (nonempty terms) &&
                 negb (PyStr.truthy fn') && negb fav = false).
  { destruct Hsome as [Ht|Ht].
    - rewrite (bool_decide_eq_false_2 _ Ht). by rewrite andb_false_r.
    - destruct terms; [done|]. simpl. by rewrite andb_false_r. }
  destruct (AppFacts.search_results dict db flt cn sel en fn lo hi fav Hnot)
    as (Hraw & Hout & _).
  fold res cn' en' fn' in Hraw, Hout. fold intended tags terms in Hraw, Hout.
  rewrite Hflt in Hraw, Hout. rewrite Hraw, Hout. split.
  - apply filter_ext. intros item.
    rewrite (AppMoreFacts.keep_tag_branch _ _ _ _ _ _ _ _ Hsome).
    rewrite AppMoreFacts.matched_nonempty. fold hit.
    by destruct (_ && existsb hit _).
  - apply AppMoreFacts.omap_filter_Forall2. intros item entry _.
    rewrite (AppMoreFacts.keep_tag_branch _ _ _ _ _ _ _ _ Hsome).
    destruct (_ && nonempty _); [|done]. intros [= <-]. simpl.
    split_and!; [done..|]. apply AppMoreFacts.matched_lines.
Qed.

Lemma tag_search_results_witness :
  App.filtered_raw_results
    (@App.search_images_wrapper Sample.os Sample.casing DictionaryManager.empty_dictionary
       Sample.one_image App.no_faults "" None "ca" "" 0 1 false) =
  DatabaseManager.get_all_indexed_images None Sample.one_image.
Proof.
  destruct (@tag_search_results Sample.os Sample.casing DictionaryManager.empty_dictionary
              Sample.one_image App.no_faults "" None "ca" "" 0 1 false)
    as [Hraw _].
  - right. vm_compute. discriminate.
  - reflexivity.
  - rewrite Hraw. vm_compute. reflexivity.
Defined.

(** X16. Whatever is asked and whatever read fails, the parts of a result
    agree: the gallery shows the paths of the raw results, entry by entry;
    index [i] of the gallery state is the path of the [i]-th raw result;
    the raw results are listed images, in the order of the listing; and the
    number in the message is the number of results (the two messages
    without a number come with no result). *)
Theorem search_result_is_consistent `{OsPath} `{CaseMapping}
    (dict : DictionaryManager.dictionary) (db : DatabaseManager.database)
    (flt : App.faults) (cn : string) (sel : option string) (en fn : string)
    (lo hi : float) (fav : bool) :
  let res := App.search_images_wrapper dict db flt cn sel en fn lo hi fav in
  map fst (App.output_data res) =
    map DatabaseManager.file_path (App.filtered_raw_results res) ∧
  (∀ i, App.gallery_state res !! i =
        (fun item => (i, DatabaseManager.file_path item)) <$>
          App.filtered_raw_results res !! i) ∧
  App.filtered_raw_results res `sublist_of`
    DatabaseManager.get_all_indexed_images None db ∧
  match App.final_message res with
  | App.Found _ _ _ n | App.ShowingAll n _ _ =>
      n = length (App.output_data res)
  | App.NoTagsFound _ | App.DatabaseEmpty => App.output_data res = []
  end.
Proof.
  intros res.
  destruct (AppMoreFacts.result_shape dict db flt cn sel en fn lo hi fav)
    as (Hpaths & Hstate & Hsub & Hmsg).
  fold res in Hpaths, Hstate, Hsub, Hmsg.
  assert (Hlen : length (App.output_data res) =
                 length (App.filtered_raw_results res)).
  { by rewrite <- (length_map fst), Hpaths, length_map. }
  split_and!.
  - exact Hpaths.
  - intros i. rewrite Hstate. apply list_lookup_imap.
  - destruct (ListingFacts.listing_fault (App.images_fault flt) db) as [Hf|Hf];
      rewrite Hf in Hsub; [|done].
    apply sublist_nil_r in Hsub. rewrite Hsub. apply sublist_nil_l.
  - destruct (App.final_message res); try (by rewrite Hlen).
    + apply length_zero_iff_nil. by rewrite Hlen, Hmsg.
    + apply length_zero_iff_nil. by rewrite Hlen, Hmsg.
Qed.

(** * The fuzzy terms of the wrapper *)

Module TokenFacts.

Lemma bytes_replace_comma s c :
  c ∈ list_ascii_of_string (PyStr.replace_comma s) → c ≠ ","%char.
Proof.
  induction s as [|d s IH]; simpl; [by intros ?%elem_of_nil|].
  intros [->|Hin]%elem_of_cons; [|by apply IH].
  destruct (Ascii.eqb d ",") eqn:Hd; [done|].
  intros ->. by rewrite Ascii.eqb_refl in Hd.
Qed.

End TokenFacts.

(** X17. The fuzzy terms the wrapper takes from the English field: no term
    is empty (an empty term would be contained in every tag name), no
    character of a term is white space, and no term holds a comma. *)
Theorem fuzzy_terms_are_clean_tokens `{CaseMapping} (english_input t : string) :
  t ∈ App.en_fuzzy_terms (str_lower (PyStr.strip english_input)) →
  t ≠ "" ∧
  Forall (fun ch => PyStr.is_space ch = false) (PyStr.chars t) ∧
  ∀ c, c ∈ list_ascii_of_string t → c ≠ ","%char.
Proof.
  unfold App.en_fuzzy_terms.
  destruct (PyStr.truthy _); [|by intros ?%elem_of_nil].
  rewrite list_elem_of_In. intros (t0 & <- & Hin)%in_map_iff.
  apply filter_In in Hin as [Hin _]. apply list_elem_of_In in Hin.
  apply StringFacts.split_tokens in Hin as (Hne & _ & Hspace & -> & Hbytes).
  split_and!; [done..|].
  intros c Hc. eapply TokenFacts.bytes_replace_comma. by apply Hbytes.
Qed.

Lemma fuzzy_terms_are_clean_tokens_witness :
  "cat" ≠ "" ∧
  Forall (fun ch => PyStr.is_space ch = false) (PyStr.chars "cat") ∧
  ∀ c, c ∈ list_ascii_of_string "cat" → c ≠ ","%char.
Proof.
  apply (@fuzzy_terms_are_clean_tokens Sample.casing
           (" Hat,CAT" +:+ PyStr.utf8 12288) "cat").
  vm_compute. right. by left.
Defined.

(** * Suggestions and the search they lead to *)

Module SuggestionFacts.
Import DatabaseManager.

(** The indexed tags are names of tag rows. *)
Lemma indexed_tags flt db en_tag :
  en_tag ∈ get_all_indexed_tags flt db →
  ∃ row, row ∈ tags db ∧ TAGS.tag_name row = en_tag.
Proof.
  unfold get_all_indexed_tags, _get_connection, execute, faulty. simpl.
  destruct (bool_decide (flt = Some 0%nat)); simpl;
    [by intros ?%not_elem_of_empty|].
  destruct (bool_decide (flt = Some 1%nat)); simpl;
    [by intros ?%not_elem_of_empty|].
  intros Hin. apply elem_of_list_to_set in Hin.
  apply (proj1 (elem_of_remove_dups _ _)) in Hin.
  apply list_elem_of_In, in_map_iff in Hin as (row & <- & Hrow).
  exists row. split; [by apply list_elem_of_In|done].
Qed.

(** Without a fault, every name of a tag row is an indexed tag. *)
Lemma indexed_tags_no_fault db row :
  row ∈ tags db → TAGS.tag_name row ∈ get_all_indexed_tags None db.
Proof.
  intros Hrow. unfold get_all_indexed_tags, _get_connection, execute, faulty.
  simpl. apply elem_of_list_to_set, elem_of_remove_dups, list_elem_of_In.
  apply in_map_iff. exists row. split; [done|by apply list_elem_of_In].
Qed.

Lemma contains_truthy s p :
  PyStr.contains s p = true → PyStr.truthy p = true → PyStr.truthy s = true.
Proof. destruct s as [|c s]; [|done]. by destruct p. Qed.

End SuggestionFacts.

(** X18. Every choice the suggestion box offers leads somewhere: the choice
    resolves to the name of a stored tag row, so that a search with the
    choice selected is never answered by "no tags found"; and when the
    listing can be read, no file name is asked for (the stripped, lowered
    file name field is empty) and the favorites filter is off, the search
    returns every image that has this tag with a score in [[min, max]]. *)
Theorem offered_choice_finds_its_images `{OsPath} `{CaseMapping}
    (dict : DictionaryManager.dictionary) (flt : option nat)
    (db : DatabaseManager.database) (cn_partial_input s : string) :
  s ∈ AppGlue.choices
        (AppGlue.get_cn_suggestions dict flt db cn_partial_input) →
  ∃ en_tag,
    (∃ row, row ∈ DatabaseManager.tags db ∧
            DatabaseManager.TAGS.tag_name row = en_tag) ∧
    ∀ flt' cn en fn lo hi,
      let res :=
        App.search_images_wrapper dict db flt' cn (Some s) en fn lo hi false in
      App.cn_search_tags dict db flt' (PyStr.strip cn) (Some s) = {[en_tag]} ∧
      App.final_message res ≠ App.NoTagsFound (PyStr.strip cn) ∧
      (App.images_fault flt' = None → str_lower (PyStr.strip fn) = "" →
       ∀ row r,
         row ∈ DatabaseManager.tags db → r ∈ DatabaseManager.images db →
         DatabaseManager.IMAGES.image_id r = DatabaseManager.TAGS.image_id row →
         DatabaseManager.TAGS.tag_name row = en_tag →
         PyFloat.between lo (DatabaseManager.TAGS.score row) hi = true →
         ∃ item, item ∈ App.filtered_raw_results res ∧
                 DatabaseManager.image_id item =
                 DatabaseManager.IMAGES.image_id r).
Proof.
  unfold AppGlue.get_cn_suggestions.
  destruct (negb (PyStr.truthy (PyStr.strip cn_partial_input))) eqn:Hinput;
    simpl; [by intros ?%elem_of_nil|].
  destruct (bool_decide (DatabaseManager.get_all_indexed_tags flt db = ∅));
    simpl; [by intros ?%elem_of_nil|].
  destruct (nonempty _) eqn:Hfound; simpl; [|by intros ?%elem_of_nil].
  intros Hs.
  assert (Htruthy : PyStr.truthy s = true).
  { pose proof Hs as Hs'. revert Hs'.
    unfold DictionaryManager.fuzzy_lookup_suggestions.
    rewrite StringFacts.strip_strip, Hinput.
    intros (i & Hi & _)%elem_of_take. apply list_elem_of_lookup_2 in Hi.
    apply RowFacts.elem_of_filter in Hi as [Hi _].
    apply RowFacts.elem_of_filter in Hi as [_ Hi].
    eapply SuggestionFacts.contains_truthy; [exact Hi|].
    by destruct (PyStr.truthy (PyStr.strip cn_partial_input)). }
  revert Hs. unfold DictionaryManager.fuzzy_lookup_suggestions.
  rewrite StringFacts.strip_strip, Hinput. intros (i & Hi & _)%elem_of_take.
  apply list_elem_of_lookup_2 in Hi.
  apply RowFacts.elem_of_filter in Hi as [_ Hi].
  destruct (PyDict.get s (DictionaryManager._cn_to_en_tag dict))
    as [en_tag|] eqn:Hget; [|done].
  apply andb_prop in Hi as [Hen Hallowed].
  apply bool_decide_eq_true in Hallowed.
  exists en_tag. split; [by eapply SuggestionFacts.indexed_tags|].
  intros flt' cn en fn lo hi.
  set (res := App.search_images_wrapper dict db flt' cn (Some s) en fn lo hi
                false).
  assert (Htags : App.cn_search_tags dict db flt' (PyStr.strip cn) (Some s) =
                  {[en_tag]}).
  { unfold App.cn_search_tags, App.cn_terms_to_search. rewrite Htruthy.
    rewrite DictionaryFacts.resolve_one, Hget, Hen. simpl.
    by rewrite (right_id_L ∅ (∪)). }
  assert (Hne : App.cn_search_tags dict db flt' (PyStr.strip cn) (Some s) ≠ ∅).
  { rewrite Htags. apply non_empty_singleton_L. }
  assert (Hnot :
    App.user_intended_search (PyStr.strip cn) (Some s)
      (str_lower (PyStr.strip en)) (str_lower (PyStr.strip fn)) false &&
    bool_decide (App.cn_search_tags dict db flt' (PyStr.strip cn) (Some s) = ∅) &&
    negb (nonempty (App.en_fuzzy_terms (str_lower (PyStr.strip en)))) &&
    negb (PyStr.truthy (str_lower (PyStr.strip fn))) && negb false = false).
  { rewrite (bool_decide_eq_false_2 _ Hne). by rewrite andb_false_r. }
  destruct (AppFacts.search_results dict db flt' cn (Some s) en fn lo hi false
              Hnot) as (Hraw & _ & Hmsg).
  fold res in Hraw, Hmsg. split_and!.
  - exact Htags.
  - rewrite Hmsg. by repeat case_match.
  - intros Hread Hfn row r Hrow Hr Hid Hname Hrange.
    destruct (ListingFacts.listing_complete db row r Hrow Hr Hid)
      as (item & Hitem & Hitem_id).
    exists item. split; [|done]. rewrite Hraw, Hread.
    apply RowFacts.elem_of_filter. split; [done|].
    rewrite (AppMoreFacts.keep_tag_branch _ _ _ _ _ _ _ _ (or_introl Hne)).
    rewrite AppMoreFacts.matched_nonempty, Hfn. simpl.
    assert (Hhit : existsb
              (fun t =>
                 App.in_range lo hi t &&
                 (bool_decide
                    (DatabaseManager.tag_name t ∈
                     App.cn_search_tags dict db flt' (PyStr.strip cn) (Some s)) ||
                  existsb
                    (fun term => PyStr.contains (DatabaseManager.tag_name t) term)
                    (App.en_fuzzy_terms (str_lower (PyStr.strip en)))))
              (DatabaseManager.tags_of item) = true).
    { apply existsb_exists. exists (Store.to_tag row). split.
      - apply list_elem_of_In.
        apply (ListingFacts.listing_tags db item _ Hitem).
        exists row. split_and!; [done| |done]. congruence.
      - unfold App.in_range. simpl. rewrite Hrange. simpl.
        rewrite bool_decide_eq_true_2; [done|].
        rewrite Htags, Hname. by apply elem_of_singleton. }
    by rewrite Hhit.
Qed.

Lemma offered_choice_finds_its_images_witness :
  ∃ item,
    item ∈ App.filtered_raw_results
             (@App.search_images_wrapper Sample.os Sample.casing
                (@DictionaryManager._load_dictionary Sample.casing (Some Sample.sheet))
                Sample.one_image App.no_faults "" (Some "mao") "" "" 0 1 false) ∧
    DatabaseManager.image_id item = 1.
Proof.
  destruct (@offered_choice_finds_its_images Sample.os Sample.casing
              (@DictionaryManager._load_dictionary Sample.casing (Some Sample.sheet)) None
              Sample.one_image "ma" "mao") as (en_tag & _ & Hsearch).
  { vm_compute. by left. }
  destruct (Hsearch App.no_faults "" "" "" 0%float 1%float)
    as (Htags & _ & Hfinds).
  assert (Hname : en_tag = "cat").
  { assert (Hin : en_tag ∈ ({[en_tag]} : gset string)) by by apply elem_of_singleton.
    rewrite <- Htags in Hin. unfold App.cn_search_tags in Hin.
    apply elem_of_list_to_set in Hin.
    assert (Hlist : DictionaryManager.get_search_tags_from_cn_list
                      (@DictionaryManager._load_dictionary Sample.casing (Some Sample.sheet))
                      (App.cn_terms_to_search
                         (@DictionaryManager._load_dictionary Sample.casing (Some Sample.sheet))
                         Sample.one_image App.no_faults (PyStr.strip "")
                         (Some "mao")) = ["cat"]).
    { vm_compute. reflexivity. }
    rewrite Hlist in Hin. by apply list_elem_of_singleton in Hin. }
  apply (Hfinds eq_refl eq_refl
           {| DatabaseManager.TAGS.tag_id := 1;
              DatabaseManager.TAGS.image_id := 1;
              DatabaseManager.TAGS.tag_name := "cat";
              DatabaseManager.TAGS.score := 0.75 |}
           {| DatabaseManager.IMAGES.image_id := 1;
              DatabaseManager.IMAGES.file_path := "/pics/a.jpg";
              DatabaseManager.IMAGES.date_scanned := "2023-12-31T00:00:00";
              DatabaseManager.IMAGES.is_favorite := 0 |}).
  - by left.
  - by left.
  - reflexivity.
  - by rewrite Hname.
  - reflexivity.
Defined.

(** * The tag search of the store *)

Module SearchFacts.
Import DatabaseManager Store DatabaseSearch.

Lemma insert_by_perm le a l : insert_by le a l ≡ₚ a :: l.
Proof.
  induction l as [|b l IH]; simpl; [done|].
  destruct (le a b); [done|]. rewrite IH. apply Permutation_swap.
Qed.

Lemma sort_by_perm le l : sort_by le l ≡ₚ l.
Proof.
  unfold sort_by. induction l as [|a l IH]; simpl; [done|].
  by rewrite insert_by_perm, IH.
Qed.

(** The rows of the query: the rows of the join with a wanted tag. *)
Lemma elem_of_matching search_tags min_score db row :
  row ∈ fst (select_matching search_tags min_score db) ↔
  ∃ t r, t ∈ tags db ∧ r ∈ images db ∧
         IMAGES.image_id r = TAGS.image_id t ∧ row = join_row t r ∧
         TAGS.tag_name t ∈ search_tags ∧
         PrimFloat.leb min_score (TAGS.score t) = true.
Proof.
  unfold select_matching. simpl.
  rewrite sort_by_perm, RowFacts.elem_of_filter, ListingFacts.elem_of_inner_join.
  unfold wanted. split.
  - intros [(t & r & Ht & Hr & Hid & ->) Hw]. apply andb_prop in Hw as [Hn Hs].
    apply bool_decide_eq_true in Hn. by exists t, r.
  - intros (t & r & Ht & Hr & Hid & -> & Hn & Hs). split; [by exists t, r|].
    simpl. by rewrite bool_decide_eq_true_2, Hs.
Qed.

(** Without a fault and with a tag to look for, the search is the regrouping
    of the rows of the query. *)
Lemma search_no_fault search_tags min_score db :
  search_tags ≠ [] →
  search_images None search_tags min_score db =
  PyDict.values
    (fold_left add_row (fst (select_matching search_tags min_score db)) []).
Proof. by destruct search_tags. Qed.

(** With a fault, or without a tag to look for, the search finds nothing. *)
Lemma search_fault flt search_tags min_score db :
  search_images flt search_tags min_score db = [] ∨
  (search_tags ≠ [] ∧
   search_images flt search_tags min_score db =
   search_images None search_tags min_score db).
Proof.
  destruct search_tags as [|tag search_tags]; [by left|].
  unfold search_images, _get_connection, execute, faulty. simpl.
  destruct (bool_decide (flt = Some 0%nat)); [by left|]. simpl.
  destruct (bool_decide (flt = Some 1%nat)); [by left|by right].
Qed.

End SearchFacts.

(** X19. The tag search of the store, [search_images]: no image is returned
    twice; every returned image is an image row, with its key, path and
    favorite flag, and comes with at least one tag; its tags are exactly its
    tag rows whose name is one of the searched tags and whose score reaches
    the minimum; without a fault, every image row with such a tag row is
    returned; and without a tag to look for nothing is returned. *)
Theorem search_images_finds_the_matching_rows
    (flt : option nat) (search_tags : list string) (min_score : float)
    (db : DatabaseManager.database) :
  let found := DatabaseSearch.search_images flt search_tags min_score db in
  NoDup (map DatabaseManager.image_id found) ∧
  (∀ item, item ∈ found →
     DatabaseManager.tags_of item ≠ [] ∧
     (∃ r, r ∈ DatabaseManager.images db ∧
           DatabaseManager.IMAGES.image_id r = DatabaseManager.image_id item ∧
           DatabaseManager.IMAGES.file_path r = DatabaseManager.file_path item ∧
           Store.favorite r = DatabaseManager.is_favorite item) ∧
     ∀ tg, tg ∈ DatabaseManager.tags_of item ↔
           ∃ t, t ∈ DatabaseManager.tags db ∧
                DatabaseManager.TAGS.image_id t = DatabaseManager.image_id item ∧
                Store.to_tag t = tg ∧
                DatabaseManager.TAGS.tag_name t ∈ search_tags ∧
                PrimFloat.leb min_score (DatabaseManager.TAGS.score t) = true) ∧
  (flt = None →
   ∀ t r, t ∈ DatabaseManager.tags db → r ∈ DatabaseManager.images db →
          DatabaseManager.IMAGES.image_id r = DatabaseManager.TAGS.image_id t →
          DatabaseManager.TAGS.tag_name t ∈ search_tags →
          PrimFloat.leb min_score (DatabaseManager.TAGS.score t) = true →
          ∃ item, item ∈ found ∧
                  DatabaseManager.image_id item =
                  DatabaseManager.IMAGES.image_id r) ∧
  (search_tags = [] → found = []).
Proof.
  intros found.
  set (rows := fst (DatabaseSearch.select_matching search_tags min_score db)).
  pose proof (ListingFacts.grouped_all rows) as Hg.
  assert (Hrows : ∀ row, row ∈ rows ↔
            ∃ t r, t ∈ DatabaseManager.tags db ∧ r ∈ DatabaseManager.images db ∧
              DatabaseManager.IMAGES.image_id r =
                DatabaseManager.TAGS.image_id t ∧
              row = Store.join_row t r ∧
              DatabaseManager.TAGS.tag_name t ∈ search_tags ∧
              PrimFloat.leb min_score (DatabaseManager.TAGS.score t) = true).
  { intros row. apply SearchFacts.elem_of_matching. }
  split_and!.
  - destruct (SearchFacts.search_fault flt search_tags min_score db)
      as [Hf|[Hne Hf]]; subst found; rewrite Hf; [constructor|].
    rewrite SearchFacts.search_no_fault by done. fold rows.
    rewrite (ListingFacts.grouped_ids _ _ Hg). by destruct Hg.
  - intros item Hin.
    destruct (SearchFacts.search_fault flt search_tags min_score db)
      as [Hf|[Hne Hf]]; subst found; rewrite Hf in Hin;
      [by apply elem_of_nil in Hin|].
    rewrite SearchFacts.search_no_fault in Hin by done. fold rows in Hin.
    destruct Hg as [Hnd Hget].
    apply PyDictFacts.elem_of_values in Hin as [k Hin].
    apply PyDictFacts.get_elem_of in Hin; [|done].
    specialize (Hget k). rewrite Hin in Hget.
    destruct Hget as (Hid & Htags & row0 & Hrow0 & Hk0 & Hp0 & Hf0).
    pose proof Hrow0 as Hrow0'.
    apply Hrows in Hrow0' as (t0 & r0 & Ht0 & Hr0 & Heq0 & -> & Hn0 & Hs0).
    simpl in Hk0, Hp0, Hf0.
    assert (Htg : ∀ tg, tg ∈ DatabaseManager.tags_of item ↔
              ∃ t, t ∈ DatabaseManager.tags db ∧
                DatabaseManager.TAGS.image_id t = DatabaseManager.image_id item ∧
                Store.to_tag t = tg ∧
                DatabaseManager.TAGS.tag_name t ∈ search_tags ∧
                PrimFloat.leb min_score (DatabaseManager.TAGS.score t) = true).
    { intros tg. rewrite Htags. unfold Store.tags_for.
      rewrite list_elem_of_fmap. split.
      - intros (row & -> & Hrow).
        apply RowFacts.elem_of_filter in Hrow as [Hrow Hk].
        apply bool_decide_eq_true in Hk.
        apply Hrows in Hrow as (t & r & Ht & Hr & Heq & -> & Hn & Hs).
        exists t. simpl in *. split_and!; [done|congruence|done..].
      - intros (t & Ht & Hk & <- & Hn & Hs).
        exists (Store.join_row t r0). split; [done|].
        apply RowFacts.elem_of_filter. split.
        + apply Hrows. exists t, r0.
          split_and!; [done|done|congruence|done|done|done].
        + apply bool_decide_eq_true. simpl. congruence. }
    split_and!.
    + intros Hnil.
      assert (Hin0 : Store.to_tag t0 ∈ DatabaseManager.tags_of item).
      { apply Htg. exists t0. split_and!; [done|congruence|done..]. }
      rewrite Hnil in Hin0. by apply elem_of_nil in Hin0.
    + exists r0. split_and!; [done|congruence|done|done].
    + exact Htg.
  - intros -> t r Ht Hr Heq Hn Hs. subst found.
    assert (Hne : search_tags ≠ []).
    { intros ->. by apply elem_of_nil in Hn. }
    rewrite SearchFacts.search_no_fault by done. fold rows.
    destruct Hg as [Hnd Hget].
    specialize (Hget (DatabaseManager.IMAGES.image_id r)).
    destruct (PyDict.get _ _) as [item|] eqn:Hitem.
    + exists item. split; [|by destruct Hget].
      apply PyDictFacts.elem_of_get in Hitem.
      unfold PyDict.values. apply list_elem_of_fmap. by eexists (_, _).
    + exfalso. apply (Hget (Store.join_row t r)); [|by simpl].
      apply Hrows. by exists t, r.
  - by intros ->.
Qed.

Lemma search_images_finds_the_matching_rows_witness :
  ∃ item,
    item ∈ DatabaseSearch.search_images None ["cat"] 0.5 Sample.one_image ∧
    DatabaseManager.image_id item = 1.
Proof.
  destruct (search_images_finds_the_matching_rows None ["cat"] 0.5%float
              Sample.one_image) as (_ & _ & Hfound & _).
  apply (Hfound eq_refl
           {| DatabaseManager.TAGS.tag_id := 1;
              DatabaseManager.TAGS.image_id := 1;
              DatabaseManager.TAGS.tag_name := "cat";
              DatabaseManager.TAGS.score := 0.75 |}
           {| DatabaseManager.IMAGES.image_id := 1;
              DatabaseManager.IMAGES.file_path := "/pics/a.jpg";
              DatabaseManager.IMAGES.date_scanned := "2023-12-31T00:00:00";
              DatabaseManager.IMAGES.is_favorite := 0 |}).
  - by left.
  - by left.
  - reflexivity.
  - by left.
  - reflexivity.
Defined.

(** * The tagging model *)

Module ProcessorFacts.
Import DatabaseManager TagProcessorModel.

Lemma fst_filter_sublist {A B} (p : A * B → bool) l :
  map fst (List.filter p l) `sublist_of` map fst l.
Proof.
  induction l as [|x l IH]; simpl; [constructor|].
  destruct (p x); simpl; by constructor.
Qed.

Lemma fst_zip_sublist {A B} (l : list A) :
  ∀ k : list B, map fst (zip l k) `sublist_of` l.
Proof.
  induction l as [|x l IH]; intros [|y k]; simpl;
    [constructor|constructor|apply sublist_nil_l|].
  constructor. apply IH.
Qed.

Lemma map_map_fst {A B C} (f : A * B → C) (g : C → A) l :
  (∀ x, g (f x) = fst x) → map g (map f l) = map fst l.
Proof.
  intros Hfg. induction l as [|x l IH]; simpl; [done|]. by rewrite Hfg, IH.
Qed.

End ProcessorFacts.

(** X20. What [process_image] returns: the path it was given, and tags that
    are labels of the model in the order of the labels; a tag is returned
    exactly when the file exists, the prediction succeeded with one score
    for each label, and the raw score of the label reaches the threshold;
    the score returned is the raw score rounded. A missing file and a
    failed prediction give no tag. *)
Theorem process_image_keeps_scores_from_threshold `{Keras}
    (self : TagProcessorModel.processor) (image_path : string) :
  let result := TagProcessorModel.process_image self image_path in
  fst result = image_path ∧
  map DatabaseManager.tag_name (snd result) `sublist_of`
    TagProcessorModel.labels self ∧
  (∀ t, t ∈ snd result ↔
        exists_file image_path = true ∧
        ∃ predictions i raw,
          predict image_path = Some predictions ∧
          length predictions = length (TagProcessorModel.labels self) ∧
          TagProcessorModel.labels self !! i =
            Some (DatabaseManager.tag_name t) ∧
          predictions !! i = Some raw ∧
          PrimFloat.leb (TagProcessorModel.threshold self) raw = true ∧
          DatabaseManager.score t = round4 raw) ∧
  (exists_file image_path = false ∨ predict image_path = None →
   snd result = []).
Proof.
  intros result. subst result. unfold TagProcessorModel.process_image.
  destruct (exists_file image_path) eqn:Hexists; simpl.
  - unfold TagProcessorModel._perform_danbooru_prediction.
    destruct (predict image_path) as [predictions|] eqn:Hpredict.
    + destruct (bool_decide (length predictions =
                             length (TagProcessorModel.labels self))) eqn:Hlen;
        simpl.
      * apply bool_decide_eq_true in Hlen. split_and!; [done| | |].
        -- rewrite (ProcessorFacts.map_map_fst _ DatabaseManager.tag_name)
             by done.
           etrans; [apply ProcessorFacts.fst_filter_sublist|].
           apply ProcessorFacts.fst_zip_sublist.
        -- intros t. rewrite list_elem_of_In, in_map_iff. split.
           ++ intros ([label raw] & <- & Hin).
              apply filter_In in Hin as [Hin Hraw].
              apply list_elem_of_In, elem_of_lookup_zip_with in Hin
                as (i & label' & raw' & [= -> ->] & Hlabel & Hscore).
              split; [done|]. by exists predictions, i, raw'.
           ++ intros (_ & predictions' & i & raw & [= <-] & _ & Hlabel &
                      Hscore & Hraw & Hround).
              exists (DatabaseManager.tag_name t, raw). split.
              ** destruct t as [name sc]. simpl in *. by rewrite Hround.
              ** apply filter_In. split; [|done].
                 apply list_elem_of_In, elem_of_lookup_zip_with.
                 by exists i, (DatabaseManager.tag_name t), raw.
        -- by intros [?|?].
      * apply bool_decide_eq_false in Hlen.
        split_and!; [done|apply sublist_nil_l| |done].
        intros t. split; [by intros ?%elem_of_nil|].
        intros (_ & predictions' & i & raw & [= <-] & Hlen' & _). done.
    + split_and!; [done|apply sublist_nil_l| |done].
      intros t. split; [by intros ?%elem_of_nil|].
      by intros (_ & predictions' & i & raw & [=] & _).
  - split_and!; [done|apply sublist_nil_l| |done].
    intros t. split; [by intros ?%elem_of_nil|]. by intros [[=] _].
Qed.

(** * The rescan of all managed folders *)

Module RescanFacts.
Import DatabaseManager AppGlue.

Section Rescan.
Context `{OsPath} `{TagProcessor}.

(** A scan of a directory leaves the engine idle, and hands to the tagging
    model only discovered files. *)
Lemma start_scan_idle_discovered folder (o : ScanEngine.oracle) engine :
  ScanEngine.is_scanning (ScanEngine.status_of engine) = false →
  isdir folder = true →
  ScanEngine.is_scanning
    (ScanEngine.status_of
       (fst (ScanEngine.start_scan folder None false o engine))) = false ∧
  ∀ p, p ∈ ScanEngine.processed
             (snd (ScanEngine.start_scan folder None false o engine)) →
       p ∈ ScanEngine.discover folder.
Proof.
  intros Hidle Hdir.
  destruct (ScanMoreFacts.start_scan_run folder None false o engine Hidle Hdir)
    as (n & st2 & db2 & ev3 & ok & Hscan & -> & -> & _).
  split; [done|].
  apply ScanRunFacts.scan_files_counts in Hscan as (_ & _ & ->).
  by intros p [Hp _]%ScanFacts.elem_of_to_scan.
Qed.

(** The loop of [scan_all], folder by folder. *)
Lemma scan_all_facts folders :
  ∀ oracles i engine,
    ScanEngine.is_scanning (ScanEngine.status_of engine) = false →
    let run := scan_all folders oracles i engine in
    ScanEngine.is_scanning (ScanEngine.status_of (fst run)) = false ∧
    (∀ I : database → Prop,
       (∀ o j n p db, I db → I (fst (ScanEngine.tag_and_save o j n p db))) →
       I (ScanEngine.db_manager engine) →
       I (ScanEngine.db_manager (fst run))) ∧
    Forall2
      (fun folder e =>
         if isdir folder then ∃ trace, e = Scanning folder trace
         else e = SkippedFolder folder)
      folders (snd run) ∧
    ∀ p, p ∈ ScanEngine.processed (scans (snd run)) →
         ∃ folder, folder ∈ folders ∧ isdir folder = true ∧
                   p ∈ ScanEngine.discover folder.
Proof.
  induction folders as [|folder rest IH]; intros oracles i engine Hidle; simpl.
  - split_and!; [done|done|constructor|]. by intros p ?%elem_of_nil.
  - destruct (isdir folder) eqn:Hdir.
    + destruct (start_scan_idle_discovered folder (oracles i) engine Hidle Hdir)
        as [Hidle1 Hfiles].
      pose proof (fun I Hstep =>
                    ScanMoreFacts.start_scan_invariant I folder None false
                      (oracles i) engine (Hstep (oracles i))) as Hinv.
      destruct (ScanEngine.start_scan folder None false (oracles i) engine)
        as [engine1 trace].
      simpl in Hidle1, Hfiles, Hinv.
      specialize (IH oracles (S i) engine1 Hidle1).
      destruct (scan_all rest oracles (S i) engine1) as [engine2 events].
      simpl in IH. destruct IH as (Hidle2 & Hinv2 & Hshape & Hproc).
      simpl. split_and!.
      * done.
      * intros I Hstep HI. apply Hinv2; [done|]. apply Hinv; [|done].
        intros _. apply Hstep.
      * constructor; [|done]. rewrite Hdir. by exists trace.
      * unfold scans. simpl. fold (scans events).
        rewrite ScanFacts.processed_app.
        intros p [Hp|Hp]%elem_of_app.
        -- exists folder. split_and!; [by left|done|by apply Hfiles].
        -- destruct (Hproc p Hp) as (f & Hf & Hd & Hin).
           exists f. split_and!; [by right|done..].
    + specialize (IH oracles (S i) engine Hidle).
      destruct (scan_all rest oracles (S i) engine) as [engine2 events].
      simpl in IH. destruct IH as (Hidle2 & Hinv2 & Hshape & Hproc).
      simpl. split_and!; [done|done| |].
      * constructor; [|done]. by rewrite Hdir.
      * intros p Hp. destruct (Hproc p Hp) as (f & Hf & Hd & Hin).
        exists f. split_and!; [by right|done..].
Qed.

End Rescan.

End RescanFacts.

(** X21. The rescan of all managed folders, started on an idle engine and
    run to its end: the engine is idle again; each managed folder, in the
    order of the list, is either scanned (a directory) or skipped (anything
    else); only files discovered in a managed directory are handed to the
    tagging model; no image row is deleted, and no key, path or favorite
    flag changes; and a well-formed store stays well formed. On a busy
    engine nothing is scanned and the engine is left as it is. *)
Theorem rescan_all_folders `{OsPath} `{TagProcessor}
    (allowed_paths : list string) (oracles : nat → ScanEngine.oracle)
    (engine : ScanEngine.engine) :
  let run :=
    AppGlue.start_rescan_all_folders_thread allowed_paths oracles engine in
  let engine' := snd (fst run) in
  let events := snd run in
  (ScanEngine.is_scanning (ScanEngine.status_of engine) = true →
   run = (AppGlue.ScanInProgress, engine, [])) ∧
  (ScanEngine.is_scanning (ScanEngine.status_of engine) = false →
   ScanEngine.is_scanning (ScanEngine.status_of engine') = false ∧
   (allowed_paths ≠ [] →
    fst (fst run) = AppGlue.RescanStarted (length allowed_paths) ∧
    Forall2
      (fun folder e =>
         if isdir folder then ∃ trace, e = AppGlue.Scanning folder trace
         else e = AppGlue.SkippedFolder folder)
      allowed_paths events) ∧
   (∀ p, p ∈ ScanEngine.processed (AppGlue.scans events) →
         ∃ folder, folder ∈ allowed_paths ∧ isdir folder = true ∧
                   p ∈ ScanEngine.discover folder) ∧
   Changes.kept (ScanEngine.db_manager engine) (ScanEngine.db_manager engine') ∧
   (Store.well_formed (ScanEngine.db_manager engine) →
    Store.well_formed (ScanEngine.db_manager engine'))).
Proof.
  intros run engine' events. subst engine' events run.
  unfold AppGlue.start_rescan_all_folders_thread, ScanEngine.get_status.
  split.
  - by intros ->.
  - intros Hidle. rewrite Hidle.
    destruct allowed_paths as [|folder rest].
    { simpl. split_and!; [done|done| |apply StoreFacts.kept_refl|done].
      by intros p ?%elem_of_nil. }
    change (negb (nonempty (folder :: rest))) with false. cbv iota.
    destruct (RescanFacts.scan_all_facts (folder :: rest) oracles 0 engine Hidle)
      as (Hidle' & Hinv & Hshape & Hproc).
    destruct (AppGlue.scan_all (folder :: rest) oracles 0 engine)
      as [engine' events].
    simpl in Hidle', Hinv, Hshape, Hproc. simpl. split_and!.
    + done.
    + done.
    + done.
    + apply (Hinv (Changes.kept (ScanEngine.db_manager engine))).
      * intros o j n p db Hkept. eapply StoreFacts.kept_trans; [exact Hkept|].
        apply ScanMoreFacts.tag_and_save_kept.
      * apply StoreFacts.kept_refl.
    + apply (Hinv Store.well_formed). intros o j n p db.
      apply InvariantFacts.tag_and_save_well_formed.
Qed.

Lemma rescan_all_folders_witness :
  ScanEngine.is_scanning
    (ScanEngine.status_of
       (snd (fst (@AppGlue.start_rescan_all_folders_thread Sample.os
                    Sample.tagger ["/pics"; "/gone"] (fun _ => Sample.quiet)
                    (Sample.fresh Sample.one_image))))) = false.
Proof.
  destruct (@rescan_all_folders Sample.os Sample.tagger ["/pics"; "/gone"]
              (fun _ => Sample.quiet) (Sample.fresh Sample.one_image))
    as [_ Hidle].
  by destruct (Hidle eq_refl) as [Hdone _].
Defined.

(** * The list of managed folders *)

Module ConfigFacts.
Import AppGlue.

Lemma remove_first_sublist x l : remove_first x l `sublist_of` l.
Proof.
  induction l as [|y l IH]; simpl; [constructor|].
  destruct (bool_decide (x = y)); by constructor.
Qed.

Lemma remove_first_other x l p :
  p ∈ l → p ≠ x → p ∈ remove_first x l.
Proof.
  induction l as [|y l IH]; simpl; [done|].
  intros [->|Hin]%elem_of_cons Hne.
  - rewrite bool_decide_eq_false_2 by done. by left.
  - destruct (bool_decide (x = y)); [done|]. right. by apply IH.
Qed.

Lemma remove_first_length x l :
  x ∈ l → S (length (remove_first x l)) = length l.
Proof.
  induction l as [|y l IH]; simpl; [by intros ?%elem_of_nil|].
  destruct (bool_decide (x = y)) eqn:Hxy; [done|].
  apply bool_decide_eq_false in Hxy.
  intros [?|Hin]%elem_of_cons; [done|]. simpl. by rewrite IH.
Qed.

Lemma remove_first_NoDup x l : NoDup l → x ∉ remove_first x l.
Proof.
  induction l as [|y l IH]; simpl; [by intros _ ?%elem_of_nil|].
  intros [Hy Hnd]%NoDup_cons.
  destruct (bool_decide (x = y)) eqn:Hxy.
  - apply bool_decide_eq_true in Hxy. by subst y.
  - apply bool_decide_eq_false in Hxy.
    intros [?|Hin]%elem_of_cons; [done|]. by apply IH.
Qed.

Lemma remove_first_last x l : x ∉ l → remove_first x (l ++ [x]) = l.
Proof.
  induction l as [|y l IH]; simpl.
  - intros _. by rewrite bool_decide_eq_true_2.
  - intros [Hne Hnotin]%not_elem_of_cons.
    rewrite bool_decide_eq_false_2 by done. by rewrite IH.
Qed.

Lemma save_config_paths write_ok c :
  allowed_paths (save_config write_ok c) = allowed_paths c.
Proof. unfold save_config. by destruct write_ok. Qed.

End ConfigFacts.

(** X22. Adding a folder: the list of managed folders keeps its entries and
    their order, and gains at most the normalized path, at the end, and
    only if it is a directory; a directory is in the list afterwards; a
    list without repetition stays without repetition; and when the list
    changes and the file can be written, the file holds the new list. *)
Theorem add_folder_extends_the_list `{OsPath}
    (write_ok : bool) (folder_path : string) (c : AppGlue.config) :
  let c' := snd (AppGlue.add_folder_to_config write_ok folder_path c) in
  AppGlue.allowed_paths c `prefix_of` AppGlue.allowed_paths c' ∧
  (∀ p, p ∈ AppGlue.allowed_paths c' →
        p ∈ AppGlue.allowed_paths c ∨
        (p = normpath folder_path ∧ isdir p = true)) ∧
  (isdir (normpath folder_path) = true →
   normpath folder_path ∈ AppGlue.allowed_paths c') ∧
  (NoDup (AppGlue.allowed_paths c) → NoDup (AppGlue.allowed_paths c')) ∧
  (write_ok = true → AppGlue.allowed_paths c' ≠ AppGlue.allowed_paths c →
   AppGlue.config_file c' = Some (AppGlue.allowed_paths c')).
Proof.
  intros c'. subst c'. unfold AppGlue.add_folder_to_config.
  destruct (isdir (normpath folder_path)) eqn:Hdir; simpl.
  - destruct (bool_decide (normpath folder_path ∈ AppGlue.allowed_paths c))
      eqn:Hin; simpl.
    + apply bool_decide_eq_true in Hin.
      split_and!; [done|by left|done|done|done].
    + apply bool_decide_eq_false in Hin.
      rewrite ConfigFacts.save_config_paths. simpl. split_and!.
      * by apply prefix_app_r.
      * intros p [?| ->%list_elem_of_singleton]%elem_of_app; [by left|].
        by right.
      * intros _. apply elem_of_app. right. by apply list_elem_of_singleton.
      * intros Hnd. apply NoDup_app. split_and!; [done| |apply NoDup_singleton].
        by intros x Hx ->%list_elem_of_singleton.
      * by intros ->.
  - split_and!; [done|by left|done|done|done].
Qed.

Lemma add_folder_extends_the_list_witness :
  "/pics" ∈
  AppGlue.allowed_paths
    (snd (@AppGlue.add_folder_to_config Sample.os true "/pics"
            {| AppGlue.allowed_paths := ["/home"];
               AppGlue.config_file := None |})).
Proof.
  destruct (@add_folder_extends_the_list Sample.os true "/pics"
              {| AppGlue.allowed_paths := ["/home"];
                 AppGlue.config_file := None |}) as (_ & _ & Hin & _).
  by apply Hin.
Defined.

(** X23. Removing a folder: the list loses at most one entry, never an
    entry other than the folder, and keeps the order of the others; an
    entry whose normalized path is the working directory is never removed;
    from a list without repetition, a folder that is listed, not empty and
    not the working directory is gone afterwards, and the file, when it
    can be written, holds the new list. *)
Theorem remove_folder_drops_one_entry `{OsPath}
    (write_ok : bool) (getcwd folder_to_remove : string) (c : AppGlue.config) :
  let c' :=
    snd (AppGlue.remove_folder_from_config write_ok getcwd folder_to_remove c) in
  AppGlue.allowed_paths c' `sublist_of` AppGlue.allowed_paths c ∧
  (length (AppGlue.allowed_paths c) ≤ S (length (AppGlue.allowed_paths c')))%nat ∧
  (∀ p, p ∈ AppGlue.allowed_paths c →
        p ≠ folder_to_remove ∨ normpath p = normpath getcwd →
        p ∈ AppGlue.allowed_paths c') ∧
  (NoDup (AppGlue.allowed_paths c) →
   folder_to_remove ∈ AppGlue.allowed_paths c →
   folder_to_remove ≠ "" →
   normpath folder_to_remove ≠ normpath getcwd →
   (folder_to_remove ∉ AppGlue.allowed_paths c') ∧
   (write_ok = true →
    AppGlue.config_file c' = Some (AppGlue.allowed_paths c'))).
Proof.
  intros c'. subst c'. unfold AppGlue.remove_folder_from_config.
  destruct (PyStr.truthy folder_to_remove) eqn:Hsel; simpl.
  - destruct (bool_decide (normpath folder_to_remove = normpath getcwd))
      eqn:Hcwd; simpl.
    + apply bool_decide_eq_true in Hcwd.
      split_and!; [done|lia|done|]. by intros _ _ _ ?.
    + apply bool_decide_eq_false in Hcwd.
      destruct (bool_decide (folder_to_remove ∈ AppGlue.allowed_paths c))
        eqn:Hin; simpl.
      * apply bool_decide_eq_true in Hin.
        rewrite ConfigFacts.save_config_paths. simpl. split_and!.
        -- apply ConfigFacts.remove_first_sublist.
        -- by rewrite ConfigFacts.remove_first_length.
        -- intros p Hp [Hne|Hp']; apply ConfigFacts.remove_first_other;
             try done. intros ->. done.
        -- intros Hnd _ _ _. split; [by apply ConfigFacts.remove_first_NoDup|].
           by intros ->.
      * apply bool_decide_eq_false in Hin.
        split_and!; [done|lia|done|]. by intros _ ?.
  - split_and!; [done|lia|done|]. intros _ _ Hne. by destruct folder_to_remove.
Qed.

Lemma remove_folder_drops_one_entry_witness :
  bool_decide
    ("/pics" ∈
     AppGlue.allowed_paths
       (snd (@AppGlue.remove_folder_from_config Sample.os true "/home" "/pics"
               {| AppGlue.allowed_paths := ["/home"; "/pics"];
                  AppGlue.config_file := None |}))) = false.
Proof.
  destruct (@remove_folder_drops_one_entry Sample.os true "/home" "/pics"
              {| AppGlue.allowed_paths := ["/home"; "/pics"];
                 AppGlue.config_file := None |}) as (_ & _ & _ & Hgone).
  apply bool_decide_eq_false. apply Hgone.
  - apply (bool_decide_unpack _). vm_compute. reflexivity.
  - right. by left.
  - done.
  - done.
Defined.

(** X24. The working directory stays a managed folder ([os.path.normpath]
    being idempotent on it): it is in the list when [load_config] returns,
    whatever the configuration file holds, and neither adding nor removing
    a folder takes it out of the list. *)
Theorem working_directory_stays_managed `{OsPath} (getcwd : string) :
  normpath (normpath getcwd) = normpath getcwd →
  (∀ source, normpath getcwd ∈ AppGlue.load_config getcwd source) ∧
  (∀ write_ok folder_path c,
     normpath getcwd ∈ AppGlue.allowed_paths c →
     normpath getcwd ∈
     AppGlue.allowed_paths
       (snd (AppGlue.add_folder_to_config write_ok folder_path c))) ∧
  (∀ write_ok folder_to_remove c,
     normpath getcwd ∈ AppGlue.allowed_paths c →
     normpath getcwd ∈
     AppGlue.allowed_paths
       (snd (AppGlue.remove_folder_from_config write_ok getcwd
               folder_to_remove c))).
Proof.
  intros Hidem. split_and!.
  - intros source. unfold AppGlue.load_config.
    destruct (bool_decide (normpath getcwd ∈ _)) eqn:Hin; simpl.
    + by apply bool_decide_eq_true in Hin.
    + apply elem_of_app. right. by apply list_elem_of_singleton.
  - intros write_ok folder_path c Hin. unfold AppGlue.add_folder_to_config.
    destruct (negb (isdir _)); [done|].
    destruct (negb (bool_decide _)); [|done]. simpl.
    rewrite ConfigFacts.save_config_paths. simpl. apply elem_of_app. by left.
  - intros write_ok folder_to_remove c Hin.
    unfold AppGlue.remove_folder_from_config.
    destruct (negb (PyStr.truthy _)); [done|].
    destruct (bool_decide (normpath folder_to_remove = normpath getcwd))
      eqn:Hcwd; [done|].
    apply bool_decide_eq_false in Hcwd.
    destruct (bool_decide (folder_to_remove ∈ _)); [|done]. simpl.
    rewrite ConfigFacts.save_config_paths. simpl.
    apply ConfigFacts.remove_first_other; [done|].
    intros Heq. apply Hcwd. by rewrite <- Heq, Hidem.
Qed.

Lemma working_directory_stays_managed_witness :
  "/home" ∈ @AppGlue.load_config Sample.os "/home"
              (AppGlue.Dictionary (Some ["/pics"])).
Proof.
  destruct (@working_directory_stays_managed Sample.os "/home" eq_refl)
    as (Hload & _ & _).
  apply (Hload (AppGlue.Dictionary (Some ["/pics"]))).
Defined.

(** X25. Adding a folder and removing it again gives the list back: for a
    directory that is not listed, whose normalized path is not empty and
    is not the working directory, removing the normalized path after the
    folder was added leaves the list of managed folders as it was. *)
Theorem add_then_remove_restores_the_list `{OsPath}
    (write_ok write_ok' : bool) (getcwd folder_path : string)
    (c : AppGlue.config) :
  isdir (normpath folder_path) = true →
  normpath folder_path ∉ AppGlue.allowed_paths c →
  normpath folder_path ≠ "" →
  normpath (normpath folder_path) ≠ normpath getcwd →
  AppGlue.allowed_paths
    (snd (AppGlue.remove_folder_from_config write_ok' getcwd
            (normpath folder_path)
            (snd (AppGlue.add_folder_to_config write_ok folder_path c)))) =
  AppGlue.allowed_paths c.
Proof.
  intros Hdir Hnew Hne Hcwd.
  unfold AppGlue.add_folder_to_config. rewrite Hdir.
  rewrite (bool_decide_eq_false_2 _ Hnew). simpl.
  unfold AppGlue.remove_folder_from_config.
  replace (PyStr.truthy (normpath folder_path)) with true
    by (by destruct (normpath folder_path)).
  rewrite (bool_decide_eq_false_2 _ Hcwd). simpl.
  rewrite ConfigFacts.save_config_paths. simpl.
  rewrite bool_decide_eq_true_2
    by (apply elem_of_app; right; by apply list_elem_of_singleton).
  simpl. rewrite ConfigFacts.save_config_paths. simpl.
  by apply ConfigFacts.remove_first_last.
Qed.

Lemma add_then_remove_restores_the_list_witness :
  AppGlue.allowed_paths
    (snd (@AppGlue.remove_folder_from_config Sample.os true "/home" "/pics"
            (snd (@AppGlue.add_folder_to_config Sample.os true "/pics"
                    {| AppGlue.allowed_paths := ["/home"];
                       AppGlue.config_file := None |})))) = ["/home"].
Proof.
  apply (@add_then_remove_restores_the_list Sample.os true true "/home" "/pics"
           {| AppGlue.allowed_paths := ["/home"];
              AppGlue.config_file := None |}).
  - reflexivity.
  - apply (bool_decide_unpack _). vm_compute. reflexivity.
  - done.
  - done.
Defined.

(** * The handlers of the gallery *)

Module GalleryFacts.
Import DatabaseManager Gallery.

(** The gallery state, as a dictionary: index [i] gives the path of the
    [i]-th entry. *)
Lemma get_imap {A} (g : A → string) (l : list A) :
  ∀ k i,
    PyDict.get i (imap (fun j x => ((k + j)%nat, g x)) l) =
    if (i <? k)%nat then None else g <$> l !! (i - k)%nat.
Proof.
  induction l as [|x l IH]; intros k i; simpl.
  - by destruct (i <? k)%nat.
  - destruct (decide (i = (k + 0)%nat)) as [->|Hne].
    + replace (k + 0 <? k)%nat with false by (symmetry; apply Nat.ltb_ge; lia).
      by replace (k + 0 - k)%nat with 0%nat by lia.
    + rewrite (imap_ext _ (fun j x => ((S k + j)%nat, g x)))
        by (intros; simpl; f_equal; lia).
      rewrite IH. destruct (i <? k)%nat eqn:Hik.
      * apply Nat.ltb_lt in Hik.
        by replace (i <? S k)%nat with true by (symmetry; apply Nat.ltb_lt; lia).
      * apply Nat.ltb_ge in Hik.
        replace (i <? S k)%nat with false by (symmetry; apply Nat.ltb_ge; lia).
        by replace (i - k)%nat with (S (i - S k)) by lia.
Qed.

Lemma gallery_state_get {A} (g : A → string) (l : list A) i :
  PyDict.get i (imap (fun j x => (j, g x)) l) = g <$> l !! i.
Proof.
  pose proof (get_imap g l 0 i) as Hget. simpl in Hget.
  by rewrite Nat.sub_0_r in Hget.
Qed.

Lemma insert_desc_perm a l : insert_desc a l ≡ₚ a :: l.
Proof.
  induction l as [|b l IH]; simpl; [done|].
  destruct (PrimFloat.leb _ _); [done|]. rewrite IH. apply Permutation_swap.
Qed.

Lemma sorted_tags_perm l : sorted_tags l ≡ₚ l.
Proof.
  unfold sorted_tags. induction l as [|a l IH]; simpl; [done|].
  by rewrite insert_desc_perm, IH.
Qed.

(** With distinct keys, the loop changes the entry of the key, and no
    other. *)
Lemma mark_first_entries id b l :
  NoDup (map image_id l) →
  Forall2
    (fun old new =>
       new = if decide (image_id old = id) then with_favorite b old else old)
    l (mark_first id b l).
Proof.
  induction l as [|item l IH]; simpl; [constructor|].
  intros [Hnotin Hnd]%NoDup_cons.
  destruct (bool_decide (image_id item = id)) eqn:Hid.
  - apply bool_decide_eq_true in Hid. constructor.
    + by rewrite decide_True.
    + apply Forall2_same_length_lookup_2; [done|].
      intros i old new Hold Hnew. rewrite Hold in Hnew. injection Hnew as <-.
      rewrite decide_False; [done|]. intros Heq. apply Hnotin.
      rewrite Hid, <- Heq. apply list_elem_of_In, in_map.
      apply list_elem_of_lookup_2 in Hold. by apply list_elem_of_In.
  - apply bool_decide_eq_false in Hid. constructor; [by rewrite decide_False|].
    by apply IH.
Qed.

(** The toggle of a key that is present, on a well-formed store. *)
Lemma toggle_present id db r :
  Store.well_formed db → r ∈ images db → IMAGES.image_id r = id →
  toggle_favorite_status None id db =
  (negb (Store.favorite r), snd (update_favorite id db)) ∧
  ∀ r', r' ∈ images (snd (update_favorite id db)) →
        IMAGES.image_id r' = id → Store.favorite r' = negb (Store.favorite r).
Proof.
  intros (Hpaths & Hids & Hfav) Hr Hid.
  assert (Hflag : Store.favorite (flipped id r) = negb (Store.favorite r)).
  { subst id. apply ToggleFacts.flipped_favorite.
    by apply (proj1 (Forall_forall _ _) Hfav). }
  split.
  - rewrite ToggleFacts.toggle_no_fault. f_equal.
    assert (Hone : List.filter (has_id id) (images db) = [r]).
    { subst id. unfold has_id.
      by rewrite (RowFacts.filter_key_unique IMAGES.image_id). }
    rewrite RowFacts.filter_fmap. rewrite (filter_ext _ (has_id id)).
    + rewrite Hone. simpl. exact Hflag.
    + intros x. unfold has_id. by rewrite ToggleFacts.flipped_id.
  - unfold update_favorite. simpl. intros r' Hr' Hid'.
    apply list_elem_of_In, in_map_iff in Hr' as (r0 & <- & Hr0).
    apply list_elem_of_In in Hr0. rewrite ToggleFacts.flipped_id in Hid'.
    assert (r0 = r) as ->; [|done].
    apply (RowFacts.key_inj IMAGES.image_id r r0 _ Hids); [done..|congruence].
Qed.

(** ** Texts *)

Lemma before_char_append sep a b :
  (∀ c, c ∈ list_ascii_of_string a → c ≠ sep) →
  before_char sep (a +:+ b) = a +:+ before_char sep b.
Proof.
  induction a as [|c a IH]; intros Hall; [done|].
  rewrite !StringFacts.append_cons. simpl.
  destruct (Ascii.eqb c sep) eqn:Hc.
  - apply Ascii.eqb_eq in Hc. exfalso. apply (Hall c); [by left|done].
  - rewrite IH; [done|]. intros c' Hc'. apply Hall. by right.
Qed.

Lemma second_part_append sep a b :
  (∀ c, c ∈ list_ascii_of_string a → c ≠ sep) →
  second_part sep (a +:+ String sep b) = Some (before_char sep b).
Proof.
  induction a as [|c a IH]; intros Hall.
  - rewrite StringFacts.append_nil. simpl. by rewrite Ascii.eqb_refl.
  - rewrite StringFacts.append_cons. simpl. destruct (Ascii.eqb c sep) eqn:Hc.
    + apply Ascii.eqb_eq in Hc. exfalso. apply (Hall c); [by left|done].
    + apply IH. intros c' Hc'. apply Hall. by right.
Qed.

Lemma second_part_skip sep a b :
  (∀ c, c ∈ list_ascii_of_string a → c ≠ sep) →
  second_part sep (a +:+ b) = second_part sep b.
Proof.
  induction a as [|c a IH]; intros Hall; [done|].
  rewrite StringFacts.append_cons. simpl. destruct (Ascii.eqb c sep) eqn:Hc.
  - apply Ascii.eqb_eq in Hc. exfalso. apply (Hall c); [by left|done].
  - apply IH. intros c' Hc'. apply Hall. by right.
Qed.

(** ['c' in s] *)
Lemma contains_char s c :
  PyStr.contains s (String c "") = true ↔ c ∈ list_ascii_of_string s.
Proof.
  induction s as [|d s IH]; simpl.
  - split; [done|]. by intros ?%elem_of_nil.
  - rewrite elem_of_cons, <- IH. destruct (Ascii.eqb c d) eqn:Hcd.
    + apply Ascii.eqb_eq in Hcd. subst d.
      destruct s; simpl; split; try done; by left.
    + apply Ascii.eqb_neq in Hcd. simpl. split; [by right|].
      by intros [?|?].
Qed.

End GalleryFacts.

Module TranslationFacts.
Import DictionaryManager.

(** Every pair of the second map after the loop was there or is an entry. *)
Lemma load_pairs_en l :
  ∀ maps en cn,
    PyDict.get en (snd (fold_left load_entry l maps)) = Some cn →
    PyDict.get en (snd maps) = Some cn ∨ (cn, en) ∈ l.
Proof.
  induction l as [|[cn0 en0] l IH]; intros maps en cn; simpl; [by left|].
  intros [Hg|Hin]%IH; [|right; by right]. simpl in Hg.
  destruct (decide (en0 = en)) as [->|Hne].
  - rewrite PyDictFacts.get_set_eq in Hg. injection Hg as ->. right. by left.
  - rewrite PyDictFacts.get_set_ne in Hg by done. by left.
Qed.

(** A term resolves to the tag of its last entry. *)
Lemma load_get_last l term tag :
  PyDict.get term (fst (load_entries l)) = Some tag →
  ∃ before after, l = before ++ (term, tag) :: after ∧ term ∉ after.*1.
Proof.
  unfold load_entries.
  induction l as [|[cn0 en0] l IH] using rev_ind; [done|].
  rewrite fold_left_app. simpl. destruct (decide (cn0 = term)) as [->|Hne].
  - rewrite PyDictFacts.get_set_eq. intros [= ->].
    exists l, []. split; [done|]. apply not_elem_of_nil.
  - rewrite PyDictFacts.get_set_ne by done.
    intros (before & after & -> & Hlast)%IH.
    exists before, (after ++ [(cn0, en0)]). split.
    + by rewrite <- app_assoc.
    + rewrite fmap_app. intros [Hin|Hin]%elem_of_app; [done|].
      simpl in Hin. by apply list_elem_of_singleton in Hin.
Qed.

(** The translation of a tag, in a loaded dictionary: a known term without
    white space around it. *)
Lemma loaded_translation `{CaseMapping} source en cn :
  lookup_en_to_cn (_load_dictionary source) en = Some cn →
  PyStr.strip cn = cn ∧ is_cn_tag (_load_dictionary source) cn = true.
Proof.
  destruct source as [df|]; [|done].
  unfold lookup_en_to_cn, is_cn_tag, _load_dictionary, load_entries.
  cbn [_cn_to_en_tag _en_to_cn_tag]. intros Hg. split.
  - apply load_pairs_en in Hg as [Hg|Hin]; [done|].
    apply DictionaryMoreFacts.elem_of_cleaned in Hin
      as (tag & right_tag_cn & _ & -> & _).
    apply StringFacts.strip_strip.
  - destruct (DictionaryMoreFacts.load_invariant (cleaned df) ([], []))
      as (_ & _ & Hfrom); [constructor|done|done|].
    by eapply Hfrom.
Qed.

End TranslationFacts.

(** X26. Selecting entry [i] of the gallery a search returned, on a
    well-formed store: the handler selects the [i]-th raw result of the
    search, shows the button for its favorite flag, and offers one choice
    for each tag of the image; an index beyond the results, and an image
    whose path is empty, give the error button and no selection. *)
Theorem select_opens_the_clicked_entry `{OsPath} `{CaseMapping} `{Format}
    (dict : DictionaryManager.dictionary) (db : DatabaseManager.database)
    (flt : App.faults) (cn : string) (sel : option string) (en fn : string)
    (lo hi : float) (fav : bool) (i : nat) :
  Store.well_formed db →
  let res := App.search_images_wrapper dict db flt cn sel en fn lo hi fav in
  let picked :=
    Gallery.on_gallery_select dict (Some i) (App.filtered_raw_results res)
      (App.gallery_state res) in
  match App.filtered_raw_results res !! i with
  | Some item =>
      if PyStr.truthy (DatabaseManager.file_path item)
      then Gallery.selected_item picked = Some item ∧
           Gallery.fav_button picked =
             Gallery.Favorite (DatabaseManager.is_favorite item) ∧
           Gallery.tags_visible picked = true ∧
           Gallery.tag_choices picked ≡ₚ
             map (Gallery.display_text dict) (DatabaseManager.tags_of item)
      else picked = Gallery.nothing Gallery.ButtonError
  | None => picked = Gallery.nothing Gallery.ButtonError
  end.
Proof.
  intros Hwf res picked. subst picked.
  destruct (AppMoreFacts.result_shape dict db flt cn sel en fn lo hi fav)
    as (_ & Hstate & _).
  fold res in Hstate. unfold Gallery.on_gallery_select.
  rewrite Hstate, GalleryFacts.gallery_state_get.
  destruct (App.filtered_raw_results res !! i) as [item|] eqn:Hitem; simpl;
    [|done].
  destruct (PyStr.truthy (DatabaseManager.file_path item)); simpl; [|done].
  assert (Hin : item ∈ App.filtered_raw_results res)
    by by eapply list_elem_of_lookup_2.
  assert (Hfind :
    List.find
      (fun it => bool_decide (DatabaseManager.file_path it =
                              DatabaseManager.file_path item))
      (App.filtered_raw_results res) = Some item).
  { destruct (List.find _ _) as [found|] eqn:Hfound.
    - apply find_some in Hfound as [Hfound Hpath].
      apply bool_decide_eq_true in Hpath. f_equal.
      apply (ListingMoreFacts.listing_paths db item found Hwf); [| |done].
      + by eapply AppFacts.search_results_listed.
      + eapply AppFacts.search_results_listed. by apply list_elem_of_In.
    - exfalso. apply list_elem_of_In in Hin.
      apply (find_none _ _ Hfound item) in Hin.
      by rewrite bool_decide_eq_true_2 in Hin. }
  rewrite Hfind. simpl. split_and!; [done..|].
  by rewrite GalleryFacts.sorted_tags_perm.
Qed.

Lemma select_opens_the_clicked_entry_witness :
  Gallery.fav_button
    (@Gallery.on_gallery_select Gallery.shown_as_075
       DictionaryManager.empty_dictionary (Some 0%nat)
       (App.filtered_raw_results
          (@App.load_initial_gallery Sample.os Sample.casing DictionaryManager.empty_dictionary
             Sample.one_image App.no_faults 0.5 1))
       (App.gallery_state
          (@App.load_initial_gallery Sample.os Sample.casing DictionaryManager.empty_dictionary
             Sample.one_image App.no_faults 0.5 1))) =
  Gallery.Favorite false.
Proof.
  assert (Hwf : Store.well_formed Sample.one_image).
  { split_and!.
    - apply (bool_decide_unpack _). vm_compute. reflexivity.
    - apply (bool_decide_unpack _). vm_compute. reflexivity.
    - repeat constructor. }
  pose proof (@select_opens_the_clicked_entry Sample.os Sample.casing Gallery.shown_as_075
                DictionaryManager.empty_dictionary Sample.one_image
                App.no_faults "" None "" "" 0.5%float 1%float false 0%nat Hwf)
    as Hsel.
  cbv zeta in Hsel.
  assert (Hitem :
    App.filtered_raw_results
      (@App.search_images_wrapper Sample.os Sample.casing DictionaryManager.empty_dictionary
         Sample.one_image App.no_faults "" None "" "" 0.5 1 false) !! 0%nat =
    Some {| DatabaseManager.image_id := 1;
            DatabaseManager.file_path := "/pics/a.jpg";
            DatabaseManager.is_favorite := false;
            DatabaseManager.tags_of := [Sample.cat 0.75; Sample.hat 0.25] |}).
  { vm_compute. reflexivity. }
  rewrite Hitem in Hsel. simpl in Hsel. by destruct Hsel as (_ & Hbutton & _).
Defined.

(** X27. A click on the favorite button, without a storage error, on a
    well-formed store, for a selected image whose row is in the store and a
    state with distinct keys: the button, the selected item and the entry
    of the image in the state all take the negation of the stored flag,
    which is the flag the store holds afterwards; the other entries of the
    state, the tag rows and the well-formedness of the store are
    untouched. *)
Theorem favorite_click_updates_store_and_state
    (selected : DatabaseManager.image) (results : list DatabaseManager.image)
    (db : DatabaseManager.database) (r : DatabaseManager.IMAGES.row) :
  Store.well_formed db →
  r ∈ DatabaseManager.images db →
  DatabaseManager.IMAGES.image_id r = DatabaseManager.image_id selected →
  NoDup (map DatabaseManager.image_id results) →
  let out :=
    Gallery.on_favorite_button_click None (Some selected) results db in
  let b := negb (Store.favorite r) in
  Gallery.click_button (fst out) = Gallery.Favorite b ∧
  Gallery.click_item (fst out) = Some (Gallery.with_favorite b selected) ∧
  Forall2
    (fun old new =>
       new = if decide (DatabaseManager.image_id old =
                        DatabaseManager.image_id selected)
             then Gallery.with_favorite b old else old)
    results (Gallery.click_results (fst out)) ∧
  (∀ r', r' ∈ DatabaseManager.images (snd out) →
         DatabaseManager.IMAGES.image_id r' =
           DatabaseManager.image_id selected →
         Store.favorite r' = b) ∧
  DatabaseManager.tags (snd out) = DatabaseManager.tags db ∧
  Store.well_formed (snd out).
Proof.
  intros Hwf Hr Hid Hnd out b. subst out b.
  unfold Gallery.on_favorite_button_click.
  destruct (GalleryFacts.toggle_present _ db r Hwf Hr Hid) as [-> Hrows].
  simpl. split_and!; [done|done| |exact Hrows|done|].
  - by apply GalleryFacts.mark_first_entries.
  - by apply ToggleFacts.update_favorite_well_formed.
Qed.

Lemma favorite_click_updates_store_and_state_witness :
  Gallery.click_button
    (fst (Gallery.on_favorite_button_click None
            (Some {| DatabaseManager.image_id := 1;
                     DatabaseManager.file_path := "/pics/a.jpg";
                     DatabaseManager.is_favorite := false;
                     DatabaseManager.tags_of := [] |})
            [] Sample.one_image)) =
  Gallery.Favorite true.
Proof.
  destruct (favorite_click_updates_store_and_state
              {| DatabaseManager.image_id := 1;
                 DatabaseManager.file_path := "/pics/a.jpg";
                 DatabaseManager.is_favorite := false;
                 DatabaseManager.tags_of := [] |}
              [] Sample.one_image
              {| DatabaseManager.IMAGES.image_id := 1;
                 DatabaseManager.IMAGES.file_path := "/pics/a.jpg";
                 DatabaseManager.IMAGES.date_scanned := "2023-12-31T00:00:00";
                 DatabaseManager.IMAGES.is_favorite := 0 |})
    as (Hbutton & _).
  - split_and!.
    + apply (bool_decide_unpack _). vm_compute. reflexivity.
    + apply (bool_decide_unpack _). vm_compute. reflexivity.
    + repeat constructor.
  - by left.
  - reflexivity.
  - constructor.
  - exact Hbutton.
Defined.

(** X28. A click on the favorite button while the store fails: the store is
    left as it was, and the button and the selected item show "not a
    favorite", whatever flag the store holds. *)
Theorem failed_favorite_click_shows_no_favorite
    (n : nat) (selected : DatabaseManager.image)
    (results : list DatabaseManager.image) (db : DatabaseManager.database) :
  (n < 4)%nat →
  let out :=
    Gallery.on_favorite_button_click (Some n) (Some selected) results db in
  snd out = db ∧
  Gallery.click_button (fst out) = Gallery.Favorite false ∧
  Gallery.click_item (fst out) = Some (Gallery.with_favorite false selected).
Proof.
  intros Hn out. subst out. unfold Gallery.on_favorite_button_click.
  by rewrite ToggleFacts.toggle_fault.
Qed.

Lemma failed_favorite_click_shows_no_favorite_witness :
  snd (Gallery.on_favorite_button_click (Some 2%nat)
         (Some {| DatabaseManager.image_id := 1;
                  DatabaseManager.file_path := "/pics/a.jpg";
                  DatabaseManager.is_favorite := true;
                  DatabaseManager.tags_of := [] |})
         [] Sample.low_favorite) = Sample.low_favorite.
Proof.
  destruct (failed_favorite_click_shows_no_favorite 2
              {| DatabaseManager.image_id := 1;
                 DatabaseManager.file_path := "/pics/a.jpg";
                 DatabaseManager.is_favorite := true;
                 DatabaseManager.tags_of := [] |}
              [] Sample.low_favorite) as (Hdb & _); [lia|exact Hdb].
Defined.

(** X29. The text [on_gallery_select] displays for a tag is parsed back by
    [on_tag_select_and_search]. With a loaded dictionary, for a tag whose
    name has no white space around it and holds neither "(" nor "[", whose
    translation (if any) holds no "(", and a score text without "(": when
    the tag has a non-empty translation, the handler searches with the
    translation selected, and that search looks for the tag of the last
    entry of the sheet that has this translation (the clicked tag, when
    that entry is its own; nothing, when that tag is empty); when the tag
    has no translation, the handler searches with the tag name as the fuzzy
    term. The file name and the favorites filter are passed on, and the
    score range is 0 to 1. *)
Theorem tag_click_is_parsed_back `{OsPath} `{CaseMapping} `{Format}
    (source : option (list (option string * option string)))
    (db : DatabaseManager.database) (flt : App.faults)
    (tag_info : DatabaseManager.tag) (file_name_input : string)
    (show_favorites : bool) :
  let dict := DictionaryManager._load_dictionary source in
  let en_tag := DatabaseManager.tag_name tag_info in
  let clicked :=
    Gallery.on_tag_select_and_search dict db flt
      (Gallery.display_text dict tag_info) file_name_input show_favorites in
  PyStr.strip en_tag = en_tag →
  (∀ c, c ∈ list_ascii_of_string en_tag → c ≠ "("%char ∧ c ≠ "["%char) →
  (∀ c, c ∈ list_ascii_of_string (fixed2 (DatabaseManager.score tag_info)) →
        c ≠ "("%char) →
  (∀ cn_tag c, DictionaryManager.lookup_en_to_cn dict en_tag = Some cn_tag →
               c ∈ list_ascii_of_string cn_tag → c ≠ "("%char) →
  match DictionaryManager.lookup_en_to_cn dict en_tag with
  | Some (String c cn_tag) =>
      clicked =
        Gallery.SearchedCn (String c cn_tag)
          (App.search_images_wrapper dict db flt "" (Some (String c cn_tag)) ""
             file_name_input 0 1 show_favorites) ∧
      ∃ resolved df before after,
        source = Some df ∧
        DictionaryManager.cleaned df =
          before ++ (String c cn_tag, resolved) :: after ∧
        (String c cn_tag ∉ after.*1) ∧
        App.cn_search_tags dict db flt (PyStr.strip "")
          (Some (String c cn_tag)) =
          if PyStr.truthy resolved then {[resolved]} else ∅
  | _ =>
      clicked =
        Gallery.SearchedEn en_tag
          (App.search_images_wrapper dict db flt "" None en_tag
             file_name_input 0 1 show_favorites)
  end.
Proof.
  intros dict en_tag clicked Hstrip Hen Hfmt Hcn. subst clicked.
  assert (Hplain :
    Gallery.on_tag_select_and_search dict db flt
      (en_tag +:+ " [" +:+ fixed2 (DatabaseManager.score tag_info) +:+ "]")
      file_name_input show_favorites =
    Gallery.SearchedEn en_tag
      (App.search_images_wrapper dict db flt "" None en_tag
         file_name_input 0 1 show_favorites)).
  { unfold Gallery.on_tag_select_and_search, Gallery.parse_display.
    replace (PyStr.truthy (en_tag +:+ _)) with true
      by (by destruct en_tag).
    assert (Hno : PyStr.contains
                    (en_tag +:+ " [" +:+
                     fixed2 (DatabaseManager.score tag_info) +:+ "]") "(" =
                  false).
    { apply not_true_is_false. intros Hin%GalleryFacts.contains_char.
      rewrite !StringFacts.bytes_append in Hin. simpl in Hin.
      apply elem_of_app in Hin as [Hin|Hin]; [by apply Hen in Hin as [? _]|].
      apply elem_of_cons in Hin as [Hin|Hin]; [done|].
      apply elem_of_cons in Hin as [Hin|Hin]; [done|].
      apply elem_of_app in Hin as [Hin|Hin]; [by apply Hfmt in Hin|].
      by apply list_elem_of_singleton in Hin. }
    rewrite Hno. simpl.
    rewrite GalleryFacts.before_char_append
      by (intros c Hc; by apply Hen in Hc as [_ ?]).
    change (Gallery.before_char "[" (" [" +:+ _)) with " ".
    by rewrite StringFacts.strip_append_space, Hstrip. }
  unfold Gallery.display_text. fold en_tag.
  destruct (DictionaryManager.lookup_en_to_cn dict en_tag) as [cn_tag|]
    eqn:Hlookup; [|exact Hplain].
  destruct cn_tag as [|c cn_tag]; [exact Hplain|].
  set (cn := String c cn_tag) in *. simpl PyStr.truthy. cbv iota.
  destruct (TranslationFacts.loaded_translation source en_tag cn Hlookup)
    as [Hcn_strip Hknown].
  fold dict in Hknown. split.
  - unfold Gallery.on_tag_select_and_search, Gallery.parse_display.
    replace (PyStr.truthy (cn +:+ _)) with true by done.
    assert (Hopen : PyStr.contains
                      (cn +:+ " (" +:+ en_tag +:+ ") [" +:+
                       fixed2 (DatabaseManager.score tag_info) +:+ "]") "(" =
                    true).
    { apply GalleryFacts.contains_char. rewrite StringFacts.bytes_append.
      apply elem_of_app. right. simpl. right. by left. }
    assert (Hclose : PyStr.contains
                       (cn +:+ " (" +:+ en_tag +:+ ") [" +:+
                        fixed2 (DatabaseManager.score tag_info) +:+ "]") ")" =
                     true).
    { apply GalleryFacts.contains_char.
      rewrite !StringFacts.bytes_append. apply elem_of_app. right. simpl.
      right. right. apply elem_of_app. right. by left. }
    rewrite Hopen, Hclose. simpl andb. cbv iota.
    change (cn +:+ " (" +:+ en_tag +:+ ") [" +:+
            fixed2 (DatabaseManager.score tag_info) +:+ "]")
      with (cn +:+ String " " (String "("
              (en_tag +:+ ") [" +:+
               fixed2 (DatabaseManager.score tag_info) +:+ "]"))).
    rewrite (GalleryFacts.before_char_append "(" cn)
      by (intros c' Hc'; by eapply Hcn).
    change (Gallery.before_char "(" (String " " (String "(" _))) with " ".
    rewrite StringFacts.strip_append_space, Hcn_strip.
    rewrite (GalleryFacts.second_part_skip "(" cn)
      by (intros c' Hc'; by eapply Hcn).
    simpl. by rewrite Hknown.
  - unfold DictionaryManager.is_cn_tag in Hknown.
    rewrite PyDictFacts.mem_get in Hknown.
    apply bool_decide_eq_true in Hknown as [resolved Hresolved].
    destruct source as [df|]; [|done].
    pose proof Hresolved as Hlast.
    apply TranslationFacts.load_get_last in Hlast
      as (before & after & Hrows & Hlast).
    exists resolved, df, before, after. split_and!; [done..|].
    unfold App.cn_search_tags, App.cn_terms_to_search.
    change (PyStr.truthy cn) with true. cbv iota.
    rewrite DictionaryFacts.resolve_one, Hresolved.
    destruct (PyStr.truthy resolved); simpl; [|done].
    by rewrite (right_id_L ∅ (∪)).
Qed.

Lemma tag_click_is_parsed_back_witness :
  @Gallery.on_tag_select_and_search Sample.os Sample.casing
    (@DictionaryManager._load_dictionary Sample.casing (Some Sample.sheet))
    Sample.one_image App.no_faults
    (@Gallery.display_text Gallery.shown_as_075
       (@DictionaryManager._load_dictionary Sample.casing (Some Sample.sheet))
       (Sample.cat 0.75)) "" false =
  Gallery.SearchedCn "mao"
    (@App.search_images_wrapper Sample.os Sample.casing
       (@DictionaryManager._load_dictionary Sample.casing (Some Sample.sheet))
       Sample.one_image App.no_faults "" (Some "mao") "" "" 0 1 false).
Proof.
  pose proof (@tag_click_is_parsed_back Sample.os Sample.casing
                Gallery.shown_as_075 (Some Sample.sheet) Sample.one_image
                App.no_faults (Sample.cat 0.75) "" false) as Hclick.
  cbv zeta in Hclick.
  assert (Hlookup :
    DictionaryManager.lookup_en_to_cn
      (@DictionaryManager._load_dictionary Sample.casing (Some Sample.sheet))
      (DatabaseManager.tag_name (Sample.cat 0.75)) = Some "mao").
  { vm_compute. reflexivity. }
  rewrite Hlookup in Hclick. apply Hclick.
  - reflexivity.
  - intros c Hc. simpl in Hc.
    repeat (apply elem_of_cons in Hc as [->|Hc]; [done|]).
    by apply elem_of_nil in Hc.
  - intros c Hc. simpl in Hc.
    repeat (apply elem_of_cons in Hc as [->|Hc]; [done|]).
    by apply elem_of_nil in Hc.
  - intros cn_tag c [= <-] Hc. simpl in Hc.
    repeat (apply elem_of_cons in Hc as [->|Hc]; [done|]).
    by apply elem_of_nil in Hc.
Defined.

(** Two tags with one translation: the click on the choice of [cat] searches
    [kitty], and finds nothing in a store that holds [cat] only. *)
Example tag_click_shared_translation_sample :
  @Gallery.display_text Gallery.shown_as_075
    (@DictionaryManager._load_dictionary Sample.casing
       (Some Sample.two_tags_one_term)) (Sample.cat 0.75) =
    "mao (cat) [0.75]" ∧
  ∃ res,
    @Gallery.on_tag_select_and_search Sample.os Sample.casing
      (@DictionaryManager._load_dictionary Sample.casing
         (Some Sample.two_tags_one_term))
      Sample.one_image App.no_faults "mao (cat) [0.75]" "" false =
    Gallery.SearchedCn "mao" res ∧
    App.filtered_raw_results res = [] ∧
    DictionaryManager.get_search_tags_from_cn_list
      (@DictionaryManager._load_dictionary Sample.casing
         (Some Sample.two_tags_one_term)) ["mao"] = ["kitty"].
Proof.
  split; [reflexivity|]. eexists. split_and!.
  - vm_compute. reflexivity.
  - vm_compute. reflexivity.
  - vm_compute. reflexivity.
Qed.

(** * The order of the results *)

Module OrderFacts.
Import DatabaseManager Store DatabaseSearch.

Lemma insert_by_keys (le : joined → joined → bool) a l :
  (∀ x y, le x y = true → j_image_id x ≤ j_image_id y) →
  (∀ x y, le x y = false → j_image_id y ≤ j_image_id x) →
  StronglySorted Z.le (map j_image_id l) →
  StronglySorted Z.le (map j_image_id (insert_by le a l)).
Proof.
  intros Hle Hnot. induction l as [|b l IH]; simpl.
  - intros _. repeat constructor.
  - intros Hsorted. pose proof Hsorted as Hs.
    apply StronglySorted_inv in Hs as [Hl Hall].
    destruct (le a b) eqn:Hab; simpl.
    + constructor; [done|]. apply Hle in Hab. constructor; [done|].
      eapply Forall_impl; [exact Hall|]. simpl. intros; lia.
    + apply Hnot in Hab. constructor; [by apply IH|].
      apply Forall_forall. intros k Hk.
      apply list_elem_of_In, in_map_iff in Hk as (x & <- & Hx).
      apply list_elem_of_In in Hx.
      rewrite (SearchFacts.insert_by_perm le a l) in Hx.
      apply elem_of_cons in Hx as [->|Hx]; [done|].
      apply (proj1 (Forall_forall _ _) Hall).
      apply list_elem_of_In, in_map. by apply list_elem_of_In.
Qed.

Lemma sort_by_keys (le : joined → joined → bool) l :
  (∀ x y, le x y = true → j_image_id x ≤ j_image_id y) →
  (∀ x y, le x y = false → j_image_id y ≤ j_image_id x) →
  StronglySorted Z.le (map j_image_id (sort_by le l)).
Proof.
  intros Hle Hnot. unfold sort_by.
  induction l as [|a l IH]; simpl; [constructor|]. by apply insert_by_keys.
Qed.

Lemma insert_sorted_by a l : insert_sorted a l = insert_by before a l.
Proof. induction l as [|b l IH]; simpl; [done|]. by rewrite IH. Qed.

Lemma order_by_sort_by l : order_by l = sort_by before l.
Proof.
  unfold order_by, sort_by. induction l as [|a l IH]; simpl; [done|].
  by rewrite IH, insert_sorted_by.
Qed.

Lemma before_keys x y :
  (before x y = true → j_image_id x ≤ j_image_id y) ∧
  (before x y = false → j_image_id y ≤ j_image_id x).
Proof.
  unfold before. destruct (j_image_id x <? j_image_id y) eqn:Hlt; simpl.
  - apply Z.ltb_lt in Hlt. split; [lia|done].
  - apply Z.ltb_ge in Hlt. split; [|done].
    destruct (j_image_id x =? j_image_id y) eqn:Heq; [|done].
    apply Z.eqb_eq in Heq. lia.
Qed.

Lemma before_name_keys x y :
  (before_name x y = true → j_image_id x ≤ j_image_id y) ∧
  (before_name x y = false → j_image_id y ≤ j_image_id x).
Proof.
  unfold before_name. destruct (j_image_id x <? j_image_id y) eqn:Hlt; simpl.
  - apply Z.ltb_lt in Hlt. split; [lia|done].
  - apply Z.ltb_ge in Hlt. split; [|done].
    destruct (j_image_id x =? j_image_id y) eqn:Heq; [|done].
    apply Z.eqb_eq in Heq. lia.
Qed.

Lemma add_row_keys d row :
  PyDict.keys (add_row d row) =
  if PyDict.mem (j_image_id row) d then PyDict.keys d
  else PyDict.keys d ++ [j_image_id row].
Proof.
  unfold add_row. rewrite PyDictFacts.keys_update.
  destruct (PyDict.mem (j_image_id row) d) eqn:Hmem; [done|].
  by apply PyDictFacts.keys_set_new.
Qed.

Lemma sorted_snoc l k :
  StronglySorted Z.lt l → Forall (fun x => x < k) l →
  StronglySorted Z.lt (l ++ [k]).
Proof.
  induction 1 as [|x l Hsorted IH Hall]; simpl.
  - intros _. repeat constructor.
  - intros [Hx Hl]%Forall_cons. constructor; [by apply IH|].
    apply Forall_app. split; [done|]. by constructor.
Qed.

(** Rows by ascending key regroup into entries by ascending key. *)
Lemma fold_add_row_keys rows :
  ∀ d,
    StronglySorted Z.lt (PyDict.keys d) →
    (∀ k row, k ∈ PyDict.keys d → row ∈ rows → k ≤ j_image_id row) →
    StronglySorted Z.le (map j_image_id rows) →
    StronglySorted Z.lt (PyDict.keys (fold_left add_row rows d)).
Proof.
  induction rows as [|row rows IH]; intros d Hd Hbelow Hrows; simpl; [done|].
  apply StronglySorted_inv in Hrows as [Hrest Hall].
  assert (Hlater : ∀ row', row' ∈ rows → j_image_id row ≤ j_image_id row').
  { intros row' Hrow'. apply (proj1 (Forall_forall _ _) Hall).
    apply list_elem_of_In, in_map. by apply list_elem_of_In. }
  apply IH; [| |done]; rewrite add_row_keys;
    destruct (PyDict.mem (j_image_id row) d) eqn:Hmem.
  - done.
  - apply sorted_snoc; [done|]. apply Forall_forall. intros k Hk.
    assert (k ≤ j_image_id row) by (apply Hbelow; [done|by left]).
    assert (k ≠ j_image_id row).
    { intros ->. apply PyDictFacts.mem_keys in Hk. congruence. }
    lia.
  - intros k row' Hk Hrow'. apply Hbelow; [done|by right].
  - intros k row' [Hk| ->%list_elem_of_singleton]%elem_of_app Hrow'.
    + apply Hbelow; [done|by right].
    + by apply Hlater.
Qed.

Lemma regrouped_in_key_order rows :
  StronglySorted Z.le (map j_image_id rows) →
  StronglySorted Z.lt
    (map image_id (PyDict.values (fold_left add_row rows []))).
Proof.
  intros Hrows.
  rewrite (ListingFacts.grouped_ids _ _ (ListingFacts.grouped_all rows)).
  apply fold_add_row_keys; [constructor| |done].
  by intros k row ?%elem_of_nil.
Qed.

Lemma sublist_sorted (l k : list image) :
  l `sublist_of` k →
  StronglySorted Z.lt (map image_id k) → StronglySorted Z.lt (map image_id l).
Proof.
  induction 1 as [|x l k Hsub IH|x l k Hsub IH]; simpl; [done| |].
  - intros [Hk Hall]%StronglySorted_inv. constructor; [by apply IH|].
    apply Forall_forall. intros y Hy.
    apply (proj1 (Forall_forall _ _) Hall).
    apply list_elem_of_In, in_map_iff in Hy as (z & <- & Hz).
    apply list_elem_of_In, in_map, list_elem_of_In.
    eapply elem_of_sublist; [|exact Hsub]. by apply list_elem_of_In.
  - intros [Hk _]%StronglySorted_inv. by apply IH.
Qed.

End OrderFacts.

(** X30. Results come by ascending image key: the listing of all images,
    the tag search of the store and the raw results of every search of the
    wrapper (and so the gallery, entry by entry) are in strictly ascending
    order of [image_id], whatever fails. *)
Theorem results_come_in_key_order `{OsPath} `{CaseMapping}
    (dict : DictionaryManager.dictionary) (db : DatabaseManager.database) :
  (∀ flt,
     StronglySorted Z.lt
       (map DatabaseManager.image_id
          (DatabaseManager.get_all_indexed_images flt db))) ∧
  (∀ flt search_tags min_score,
     StronglySorted Z.lt
       (map DatabaseManager.image_id
          (DatabaseSearch.search_images flt search_tags min_score db))) ∧
  (∀ flt cn sel en fn lo hi fav,
     StronglySorted Z.lt
       (map DatabaseManager.image_id
          (App.filtered_raw_results
             (App.search_images_wrapper dict db flt cn sel en fn lo hi fav)))).
Proof.
  assert (Hlisting : ∀ flt,
            StronglySorted Z.lt
              (map DatabaseManager.image_id
                 (DatabaseManager.get_all_indexed_images flt db))).
  { intros flt.
    destruct (ListingFacts.listing_fault flt db) as [-> | ->]; [constructor|].
    rewrite ListingFacts.listing_no_fault, OrderFacts.order_by_sort_by.
    apply OrderFacts.regrouped_in_key_order, OrderFacts.sort_by_keys.
    - intros x y. apply OrderFacts.before_keys.
    - intros x y. apply OrderFacts.before_keys. }
  split_and!.
  - exact Hlisting.
  - intros flt search_tags min_score.
    destruct (SearchFacts.search_fault flt search_tags min_score db)
      as [-> | [Hne ->]]; [constructor|].
    rewrite SearchFacts.search_no_fault by done.
    apply OrderFacts.regrouped_in_key_order.
    unfold DatabaseSearch.select_matching. simpl.
    apply OrderFacts.sort_by_keys.
    + intros x y. apply OrderFacts.before_name_keys.
    + intros x y. apply OrderFacts.before_name_keys.
  - intros flt cn sel en fn lo hi fav.
    destruct (AppMoreFacts.result_shape dict db flt cn sel en fn lo hi fav)
      as (_ & _ & Hsub & _).
    eapply OrderFacts.sublist_sorted; [exact Hsub|apply Hlisting].
Qed.
